(** * plastic_workflows: fleet provisioning and autoscaling

    A shallow embedding of the provisioning core of the repository:

    - [utils.py]: [mean], [std_dev];
    - [provisioning/aws/engine.py]: [Engine.remaining_billing_interval],
      [Engine.__get_spot_history], [Engine.__optimize_spot_bid],
      [Engine.__fix_spot], [Engine.embed], [Engine.create];
    - [provisioning/aws/ec2_instance.py]: [wait_spot_requests_fullfilled];
    - [provisioning/provision_manager.py]: [ProvisionManager.set_node_count],
      [ProvisionManager.__removeNodes] and the class [Worker];

    and, around them, [Engine.prepare] with the plan it hands to [create],
    [ProvisionManager.shut_down], [ResourceManager.check_resource_request],
    [wait_transition], [__awsBillingInterval], the name helpers and the class
    [Map] of [utils.py], and [findLatestUbuntuImage].

    Conventions.

    - The sources are Python 2 ([basestring] and [iteritems] in utils.py,
      a tuple-parameter lambda in provision_manager.py, [subprocess32] in
      engine.py) and no module imports [division] from [__future__]: [/]
      between two [int] literals is floor division, written [Z.div] here.
    - A Python [float] is an exact rational ([Q]); [==] is equality of
      rationals.  [sqrt] is kept symbolic, see [deviation].
    - A call that may raise returns a [result]; code that talks to the
      provider threads the list of provider calls issued so far. *)

From stdpp Require Import base list strings pretty gmap sets.
From Stdlib Require Import ZArith QArith Qround Lqa Lia.

Local Open Scope string_scope.
Local Open Scope list_scope.

(** ** Exceptions and results *)

Inductive exn : Type :=
| ClientError        (* botocore.exceptions.ClientError *)
| UserError          (* utils.UserError *)
| KeyError
| ValueError
| TypeError
| AttributeError
| UnboundLocalError
| IOError
| RuntimeError.      (* also: maximum recursion depth exceeded *)

Inductive result (A : Type) : Type :=
| Ok (a : A)
| Raise (e : exn).
Arguments Ok {A} a.
Arguments Raise {A} e.

Definition rbind {A B} (r : result A) (k : A -> result B) : result B :=
  match r with
  | Ok a => k a
  | Raise e => Raise e
  end.

Notation "'try!' x <- r ; k" := (rbind r (fun x => k))
  (at level 10, x pattern, r at level 100, k at level 200).

(** ** Python numerics over the rationals *)

Module PyNum.
Local Open Scope Q_scope.

Definition Qltb (x y : Q) : bool :=
  match x ?= y with Lt => true | _ => false end.

Definition Qleb (x y : Q) : bool :=
  match x ?= y with Gt => false | _ => true end.

(** [x % 1.0]: the result of [%] has the sign of the divisor, so it lies in
    [0, 1) whatever the sign of [x]. *)
Definition mod1 (x : Q) : Q := x - inject_Z (Qfloor x).

(** [round(x, 4)] of Python 2: to the closest multiple of [10 ** -4], a tie
    going away from zero. *)
Definition round_half_away (x : Q) : Z :=
  if Qleb 0 x then Qfloor (x + (1 # 2)) else (- Qfloor (- x + (1 # 2)))%Z.

Definition round4 (x : Q) : Q := inject_Z (round_half_away (x * 10000)) / 10000.

Definition Qsum (xs : list Q) : Q := foldl Qplus 0 xs.

End PyNum.

(** ** [Engine.remaining_billing_interval] *)

Module Billing.
Import PyNum.
Local Open Scope Q_scope.

(** [delta.total_seconds()] for [delta = now - launch_time]; instants are
    seconds since the epoch. *)
Definition total_seconds (launch_time now : Q) : Q := now - launch_time.

(** The arithmetic is that of the rationals: the rounding of the doubles,
    which moves the last bits of a reading, is not represented. *)
Definition remaining_billing_interval (launch_time now : Q) : Q :=
  1 - mod1 (total_seconds launch_time now / 3600).

End Billing.

(** ** Python's [sorted], [min] and [max] with a key *)

Module PySeq.

Section Keyed.
Context {A K : Type} (ltb : K -> K -> bool) (key : A -> K).

(** [sorted] is stable: [x], which came first, stays before every element
    whose key is not smaller than its own. *)
Fixpoint insert_sorted (x : A) (l : list A) : list A :=
  match l with
  | [] => [x]
  | y :: l' => if ltb (key y) (key x) then y :: insert_sorted x l'
               else x :: y :: l'
  end.

Definition sorted (l : list A) : list A := foldr insert_sorted [] l.

(** [min(l, key=key)]: the first of the elements with the smallest key;
    [ValueError] on an empty sequence. *)
Fixpoint min_from (best : A) (l : list A) : A :=
  match l with
  | [] => best
  | x :: l' => min_from (if ltb (key x) (key best) then x else best) l'
  end.

Definition py_min (l : list A) : result A :=
  match l with
  | [] => Raise ValueError
  | x :: l' => Ok (min_from x l')
  end.

Fixpoint max_from (best : A) (l : list A) : A :=
  match l with
  | [] => best
  | x :: l' => max_from (if ltb (key best) (key x) then x else best) l'
  end.

Definition py_max (l : list A) : result A :=
  match l with
  | [] => Raise ValueError
  | x :: l' => Ok (max_from x l')
  end.
End Keyed.

(** [sorted(l, key=key, reverse=True)] keeps equal keys in their original
    order as well. *)
Definition sorted_reverse {A K} (ltb : K -> K -> bool) (key : A -> K)
    (l : list A) : list A :=
  sorted (fun a b => ltb b a) key l.

End PySeq.

(** ** [utils.mean], [utils.std_dev] *)

Module Utils.
Import PyNum.
Local Open Scope Q_scope.

(** The value [sqrt(v)] for a rational [v].  The optimizer only ever orders
    deviations ([min] with [key=attrgetter('price_deviation')]), and [sqrt]
    is strictly increasing, so two deviations compare as their radicands. *)
Record deviation : Type := Sqrt { radicand : Q }.

Definition dev_ltb (a b : deviation) : bool := Qltb (radicand a) (radicand b).

Definition len_float (xs : list Q) : Q := inject_Z (Z.of_nat (length xs)).

(** [sum( xs ) / float( len( xs ) )], over the rationals: the rounding of
    the doubles, and their overflow, are not represented. *)
Definition mean (xs : list Q) : result Q :=
  match xs with
  | [] => Raise ValueError       (* ZeroDivisionError turned into ValueError *)
  | _ => Ok (Qsum xs / len_float xs)
  end.

(** Over the rationals as well: the deviation of equal samples is exactly
    0 here, where the doubles may leave a residue in the last bits. *)
Definition std_dev (xs : list Q) : result deviation :=
  try! m <- mean xs;
  Ok (Sqrt (Qsum (map (fun x => (x - m) ^ 2) xs) / len_float xs)).

End Utils.

(** ** Spot bidding: [Engine.__get_spot_history], [__optimize_spot_bid],
       [__fix_spot] *)

Module Spot.
Import PyNum PySeq Utils.
Local Open Scope Q_scope.

(** One record of [describe_spot_price_history]; [SpotPrice] is the value of
    [float(pr['SpotPrice'])]. *)
Record SpotPriceEntry : Type := {
  AvailabilityZone : string;
  SpotPrice : Q;
  Timestamp : Z
}.

(** What [self.env.ec2client] answers. *)
Record Ec2Client : Type := {
  describe_spot_price_history : list SpotPriceEntry;
  describe_availability_zones : list string      (* the ZoneName of each *)
}.

(** [BestAvZone = namedtuple('BestAvZone', ['name', 'price_deviation'])];
    [__fix_spot] reuses the second field for the bid. *)
Record BestAvZone (V : Type) : Type := {
  name : string;
  price_deviation : V
}.
Arguments name {V} _.
Arguments price_deviation {V} _.

Definition get_spot_history (env : Ec2Client) : list SpotPriceEntry :=
  sorted_reverse Z.ltb Timestamp (describe_spot_price_history env).

Definition rounded_prices (hist : list SpotPriceEntry) : list Q :=
  map (fun pr => round4 (SpotPrice pr)) hist.

(** The nested [check_spot_prices]; [None] is Python's [None], returned by
    falling off the end when [sh] is empty. *)
Definition check_spot_prices (spot_hist : list SpotPriceEntry) : option (Q * Q) :=
  let sh := rounded_prices spot_hist in
  match py_min Qltb id sh, mean sh with
  | Ok smaller, Ok avg => Some (smaller, round4 avg)
  | _, _ => None
  end.

(** The body of [for zone in zones['AvailabilityZones']], with the lists it
    appends to.  [zone_hists] is created once, before the loop, and is only
    ever appended to. *)
Fixpoint zone_loop (spot_hist : list SpotPriceEntry) (bid_price : Q)
    (zones : list string) (zone_hists : list SpotPriceEntry)
    (markets_under_bid markets_over_bid : list (BestAvZone deviation))
    : result (list (BestAvZone deviation) * list (BestAvZone deviation)) :=
  match zones with
  | [] => Ok (markets_under_bid, markets_over_bid)
  | zone :: zones' =>
    let zone_hists :=
      zone_hists ++
      List.filter (fun zh => String.eqb (AvailabilityZone zh) zone) spot_hist in
    try! pr <-
      match zone_hists with
      | zh0 :: _ =>
          try! price_dev <- std_dev (rounded_prices zone_hists);
          Ok (price_dev, round4 (SpotPrice zh0))
      | [] => Ok (Sqrt 0, bid_price)
      end;
    let best_zone := {| name := zone; price_deviation := fst pr |} in
    if Qltb (snd pr) bid_price
    then zone_loop spot_hist bid_price zones' zone_hists
           (markets_under_bid ++ [best_zone]) markets_over_bid
    else zone_loop spot_hist bid_price zones' zone_hists
           markets_under_bid (markets_over_bid ++ [best_zone])
  end.

(** The two checks that close [__optimize_spot_bid]. *)
Definition correct_bid (bid_price sm avg : Q) : Q :=
  let bid_price :=
    if Qltb (avg * 2) bid_price
    then avg + inject_Z (25 / 100) * avg
    else bid_price in
  if Qleb bid_price sm
  then sm + inject_Z (25 / 100) * sm
  else bid_price.

Definition optimize_spot_bid (env : Ec2Client) (bid_price : Q)
    : result (string * Q) :=
  let spot_hist := get_spot_history env in
  let zones := describe_availability_zones env in
  try! markets <- zone_loop spot_hist bid_price zones [] [] [];
  let markets_under_bid := fst markets in
  let markets_over_bid := snd markets in
  try! stable <- py_min dev_ltb price_deviation
                   (match markets_under_bid with
                    | [] => markets_over_bid
                    | _ => markets_under_bid
                    end);
  let stable_zone := name stable in
  match check_spot_prices spot_hist with
  | None => Raise TypeError          (* [sm, avg = None] *)
  | Some (sm, avg) => Ok (stable_zone, correct_bid bid_price sm avg)
  end.

(** [if not bid]: [None] and [0.0] are both false. *)
Definition falsy (bid : option Q) : bool :=
  match bid with
  | None => true
  | Some b => Qeq_bool b 0
  end.

(** The block under [if not bid] in [__fix_spot]. *)
Definition seed_bid (env : Ec2Client) : result Q :=
  let _hist := get_spot_history env in
  let _prices := rounded_prices _hist in
  try! mx <- py_max Qltb id _prices;
  Ok (mx - inject_Z (25 / 100) * mx).

Definition fix_spot (env : Ec2Client) (bid : option Q) : result (BestAvZone Q) :=
  try! bid <- (if falsy bid then seed_bid env
               else match bid with Some b => Ok b | None => seed_bid env end);
  try! best <- optimize_spot_bid env bid;
  Ok {| name := fst best; price_deviation := snd best |}.

(** Every zone of [l] is one of [zones]. *)
Definition names_in (zones : list string) (l : list (BestAvZone deviation)) : Prop :=
  forall z, In z l -> In (name z) zones.

(** *** The optimizer as the specification words it

    Each zone is judged on its own samples: its deviation is the population
    standard deviation of its own prices (0 without history) and its recent
    price is its own most recent sample (the bid itself without history). *)

Definition spec_zone_history (spot_hist : list SpotPriceEntry) (zone : string)
    : list SpotPriceEntry :=
  List.filter (fun zh => String.eqb (AvailabilityZone zh) zone) spot_hist.

Definition spec_price_deviation (spot_hist : list SpotPriceEntry) (zone : string)
    : deviation :=
  match std_dev (rounded_prices (spec_zone_history spot_hist zone)) with
  | Ok d => d
  | Raise _ => Sqrt 0
  end.

Definition spec_recent_price (spot_hist : list SpotPriceEntry) (bid : Q)
    (zone : string) : Q :=
  match spec_zone_history spot_hist zone with
  | zh0 :: _ => round4 (SpotPrice zh0)
  | [] => bid
  end.

Definition spec_choose_zone (env : Ec2Client) (bid : Q) : result string :=
  let spot_hist := get_spot_history env in
  let zones := describe_availability_zones env in
  let under := List.filter (fun z => Qltb (spec_recent_price spot_hist bid z) bid) zones in
  let over := List.filter (fun z => negb (Qltb (spec_recent_price spot_hist bid z) bid)) zones in
  py_min dev_ltb (spec_price_deviation spot_hist)
    (match under with [] => over | _ => under end).

(** The seed as the specification words it: the maximum minus 25% of it. *)
Definition spec_seed_bid (env : Ec2Client) : result Q :=
  try! mx <- py_max Qltb id (rounded_prices (get_spot_history env));
  Ok (mx - (25 # 100) * mx).

(** The correction as the specification words it. *)
Definition spec_correct_bid (bid min avg : Q) : Q :=
  let bid := if Qltb (2 * avg) bid then avg + (25 # 100) * avg else bid in
  if Qleb bid min then min + (25 # 100) * min else bid.

(** *** The scenario of the specification *)

Definition scenario_history : list SpotPriceEntry :=
  [ {| AvailabilityZone := "zoneA"; SpotPrice := 10 # 100; Timestamp := 1 |};
    {| AvailabilityZone := "zoneA"; SpotPrice := 12 # 100; Timestamp := 2 |};
    {| AvailabilityZone := "zoneA"; SpotPrice := 11 # 100; Timestamp := 3 |};
    {| AvailabilityZone := "zoneB"; SpotPrice := 50 # 100; Timestamp := 4 |} ].

Definition scenario_env : Ec2Client :=
  {| describe_spot_price_history := scenario_history;
     describe_availability_zones := ["zoneA"; "zoneB"] |}.

(** Two zones, the second one steadier than the first on its own samples. *)
Definition steady_env : Ec2Client :=
  {| describe_spot_price_history :=
       [ {| AvailabilityZone := "zoneA"; SpotPrice := 10 # 100; Timestamp := 3 |};
         {| AvailabilityZone := "zoneA"; SpotPrice := 12 # 100; Timestamp := 2 |};
         {| AvailabilityZone := "zoneB"; SpotPrice := 50 # 100; Timestamp := 1 |} ];
     describe_availability_zones := ["zoneA"; "zoneB"] |}.

End Spot.

(** ** [wait_spot_requests_fullfilled], [Engine.embed], [Engine.create] *)

Module Fleet.
Import PyNum.

(** One element of the list [SpotInstanceRequests] of a response. *)
Record SpotInstanceRequest : Type := {
  State : string;
  Status_Code : string;                  (* r['Status']['Code'] *)
  InstanceId : string
}.

(** The calls that reach the provider, in the order they are issued. *)
Inductive call : Type :=
| CreateInstances (count : Z)            (* ec2.create_instances *)
| RequestSpotInstances (price : Q) (count : Z)
| DescribeSpotInstanceRequests (spot_req_id : string)
| CreateTags (inst_id : string)
| Terminate (inst_id : string)           (* ec2.Instance(id).terminate() *)
| WaitUntilRunning (inst_id : string)
| ConnectPort (inst_id : string)
| GetKeyPair (keyName : option string).  (* env.get_key_pair *)

(** What the provider and the machine answer.  The answer to a describe call
    or to a connection attempt may change from one call to the next: it is
    indexed by the number of earlier calls of the same kind. *)
Record Service : Type := {
  create_ec2_instances : Z -> result (list string);
  (* within [create_ec2_spot_instances]: [env.get_key_pair], then
     [ec2client.request_spot_instances] *)
  get_key_pair : option string -> result (string * string);
  create_ec2_spot_instances : Q -> Z -> result (list string);
  describe_spot_instance_requests :
    string -> nat -> result (list SpotInstanceRequest);
  create_tags : string -> result unit;
  terminate_instance : string -> result unit;
  wait_until_running : string -> result unit;
  connect_ex : string -> nat -> bool;    (* [ret == 0] *)
  read_file : string -> result string;   (* [open(path, 'r').read()] *)
  random_cluster_name : string           (* 'ClusterXX-' + randomizeID(...) *)
}.

(** The fields of [Engine] that [create] reads or writes. *)
Record engine : Type := {
  instance : option string;              (* id of [self.__instance] *)
  cluster_ordinal : option Z;
  cluster_name : option string
}.

Definition instance_id (self : engine) : option string := instance self.

(** [self] together with the locals of [create] that its nested function and
    its handler share, and the calls issued so far. *)
Record frame : Type := {
  self : engine;
  pending_ids : gset string;
  engines : list string;
  next_ordinal : Z;                      (* the [count] iterator *)
  calls : list call
}.

(** A computation either runs out of fuel ([None]) or ends, normally or by
    an exception, in a new frame. *)
Definition M (A : Type) : Type := frame -> option (result A * frame).

Definition ret {A} (a : A) : M A := fun f => Some (Ok a, f).
Definition raise {A} (e : exn) : M A := fun f => Some (Raise e, f).
Definition diverge {A} : M A := fun _ => None.

Definition bind {A B} (m : M A) (k : A -> M B) : M B :=
  fun f =>
    match m f with
    | None => None
    | Some (Ok a, f') => k a f'
    | Some (Raise e, f') => Some (Raise e, f')
    end.

Notation "'do!' x <- m ; k" := (bind m (fun x => k))
  (at level 10, x pattern, m at level 100, k at level 200).

Definition lift {A} (r : result A) : M A := fun f => Some (r, f).

Definition log_calls (cs : list call) (f : frame) : frame :=
  {| self := self f; pending_ids := pending_ids f; engines := engines f;
     next_ordinal := next_ordinal f; calls := calls f ++ cs |}.

Definition issue (c : call) : M unit := fun f => Some (Ok tt, log_calls [c] f).

Definition get_frame : M frame := fun f => Some (Ok f, f).

Fixpoint for_each {A} (l : list A) (body : A -> M unit) : M unit :=
  match l with
  | [] => ret tt
  | x :: l' => do! _ <- body x; for_each l' body
  end.

Definition call_eqb (c d : call) : bool :=
  match c, d with
  | DescribeSpotInstanceRequests a, DescribeSpotInstanceRequests b => String.eqb a b
  | ConnectPort a, ConnectPort b => String.eqb a b
  | _, _ => false
  end.

Definition earlier (c : call) (f : frame) : nat :=
  length (List.filter (call_eqb c) (calls f)).

Section WithService.
Variable env : Service.

(** *** [wait_spot_requests_fullfilled] *)

(** The [for r in resp] loop: it returns, raises, or ends with the new
    [count_tries]. *)
Inductive scan : Type :=
| Returns (inst_id : string)
| Fails
| Continues (count_tries : Z).

Fixpoint scan_requests (resp : list SpotInstanceRequest) (count_tries : Z)
    : scan :=
  match resp with
  | [] => Continues count_tries
  | r :: resp' =>
    if String.eqb (State r) "failed" then Fails
    else if String.eqb (State r) "open" then scan_requests resp' (count_tries + 1)
    else if String.eqb (State r) "active" && String.eqb (Status_Code r) "fulfilled"
         then Returns (InstanceId r)
    else scan_requests resp' count_tries
  end.

(** The [while count_tries < 10] loop; the function ends without a
    [return] after it, so its value is then [None]. *)
Fixpoint wait_loop (fuel : nat) (spot_req_id : string) (count_tries : Z)
    : M (option string) :=
  match fuel with
  | O => diverge
  | S fuel' =>
    if (count_tries <? 10)%Z then
      do! f <- get_frame;
      let c := DescribeSpotInstanceRequests spot_req_id in
      do! _ <- issue c;
      do! resp <- lift (describe_spot_instance_requests env spot_req_id (earlier c f));
      match scan_requests resp count_tries with
      | Fails => raise UserError
      | Returns inst_id => ret (Some inst_id)
      | Continues count_tries' => wait_loop fuel' spot_req_id count_tries'
      end
    else ret None
  end.

Definition wait_spot_requests_fullfilled (fuel : nat) (spot_req_id : string)
    : M (option string) :=
  wait_loop fuel spot_req_id 0.

(** [self.env.ec2.Instance(inst_id)]: boto3 builds the resource locally and
    refuses a missing identifier with [ValueError]. *)
Definition ec2_Instance (inst_id : option string) : M string :=
  match inst_id with
  | Some i => ret i
  | None => raise ValueError
  end.

(** *** [Engine.embed], with [__tag_created_instance] *)

Definition embed (instance : string) (ordinal : Z) : M unit :=
  do! _ <- (fun f =>
    let e := self f in
    Some (Ok tt,
          {| self := {| instance := Some instance;
                        cluster_ordinal := Some ordinal;
                        cluster_name :=
                          match cluster_name e with
                          | None => Some (random_cluster_name env)
                          | Some n => Some n
                          end |};
             pending_ids := pending_ids f; engines := engines f;
             next_ordinal := next_ordinal f; calls := calls f |}));
  do! _ <- issue (CreateTags instance);
  lift (create_tags env instance).

(** *** [Engine.create] *)

Record LaunchPlan : Type := {
  ImageId : string;
  InstanceType : string;
  KeyName : string;
  SubnetId : string;
  MaxCount : Z;
  BidPrice : option Q;
  Placement : option (string * string)   (* AvailabilityZone, GroupName *)
}.

(** [ec2_instance_types]: the name of each type that the package lists,
    with its [EBS_optimized]. *)
Definition ec2_instance_types : gmap string bool :=
  list_to_map
    [ ("c3.large", false); ("c3.xlarge", false); ("c3.2xlarge", false);
      ("c3.4xlarge", false);
      ("c4.large", true); ("c4.xlarge", true); ("c4.2xlarge", true);
      ("c4.4xlarge", true);
      ("m3.medium", false); ("m3.large", false); ("m3.xlarge", false);
      ("m3.2xlarge", false);
      ("m4.large", true); ("m4.xlarge", true); ("m4.2xlarge", true);
      ("m4.4xlarge", true);
      ("g2.2xlarge", false); ("g2.8xlarge", false);
      ("g3.4xlarge", true); ("g3.8xlarge", true);
      ("r3.large", false); ("r3.xlarge", false); ("r3.2xlarge", false);
      ("r3.4xlarge", false);
      ("r4.large", true); ("r4.xlarge", true); ("r4.2xlarge", true);
      ("r4.4xlarge", true) ].

(** [if not keyName]. *)
Definition key_wanted (keyName : string) : option string :=
  match keyName with
  | EmptyString => None
  | _ => Some keyName
  end.

Definition store_instance (instance : string) : M unit :=
  do! ordinal <- (fun f =>
    Some (Ok (next_ordinal f),
          {| self := self f; pending_ids := {[instance]} ∪ pending_ids f;
             engines := engines f; next_ordinal := (next_ordinal f + 1)%Z;
             calls := calls f |}));
  do! _ <- embed instance ordinal;
  fun f =>
    Some (Ok tt,
          {| self := self f; pending_ids := pending_ids f;
             engines := engines f ++ [instance];
             next_ordinal := next_ordinal f; calls := calls f |}).

(** [user_text] is bound only under [if user_data]; reading it unbound
    raises [UnboundLocalError]. *)
Definition read_user_text (user_text : option string) : M string :=
  match user_text with
  | Some t => ret t
  | None => raise UnboundLocalError
  end.

Definition truthy (bid : option Q) : bool :=
  match bid with
  | None => false
  | Some b => negb (Qeq_bool b 0)
  end.

(** What [create_ec2_spot_instances] does before it sends the request: it
    resolves the key pair, looks the instance type up in
    [ec2_instance_types] ([KeyError] for a type that is not listed) and
    reads the zone and the group of the placement ([AttributeError] when
    there is no placement). *)
Definition launch_specification (arguments : LaunchPlan) : M unit :=
  let keyName := key_wanted (KeyName arguments) in
  do! _ <- issue (GetKeyPair keyName);
  do! keyName <- lift (get_key_pair env keyName);
  do! ebsopt <- lift (match ec2_instance_types !! InstanceType arguments with
                      | Some b => Ok b
                      | None => Raise KeyError
                      end);
  do! placement <- lift (match Placement arguments with
                         | Some p => Ok p
                         | None => Raise AttributeError
                         end);
  ret tt.

Definition submit_spot (fuel : nat) (price : Q) (arguments : LaunchPlan)
    (user_text : option string) : M unit :=
  do! _ <- read_user_text user_text;
  do! _ <- launch_specification arguments;
  do! _ <- issue (RequestSpotInstances price (MaxCount arguments));
  do! instances <- lift (create_ec2_spot_instances env price (MaxCount arguments));
  for_each instances (fun spot =>
    do! inst_id <- wait_spot_requests_fullfilled fuel spot;
    do! inst <- ec2_Instance inst_id;
    store_instance inst).

Definition submit_on_demand (arguments : LaunchPlan)
    (user_text : option string) : M unit :=
  do! _ <- read_user_text user_text;
  do! _ <- issue (CreateInstances (MaxCount arguments));
  do! instances <- lift (create_ec2_instances env (MaxCount arguments));
  for_each instances store_instance.

(** The body of [try]. *)
Definition submit (fuel : nat) (arguments : LaunchPlan)
    (user_text : option string) : M unit :=
  match BidPrice arguments with
  | Some price =>
    if truthy (BidPrice arguments)
    then submit_spot fuel price arguments user_text
    else submit_on_demand arguments user_text
  | None => submit_on_demand arguments user_text
  end.

Definition terminate (p_id : string) : M unit :=
  do! _ <- issue (Terminate p_id);
  lift (terminate_instance env p_id).

(** [pending_ids.remove(x)]: [KeyError] when [x] is not in the set. *)
Definition pending_remove (x : option string) : M unit :=
  fun f =>
    match x with
    | Some i =>
      if decide (i ∈ pending_ids f) then
        Some (Ok tt,
              {| self := self f; pending_ids := pending_ids f ∖ {[i]};
                 engines := engines f; next_ordinal := next_ordinal f;
                 calls := calls f |})
      else Some (Raise KeyError, f)
    | None => Some (Raise KeyError, f)
    end.

(** [except ClientError as e]. *)
Definition on_client_error (terminate_on_error : bool) : M unit :=
  if terminate_on_error then
    do! f <- get_frame;
    do! _ <- for_each (elements (pending_ids f)) terminate;
    raise ClientError
  else
    do! f <- get_frame;
    do! _ <- pending_remove (instance_id (self f));
    raise ClientError.

(** [waitForOpenPort]: connect until it succeeds. *)
Fixpoint waitForOpenPort (fuel : nat) (inst : string) : M unit :=
  match fuel with
  | O => diverge
  | S fuel' =>
    do! f <- get_frame;
    let c := ConnectPort inst in
    do! _ <- issue c;
    if connect_ex env inst (earlier c f) then ret tt
    else waitForOpenPort fuel' inst
  end.

Definition await_ready (fuel : nat) (inst : string) : M unit :=
  do! _ <- issue (WaitUntilRunning inst);
  do! _ <- lift (wait_until_running env inst);
  waitForOpenPort fuel inst.

Definition user_text_of (user_data : option string) : M (option string) :=
  match user_data with
  | None => ret None
  | Some EmptyString => ret None
  | Some path => do! t <- lift (read_file env path); ret (Some t)
  end.

Definition create_body (fuel : nat) (arguments : LaunchPlan)
    (terminate_on_error : bool) (user_data : option string)
    : M (list string) :=
  do! user_text <- user_text_of user_data;
  fun f =>
    match submit fuel arguments user_text f with
    | None => None
    | Some (Raise ClientError, f') =>
      match on_client_error terminate_on_error f' with
      | None => None
      | Some (Ok _, f'') => Some (Raise ClientError, f'')
      | Some (Raise e, f'') => Some (Raise e, f'')
      end
    | Some (Raise e, f') => Some (Raise e, f')
    | Some (Ok _, f') =>
      (do! _ <- for_each (engines f') (await_ready fuel);
       do! f'' <- get_frame;
       ret (engines f'')) f'
    end.

(** [create] on the engine [self0], with no call issued yet. *)
Definition create (fuel : nat) (self0 : engine) (arguments : LaunchPlan)
    (terminate_on_error : bool) (cluster_ordinal : Z)
    (user_data : option string) : option (result (list string) * frame) :=
  create_body fuel arguments terminate_on_error user_data
    {| self := self0; pending_ids := ∅; engines := [];
       next_ordinal := cluster_ordinal; calls := [] |}.

End WithService.

Definition unbound : engine :=
  {| instance := None; cluster_ordinal := None; cluster_name := None |}.

(** The instances a terminate call was issued for. *)
Definition terminated (f : frame) : list string :=
  omap (fun c => match c with Terminate i => Some i | _ => None end) (calls f).

Definition describes (f : frame) : list string :=
  omap (fun c => match c with
                 | DescribeSpotInstanceRequests r => Some r
                 | _ => None
                 end) (calls f).

(** *** Providers to run [create] on *)

Definition service
    (instances : Z -> result (list string))
    (requests : Q -> Z -> result (list string))
    (describe : string -> nat -> result (list SpotInstanceRequest))
    (tags : string -> result unit) : Service :=
  {| create_ec2_instances := instances;
     get_key_pair := fun keyName =>
       Ok (match keyName with Some k => k | None => "key" end, "key.pem");
     create_ec2_spot_instances := requests;
     describe_spot_instance_requests := describe;
     create_tags := tags;
     terminate_instance := fun _ => Ok tt;
     wait_until_running := fun _ => Ok tt;
     connect_ex := fun _ _ => true;
     read_file := fun _ => Ok "#!/bin/bash";
     random_cluster_name := "ClusterXX-0000" |}.

Definition fulfilled (inst_id : string) : SpotInstanceRequest :=
  {| State := "active"; Status_Code := "fulfilled"; InstanceId := inst_id |}.

Definition still_open : SpotInstanceRequest :=
  {| State := "open"; Status_Code := "pending-evaluation"; InstanceId := EmptyString |}.

Definition cancelled : SpotInstanceRequest :=
  {| State := "cancelled"; Status_Code := "canceled-before-fulfillment";
     InstanceId := EmptyString |}.

(** The provider refuses the batch request. *)
Definition refusing : Service :=
  service (fun _ => Raise ClientError) (fun _ _ => Raise ClientError)
          (fun _ _ => Ok []) (fun _ => Ok tt).

(** Five instances are launched; tagging the third one is refused. *)
Definition third_refused : Service :=
  service (fun _ => Ok ["i-1"; "i-2"; "i-3"; "i-4"; "i-5"])
          (fun _ _ => Raise ClientError)
          (fun _ _ => Ok [])
          (fun i => if String.eqb i "i-3" then Raise ClientError else Ok tt).

(** Two spot requests: the first is fulfilled at once, the second stays
    open. *)
Definition second_open : Service :=
  service (fun _ => Raise ClientError)
          (fun _ _ => Ok ["sir-1"; "sir-2"])
          (fun r _ => if String.eqb r "sir-1" then Ok [fulfilled "i-1"]
                      else Ok [still_open])
          (fun _ => Ok tt).

(** A spot request that was cancelled. *)
Definition never_open : Service :=
  service (fun _ => Raise ClientError)
          (fun _ _ => Ok ["sir-1"])
          (fun _ _ => Ok [cancelled])
          (fun _ => Ok tt).

Definition on_demand_plan : LaunchPlan :=
  {| ImageId := "ami-6d48500b"; InstanceType := "c3.large"; KeyName := "key";
     SubnetId := "subnet-1"; MaxCount := 5; BidPrice := None;
     Placement := Some ("zoneA", "plgroup_zoneA") |}.

Definition spot_plan : LaunchPlan :=
  {| ImageId := "ami-6d48500b"; InstanceType := "c3.large"; KeyName := "key";
     SubnetId := "subnet-1"; MaxCount := 2; BidPrice := Some (3 # 8);
     Placement := Some ("zoneA", "plgroup_zoneA") |}.

Definition empty_frame : frame :=
  {| self := unbound; pending_ids := ∅; engines := []; next_ordinal := 0;
     calls := [] |}.

End Fleet.

(** ** [ProvisionManager.set_node_count], [ProvisionManager.__removeNodes] *)

Module Provision.
Import PyNum PySeq.

(** [NodeInfo = namedtuple("_NodeInfo", "cores memory workers")]. *)
Record NodeInfo : Type := {
  cores : Q;
  memory : Q;
  workers : Z
}.

(** [l[:n]]: a negative bound counts from the end. *)
Definition slice_to {A} (n : Z) (l : list A) : list A :=
  if (0 <=? n)%Z then take (Z.to_nat n) l
  else take (length l - Z.to_nat (- n)) l.

(** The key of the sort in [__removeNodes] is a pair, ordered as Python
    orders tuples. *)
Definition pair_ltb (a b : Z * Q) : bool :=
  if (fst a <? fst b)%Z then true
  else if (fst b <? fst a)%Z then false
  else Qltb (snd a) (snd b).

Section Manager.

(** The instances of the provider, the cluster they live in, and the methods
    [ProvisionManager] leaves to the provisioner behind it. *)
Context {Instance Cluster : Type}.
Variable private_ip_address : Instance -> string.
Variable _remainingBillingInterval : Instance -> Q.
Variable _getWorkersInCluster : Cluster -> bool -> list Instance.
Variable _addNodes : Cluster -> list Instance -> Z -> bool -> Z * Cluster.
Variable _logAndTerminate : Cluster -> list Instance -> Cluster.

(** [self.resManager]: [Some get_nodes] when it is a [ResourceManager],
    [get_nodes preemptible] being the dictionary it answers. *)
Variable resManager : option (bool -> gmap string NodeInfo).

(** The calls that reach the provisioner. *)
Inductive provider_call : Type :=
| AddNodes (numNodes : Z) (preemptible : bool)
| LogAndTerminate (instances : list Instance).

Record manager : Type := {
  cluster : Cluster;
  issued : list provider_call
}.

Definition keep_idle (force : bool) (node : Instance * option NodeInfo) : bool :=
  if force then true
  else match snd node with
       | Some nodeInfo => (workers nodeInfo <? 1)%Z
       | None => false
       end.

Definition sort_key (node : Instance * option NodeInfo) : Z * Q :=
  (match snd node with Some nodeInfo => workers nodeInfo | None => 1%Z end,
   _remainingBillingInterval (fst node)).

(** A node may go, unless forced, when the resource manager knows it, no
    worker is active on it and at most 15% of its paid hour is left. *)
Definition expendable (nodes : gmap string NodeInfo) (i : Instance) : Prop :=
  (exists nodeInfo, nodes !! private_ip_address i = Some nodeInfo
                    /\ (workers nodeInfo < 1)%Z)
  /\ (_remainingBillingInterval i <= 15 # 100)%Q.

(** The instances [__removeNodes] hands to [_logAndTerminate]. *)
Definition nodes_to_terminate (instances : list Instance) (numNodes : Z)
    (preemptible force : bool) : list Instance :=
  match resManager with
  | Some get_nodes =>
    let nodes := get_nodes preemptible in
    let nodes :=
      map (fun instance => (instance, nodes !! private_ip_address instance))
          instances in
    let nodesToTerminate := List.filter (keep_idle force) nodes in
    let nodesToTerminate := sorted pair_ltb sort_key nodesToTerminate in
    let nodesToTerminate :=
      if negb force
      then List.filter
             (fun nodeTuple =>
                Qleb (_remainingBillingInterval (fst nodeTuple)) (15 # 100))
             nodesToTerminate
      else nodesToTerminate in
    let nodesToTerminate := slice_to numNodes nodesToTerminate in
    map fst nodesToTerminate
  | None =>
    (* the truncation [islice(instances, numNodes)] is commented out *)
    sorted Qltb _remainingBillingInterval instances
  end.

Definition removeNodes (m : manager) (instances : list Instance) (numNodes : Z)
    (preemptible force : bool) : Z * manager :=
  let instances := nodes_to_terminate instances numNodes preemptible force in
  let m :=
    match instances with
    | [] => m
    | _ => {| cluster := _logAndTerminate (cluster m) instances;
              issued := issued m ++ [LogAndTerminate instances] |}
    end in
  (Z.of_nat (length instances), m).

Definition addNodes (m : manager) (instances : list Instance) (numNodes : Z)
    (preemptible : bool) : Z * manager :=
  let r := _addNodes (cluster m) instances numNodes preemptible in
  (fst r, {| cluster := snd r;
             issued := issued m ++ [AddNodes numNodes preemptible] |}).

Definition set_node_count (m : manager) (numNodes : Z)
    (preemptible force : bool) : Z * manager :=
  let workerInstances := _getWorkersInCluster (cluster m) preemptible in
  let numCurrentNodes := Z.of_nat (length workerInstances) in
  let delta := (numNodes - numCurrentNodes)%Z in
  if (0 <? delta)%Z then
    let r := addNodes m workerInstances delta preemptible in
    ((numCurrentNodes + fst r)%Z, snd r)
  else if (delta <? 0)%Z then
    let r := removeNodes m workerInstances (- delta) preemptible force in
    ((numCurrentNodes - fst r)%Z, snd r)
  else (numNodes, m).

End Manager.

(** *** A provisioner to run the controller on *)

(** Modelled from the spec: the hooks [_getWorkersInCluster], [_addNodes],
    [_logAndTerminate] and [_remainingBillingInterval] are left to a
    provisioner that the sources do not contain.  Here the workers of a
    class are the instances of the cluster of that class, adding nodes
    launches what was asked for and reports that number, and terminating
    removes the instances from the cluster; an instance carries its private
    address and the part of the paid hour it has left. *)
Record node : Type := {
  node_id : string;
  node_ip : string;
  node_left : Q;
  node_preemptible : bool
}.

(** Modelled from the spec: [_getWorkersInCluster], missing from the sources;
    the workers of a class are the instances of that class. *)
Definition workers_in (c : list node) (preemptible : bool) : list node :=
  List.filter (fun n => eqb (node_preemptible n) preemptible) c.

Definition fresh_node (preemptible : bool) (k : nat) : node :=
  {| node_id := "new"; node_ip := "10.0.1." +:+ pretty k;
     node_left := 1; node_preemptible := preemptible |}.

(** Modelled from the spec: [_addNodes], missing from the sources; it
    launches [numNodes] instances and returns the number added. *)
Definition launch (c : list node) (instances : list node) (numNodes : Z)
    (preemptible : bool) : Z * list node :=
  (numNodes, c ++ map (fresh_node preemptible) (seq 0 (Z.to_nat numNodes))).

(** Modelled from the spec: [_logAndTerminate], missing from the sources; the
    instances given leave the cluster. *)
Definition shut (c : list node) (instances : list node) : list node :=
  List.filter
    (fun n => negb (existsb (fun i => String.eqb (node_ip i) (node_ip n)) instances))
    c.

Definition run_set_node_count (resManager : option (bool -> gmap string NodeInfo))
    (m : manager (Instance := node)) (numNodes : Z) (preemptible force : bool)
    : Z * manager :=
  set_node_count node_ip node_left workers_in launch shut resManager
    m numNodes preemptible force.

Definition busy : NodeInfo := {| cores := 1; memory := 1 # 2; workers := 1 |}.
Definition idle : NodeInfo := {| cores := 0; memory := 0; workers := 0 |}.

Definition three_nodes : list node :=
  [ {| node_id := "i-1"; node_ip := "10.0.0.1"; node_left := 9 # 10;
       node_preemptible := false |};
    {| node_id := "i-2"; node_ip := "10.0.0.2"; node_left := 1 # 10;
       node_preemptible := false |};
    {| node_id := "i-3"; node_ip := "10.0.0.3"; node_left := 1 # 2;
       node_preemptible := false |} ].

Definition two_busy_nodes : list node :=
  [ {| node_id := "i-1"; node_ip := "10.0.0.1"; node_left := 1 # 10;
       node_preemptible := false |};
    {| node_id := "i-2"; node_ip := "10.0.0.2"; node_left := 1 # 20;
       node_preemptible := false |} ].

Definition all_busy (preemptible : bool) : gmap string NodeInfo :=
  {[ "10.0.0.1" := busy; "10.0.0.2" := busy ]}.

Definition mixed_load (preemptible : bool) : gmap string NodeInfo :=
  {[ "10.0.0.1" := idle; "10.0.0.2" := idle ]}.

Definition fresh_manager (c : list node) : manager (Instance := node) :=
  {| cluster := c; issued := [] |}.

End Provision.

(** ** The class [Worker] *)

Module WorkerClass.

Section Values.

(** The values a caller may pass. *)
Variable value : Type.

(** An instance: its [__dict__]. *)
Record object : Type := { dict : gmap string value }.

(** The body of each getter of the class: [return self.<attr>]. *)
Inductive getter : Type := ReturnSelf (attr : string).

(** [property(fget, fset)]; the class gives no setter to any of them. *)
Record property : Type := {
  fget : option getter;
  fset : option (object -> value -> result object)
}.

Definition readonly (attr : string) : property :=
  {| fget := Some (ReturnSelf attr); fset := None |}.

(** The properties in the namespace of the class. *)
Definition Worker_properties : gmap string property :=
  {[ "publicIP" := readonly "publicIP";
     "privateIP" := readonly "privateIP";
     "name" := readonly "name";
     "launchTime" := readonly "launchTime";
     "nodeType" := readonly "nodeType";
     "preemptible" := readonly "preemptible" ]}.

(** [self.attr = v]: a property of the class is a data descriptor and comes
    before the instance dictionary. *)
Definition setattr (self : object) (attr : string) (v : value) : result object :=
  match Worker_properties !! attr with
  | Some p =>
    match fset p with
    | None => Raise AttributeError       (* can't set attribute *)
    | Some set => set self v
    end
  | None => Ok {| dict := <[attr := v]> (dict self) |}
  end.

(** [self.attr], together with the number of getter calls it makes.  A
    getter is a Python function: [depth] is the number of nested getter
    calls that the interpreter still allows; one call more and it raises
    [RuntimeError] (maximum recursion depth exceeded).  A name that the
    class does not define is looked up in the instance dictionary. *)
Fixpoint getattr (depth : nat) (self : object) (attr : string)
    : result value * nat :=
  match Worker_properties !! attr with
  | Some p =>
    match fget p with
    | Some (ReturnSelf attr') =>
      match depth with
      | O => (Raise RuntimeError, O)
      | S depth' =>
        let (r, calls) := getattr depth' self attr' in (r, S calls)
      end
    | None => (Raise AttributeError, O)  (* unreadable attribute *)
    end
  | None =>
    match dict self !! attr with
    | Some v => (Ok v, O)
    | None => (Raise AttributeError, O)
    end
  end.

Definition init (self : object)
    (publicIP privateIP name launchTime nodeType preemptible : value)
    : result object :=
  try! self <- setattr self "publicIP" publicIP;
  try! self <- setattr self "privateIP" privateIP;
  try! self <- setattr self "name" name;
  try! self <- setattr self "launchTime" launchTime;
  try! self <- setattr self "nodeType" nodeType;
  setattr self "preemptible" preemptible.

(** [Worker(publicIP, ..., preemptible)]. *)
Definition Worker
    (publicIP privateIP name launchTime nodeType preemptible : value)
    : result object :=
  init {| dict := ∅ |} publicIP privateIP name launchTime nodeType preemptible.

Definition property_names : list string :=
  ["publicIP"; "privateIP"; "name"; "launchTime"; "nodeType"; "preemptible"].

End Values.

End WorkerClass.

From Stdlib Require Import Sorted.

(** ** More of [provisioning/aws/ec2_instance.py]: [wait_transition],
       [__awsBillingInterval] *)

Module Instances.
Import PyNum Utils Billing.
Local Open Scope Q_scope.

(** [round(x, 3)]. *)
Definition round3 (x : Q) : Q := inject_Z (round_half_away (x * 1000)) / 1000.

(** [__awsBillingInterval(instances)].  An instance is given by its launch
    time and by what [utcnow()] reads when the loop visits it. *)
Definition awsBillingInterval (instances : list (Q * Q)) : result Q :=
  let launch_timings :=
    map (fun inst => mod1 (total_seconds (fst inst) (snd inst) / 3600)) instances in
  try! avg_launch <- mean launch_timings;
  Ok (1 - round3 avg_launch).

(** How [wait_transition] ends: it returns, or raises
    [UnexpectedResourceState(resource, to_state, state)]. *)
Inductive transition : Type :=
| Reached
| UnexpectedResourceState (to_state state : string).

Definition state_in (state : string) (from_states : list string) : bool :=
  existsb (String.eqb state) from_states.

(** The loop of [wait_transition]; [state_getter k] is what the [k]-th call of
    the getter reads, [reads] the number of calls made so far. *)
Fixpoint wait_while (fuel : nat) (state_getter : nat -> string)
    (from_states : list string) (to_state : string) (reads : nat)
    (state : string) : option transition :=
  match fuel with
  | O => None
  | S fuel' =>
    if state_in state from_states
    then wait_while fuel' state_getter from_states to_state (S reads)
           (state_getter reads)
    else if String.eqb state to_state then Some Reached
    else Some (UnexpectedResourceState to_state state)
  end.

Definition wait_transition (fuel : nat) (state_getter : nat -> string)
    (from_states : list string) (to_state : string) : option transition :=
  wait_while fuel state_getter from_states to_state 1 (state_getter 0%nat).

End Instances.

(** ** More of [utils.py]: names and lists *)

Module Names.
Import Stdlib.Strings.Ascii Stdlib.Strings.String.

(** [c in 'A'..'Z'], on the code of the character. *)
Definition is_upper (c : ascii) : bool :=
  (65 <=? nat_of_ascii c)%nat && (nat_of_ascii c <=? 90)%nat.

Definition lower_char (c : ascii) : ascii :=
  if is_upper c then ascii_of_nat (nat_of_ascii c + 32) else c.

(** [s.lower()]. *)
Fixpoint lower (s : string) : string :=
  match s with
  | EmptyString => EmptyString
  | String c s' => String (lower_char c) (lower s')
  end.

(** [s.replace(old, new)] for a one-character [old]. *)
Fixpoint replace (old : ascii) (new : string) (s : string) : string :=
  match s with
  | EmptyString => EmptyString
  | String c s' =>
    if Ascii.eqb c old then new +:+ replace old new s'
    else String c (replace old new s')
  end.

(** [c in s]. *)
Fixpoint contains (c : ascii) (s : string) : bool :=
  match s with
  | EmptyString => false
  | String d s' => Ascii.eqb d c || contains c s'
  end.

Definition to_aws_name (name : string) : string :=
  replace "/" "_" (replace "_" "__" (lower name)).

(** [name[0:1] == '/']. *)
Definition is_absolute_name (name : string) : bool :=
  String.eqb (substring 0 1 name) "/".

(** [s.split(sep)] for a one-character [sep]: never an empty list. *)
Fixpoint split (sep : ascii) (s : string) : list string :=
  match s with
  | EmptyString => [EmptyString]
  | String c s' =>
    if Ascii.eqb c sep then EmptyString :: split sep s'
    else match split sep s' with
         | [] => [String c EmptyString]
         | w :: ws => String c w :: ws
         end
  end.

(** [name.split('/')[-1]]. *)
Definition base_name (name : string) : string :=
  List.last (split "/" name) EmptyString.

(** [s.index(c)]: [None] stands for [ValueError]. *)
Fixpoint index (c : ascii) (s : string) : option nat :=
  match s with
  | EmptyString => None
  | String d s' =>
    if Ascii.eqb d c then Some 0%nat
    else match index c s' with
         | Some n => Some (S n)
         | None => None
         end
  end.

Definition drop_hostname (email : string) : string :=
  match index "@" email with
  | None => email
  | Some n => substring 0 n email
  end.

Section UniqueList.
Context {A : Type} `{EqDecision A}.

(** [OrderedDict.fromkeys]: a key met again keeps its first position. *)
Definition fromkeys_step (keys : list A) (k : A) : list A :=
  if decide (k ∈ keys) then keys else keys ++ [k].

(** [list(OrderedDict.fromkeys(seq_list))]. *)
Definition uniqueList (seq_list : list A) : list A :=
  foldl fromkeys_step [] seq_list.

End UniqueList.

End Names.

(** ** [ResourceManager.check_resource_request] *)

Module Resources.
Import PyNum.
Local Open Scope Q_scope.

(** How the check ends: it returns, an [assert] fails, or it raises
    [InsufficientSystemResources(resource, requested, available)]. *)
Inductive checked : Type :=
| Granted
| AssertionFailed
| InsufficientSystemResources (resource : string) (requested available : Q).

(** The limits a [ResourceManager] is built with. *)
Record limits : Type := {
  maxCores : Q;
  maxMemory : Q;
  maxDisk : Q
}.

(** An argument is [None] or a number. *)
Definition check_resource_request (self : limits) (memory cores disk : option Q)
    : checked :=
  match memory, disk, cores with
  | Some memory, Some disk, Some cores =>
    if Qltb (maxCores self) cores
    then InsufficientSystemResources "cores" cores (maxCores self)
    else if Qltb (maxMemory self) memory
    then InsufficientSystemResources "memory" memory (maxMemory self)
    else if Qltb (maxDisk self) disk
    then InsufficientSystemResources "disk" disk (maxDisk self)
    else Granted
  | _, _, _ => AssertionFailed
  end.

End Resources.

(** ** [ProvisionManager.shut_down], [ProvisionManager.__shutDownStats] *)

Module Shutdown.
Import Stdlib.Strings.Ascii Stdlib.Strings.String.
Import PyNum Provision.

Fixpoint zeros (n : nat) : string :=
  match n with
  | O => EmptyString
  | S n' => String "0" (zeros n')
  end.

(** [s.zfill(width)] for the decimal writing of a counter. *)
Definition zfill (width : nat) (s : string) : string :=
  zeros (width - String.length s) +:+ s.

Fixpoint ends_with (c : ascii) (s : string) : bool :=
  match s with
  | EmptyString => false
  | String d EmptyString => Ascii.eqb d c
  | String _ s' => ends_with c s'
  end.

(** [os.path.join(a, b)] of posixpath. *)
Definition path_join (a b : string) : string :=
  if String.prefix "/" b then b
  else if String.eqb a EmptyString || ends_with "/" a then a +:+ b
  else a +:+ "/" +:+ b.

(** The name tried for a counter. *)
Definition stats_name (statsPath jobStore : string) (counter : nat) : string :=
  let extension := ".json" in
  let file := jobStore +:+ "-stats" in
  let suffix := zfill 3 (pretty counter) +:+ extension in
  path_join statsPath (file +:+ suffix).

(** The nested [getFileName], from [counter] on; [path_exists] is
    [os.path.exists]. *)
Fixpoint getFileName_from (fuel : nat) (path_exists : string -> bool)
    (statsPath jobStore : string) (counter : nat) : option string :=
  match fuel with
  | O => None
  | S fuel' =>
    let fullName := stats_name statsPath jobStore counter in
    if path_exists fullName
    then getFileName_from fuel' path_exists statsPath jobStore (S counter)
    else Some fullName
  end.

Definition getFileName (fuel : nat) (path_exists : string -> bool)
    (statsPath jobStore : string) : option string :=
  getFileName_from fuel path_exists statsPath jobStore 0.

(** What [__shutDownStats] reads of [self.config].  The object is whatever
    the caller gave: an attribute that it lacks is [None] here, and reading
    it raises [AttributeError]. *)
Record settings : Type := {
  clusterStats : option bool;
  jobStore : option string
}.

(** The attributes of the manager that the shutdown reads and writes:
    [self.config], which is [None] unless the caller gives one;
    [self.statsPath], which no method of the class assigns, so that it is
    there only when someone else has set it; [self.stop]; and the statistics
    files written. *)
Record stats_state : Type := {
  config : option settings;
  statsPath : option string;
  stop : bool;
  dumped : list string
}.

Definition stopped (s : stats_state) : stats_state :=
  {| config := config s; statsPath := statsPath s; stop := true;
     dumped := dumped s |}.

(** [__shutDownStats]; joining the threads is not represented.  [dump] is
    [open(fileName, 'w')] followed by [json.dump(self.stats, f)]: it raises
    when the file cannot be opened or the statistics cannot be written.
    [self.stop] is set before the name of the file is computed. *)
Definition shutDownStats (fuel : nat) (path_exists : string -> bool)
    (dump : string -> result unit) (s : stats_state)
    : option (result unit * stats_state) :=
  match config s with
  | None => Some (Raise AttributeError, s)       (* None.clusterStats *)
  | Some c =>
    match clusterStats c with
    | None => Some (Raise AttributeError, s)
    | Some false => Some (Ok tt, s)
    | Some true =>
      match jobStore c with
      | None => Some (Raise AttributeError, stopped s)
      | Some store =>
        match statsPath s with
        | None => Some (Raise AttributeError, stopped s)
        | Some path =>
          match getFileName fuel path_exists path store with
          | None => None
          | Some fileName =>
            match dump fileName with
            | Ok _ =>
              Some (Ok tt,
                    {| config := config s; statsPath := statsPath s;
                       stop := true; dumped := dumped s ++ [fileName] |})
            | Raise e => Some (Raise e, stopped s)
            end
          end
        end
      end
    end
  end.

(** How [shut_down] ends. *)
Inductive shut_outcome : Type :=
| ShutDown
| Raised (e : exn)
| RuntimeError_not_zero.     (* Provisioner was not able to reduce ... *)

Section Manager.
Context {Instance Cluster : Type}.
Variable private_ip_address : Instance -> string.
Variable _remainingBillingInterval : Instance -> Q.
Variable _getWorkersInCluster : Cluster -> bool -> list Instance.
Variable _addNodes : Cluster -> list Instance -> Z -> bool -> Z * Cluster.
Variable _logAndTerminate : Cluster -> list Instance -> Cluster.
Variable resManager : option (bool -> gmap string NodeInfo).

Definition shut_down (fuel : nat) (path_exists : string -> bool)
    (dump : string -> result unit) (s : stats_state)
    (m : manager (Instance := Instance)) (preemptible : bool)
    : option (shut_outcome * stats_state * manager) :=
  match (if stop s then Some (Ok tt, s)
         else shutDownStats fuel path_exists dump s) with
  | None => None
  | Some (Raise e, s') => Some (Raised e, s', m)
  | Some (Ok _, s') =>
    let r := set_node_count private_ip_address _remainingBillingInterval
               _getWorkersInCluster _addNodes _logAndTerminate resManager
               m 0 preemptible true in
    let totalNodes := fst r in
    Some (if (totalNodes =? 0)%Z then ShutDown else RuntimeError_not_zero,
          s', snd r)
  end.

End Manager.

End Shutdown.

(** ** What [Engine.create] keeps true of its frame *)

Module FleetInvariant.
Import Fleet.

(** A computation keeps [P]: every frame it ends in satisfies [P] when the
    frame it starts from does. *)
Definition keeps (P : frame -> Prop) {A} (m : M A) : Prop :=
  forall f r f', P f -> m f = Some (r, f') -> P f'.

(** Nothing has been terminated, and the pending instances are those a
    tagging call was issued for. *)
Definition binding (f : frame) : Prop :=
  terminated f = []
  /\ forall i, i ∈ pending_ids f <-> In (CreateTags i) (calls f).

(** The ids bound by a call, in the order of the calls. *)
Definition tagged (f : frame) : list string :=
  omap (fun c => match c with CreateTags i => Some i | _ => None end) (calls f).

(** A provider that launches two instances and answers every call. *)
Definition launching : Service :=
  service (fun _ => Ok ["i-1"; "i-2"]) (fun _ _ => Raise ClientError)
          (fun _ _ => Ok []) (fun _ => Ok tt).

End FleetInvariant.

(** ** The order of the victims of a reduction *)

Module Ranking.
Import PyNum PySeq Provision.

(** [a] may come before [b] in a sorted list: the key of [b] is not the
    smaller one. *)
Definition before {A K : Type} (ltb : K -> K -> bool) (key : A -> K)
    (a b : A) : Prop :=
  ltb (key b) (key a) = false.

Section Manager.
Context {Instance : Type}.
Variable private_ip_address : Instance -> string.
Variable _remainingBillingInterval : Instance -> Q.

(** The key under which [__removeNodes] sorts an instance. *)
Definition rank (nodes : gmap string NodeInfo) (i : Instance) : Z * Q :=
  sort_key _remainingBillingInterval (i, nodes !! private_ip_address i).

(** An instance passes the two filters of [__removeNodes]. *)
Definition eligible (force : bool) (nodes : gmap string NodeInfo)
    (i : Instance) : Prop :=
  keep_idle force (i, nodes !! private_ip_address i) = true
  /\ (force = false -> Qleb (_remainingBillingInterval i) (15 # 100) = true).

End Manager.

End Ranking.

(** ** [utils.Map] *)

Module PyMap.

(** What the class and its bases define under a name: a data descriptor
    ([__dict__], [__class__]), which an attribute read finds before the
    instance [__dict__]; another attribute (the methods of [dict] and of
    [Map]), which it finds after it; or nothing. *)
Inductive defined : Type :=
| DataDescriptor
| ClassAttribute
| Undefined.

(** How a method of the class ends: it returns, it raises, or a value [w]
    stored in the [Map] is called where a method of the class was meant, and
    what happens is then up to [w]. *)
Inductive outcome (V A : Type) : Type :=
| Returns (a : A)
| Raises (e : exn)
| Calls (w : V).
Arguments Returns {V A} a.
Arguments Raises {V A} e.
Arguments Calls {V A} w.

(** The methods that the class calls by name on [self]. *)
Definition method_names : list string := ["__setitem__"; "__delitem__"; "get"].

Section Map.
(** The values stored and which of them can be called, [type(self)()], a
    new empty [Map], as a value, and the names of the class. *)
Variable value : Type.
Variable callable : value -> bool.
Variable new_map : value.
Variable class_of : string -> defined.

(** A [Map]: what it holds as a [dict] and its instance [__dict__]. *)
Record Map : Type := {
  items : gmap string value;
  attrs : gmap string value
}.

Definition empty : Map := {| items := ∅; attrs := ∅ |}.

Definition of_result {A} (r : result A) : outcome value A :=
  match r with
  | Ok a => Returns a
  | Raise e => Raises e
  end.

(** [self.name(...)] for a method [name] of the class: the method is a
    function of the class, so the instance [__dict__] is searched first,
    and a value stored under the name of the method is called in its place;
    calling a value that is not callable raises [TypeError]. *)
Definition method {A} (self : Map) (name : string) (body : outcome value A)
    : outcome value A :=
  match attrs self !! name with
  | None => body
  | Some w => if callable w then Calls w else Raises TypeError
  end.

(** [__setitem__], reached by [self[key] = v]: the statement goes to the
    method of the class whatever the instance holds. *)
Definition setitem (self : Map) (key : string) (v : value) : Map :=
  {| items := <[key := v]> (items self); attrs := <[key := v]> (attrs self) |}.

(** [__setattr__]: [self.__setitem__(key, value)]. *)
Definition setattr (self : Map) (key : string) (v : value)
    : outcome value Map :=
  method self "__setitem__" (Returns (setitem self key v)).

(** [__delitem__], reached by [del self[key]]: [KeyError] from the [dict]
    or from [__dict__] when the key is missing. *)
Definition delitem (self : Map) (key : string) : result Map :=
  match items self !! key with
  | None => Raise KeyError
  | Some _ =>
    match attrs self !! key with
    | None => Raise KeyError
    | Some _ => Ok {| items := delete key (items self);
                      attrs := delete key (attrs self) |}
    end
  end.

(** [__delattr__]: [self.__delitem__(item)]. *)
Definition delattr (self : Map) (item : string) : outcome value Map :=
  method self "__delitem__" (of_result (delitem self item)).

(** What an attribute read gives: a value held by the [Map], [None], or
    what the class defines. *)
Inductive read : Type :=
| Stored (v : value)
| PyNone
| OfClass.

(** [self.attr]: a data descriptor of the class, then the instance
    [__dict__], then another attribute of the class, then [__getattr__],
    that is [self.get(attr)]. *)
Definition getattr (self : Map) (attr : string) : outcome value read :=
  match class_of attr with
  | DataDescriptor => Returns OfClass
  | ClassAttribute =>
    match attrs self !! attr with
    | Some v => Returns (Stored v)
    | None => Returns OfClass
    end
  | Undefined =>
    match attrs self !! attr with
    | Some v => Returns (Stored v)
    | None =>
      method self "get"
        (Returns match items self !! attr with
                 | Some v => Stored v
                 | None => PyNone
                 end)
    end
  end.

(** [self[key]]: a missing key goes to [__missing__], which stores a new
    [Map] under it. *)
Definition getitem (self : Map) (key : string) : value * Map :=
  match items self !! key with
  | Some v => (v, self)
  | None => (new_map, setitem self key new_map)
  end.

(** [Map] built from keyword arguments, given in a list: the [dict] is
    filled first, then every pair is assigned through [__setitem__]. *)
Definition init (kwargs : list (string * value)) : Map :=
  foldl (fun m kv => setitem m (fst kv) (snd kv))
        {| items := list_to_map kwargs; attrs := ∅ |} kwargs.

(** The operations of the class, to run them in sequence: [self.key = v],
    [self[key] = v], [del self.key], [del self[key]], [self[key]]. *)
Inductive operation : Type :=
| SetAttr (key : string) (v : value)
| SetItem (key : string) (v : value)
| DelAttr (key : string)
| DelItem (key : string)
| GetItem (key : string).

Definition apply (self : Map) (op : operation) : outcome value Map :=
  match op with
  | SetAttr key v => setattr self key v
  | SetItem key v => Returns (setitem self key v)
  | DelAttr key => delattr self key
  | DelItem key => of_result (delitem self key)
  | GetItem key => Returns (snd (getitem self key))
  end.

Fixpoint run (ops : list operation) (self : Map) : outcome value Map :=
  match ops with
  | [] => Returns self
  | op :: ops' =>
    match apply self op with
    | Returns self' => run ops' self'
    | Raises e => Raises e
    | Calls w => Calls w
    end
  end.

(** The key that an operation may store a value under. *)
Definition stores (op : operation) : list string :=
  match op with
  | SetAttr key _ | SetItem key _ | GetItem key => [key]
  | DelAttr _ | DelItem _ => []
  end.

(** The keys that a construction and a sequence of operations may store a
    value under. *)
Definition assigned (kwargs : list (string * value)) (ops : list operation)
    : list string :=
  map fst kwargs ++ concat (map stores ops).

End Map.

Arguments Stored {value} v.
Arguments PyNone {value}.
Arguments OfClass {value}.

End PyMap.

(** ** [Engine.prepare], and the plan handed to [Engine.create] *)

Module Prepare.
Import PyNum Spot Fleet.

(** What [prepare] asks of the session and of the provider. *)
Inductive request : Type :=
| GetKeyPair (keyName : option string)
| BaseImage                               (* self._base_image() *)
| CreatePlacementGroup (GroupName : string)
| CreateSecurityGroup
| AuthorizeIngress (sg : string)
| FilterSubnets (zone : string)
| DescribeSpotPriceHistory
| DescribeAvailabilityZones.

(** The answers.  [create_security_group] answers a group, or nothing that
    counts as true. *)
Record Session : Type := {
  availability_zone : string;
  get_key_pair : option string -> result (string * string);
  base_image : result string;
  random_id : string;                     (* randomizeID(stamp) *)
  create_placement_group : string -> result unit;
  create_security_group : result (option string);
  authorize_ingress : string -> result unit;
  filter_subnets : string -> result (list string);
  ec2client : Ec2Client
}.

(** How [prepare] may fail. *)
Inductive failure : Type :=
| AssertionError                          (* Instance already bound or created *)
| IndexError                              (* subnet_id[0] *)
| Raised (e : exn).

(** The [Map] that [prepare] returns. *)
Record Arguments : Type := {
  ImageId : string;
  MinCount : Z;
  MaxCount : Z;
  InstanceType : string;
  KeyName : string;
  SecurityGroupIds : option (list string);
  SubnetId : string;
  Placement_AvailabilityZone : string;
  Placement_GroupName : string;
  BidPrice : option Q
}.

Definition defaultType : string := "c3.large".

(** What [prepare] leaves in the engine. *)
Record prepared : Type := {
  key_in_use : string;
  image_id : string
}.

(** A step of [prepare]: the requests made so far go along. *)
Definition P (A : Type) : Type := list request -> (A + failure) * list request.

Definition pret {A} (a : A) : P A := fun log => (inl a, log).
Definition pfail {A} (x : failure) : P A := fun log => (inr x, log).

Definition pbind {A B} (m : P A) (k : A -> P B) : P B :=
  fun log =>
    match m log with
    | (inl a, log') => k a log'
    | (inr x, log') => (inr x, log')
    end.

Notation "'ask!' x <- m ; k" := (pbind m (fun x => k))
  (at level 10, x pattern, m at level 100, k at level 200).

(** A request and its answer. *)
Definition ask {A} (q : request) (answer : result A) : P A :=
  fun log =>
    match answer with
    | Ok a => (inl a, log ++ [q])
    | Raise e => (inr (Raised e), log ++ [q])
    end.

(** [__setup_security_groups]. *)
Definition setup_security_groups (env : Session) : P (option (list string)) :=
  ask! sg <- ask CreateSecurityGroup (create_security_group env);
  match sg with
  | Some id =>
    ask! _ <- ask (AuthorizeIngress id) (authorize_ingress env id);
    pret (Some [id])
  | None => pret None
  end.

(** [__fix_spot]; the history is fetched once for the seed, when no bid is
    given, and once by the optimizer, which also asks for the zones. *)
Definition ask_fix_spot (env : Session) (bid : option Q) : P (BestAvZone Q) :=
  fun log =>
    let log := if falsy bid then log ++ [DescribeSpotPriceHistory] else log in
    match (if falsy bid then seed_bid (ec2client env)
           else match bid with Some b => Ok b | None => seed_bid (ec2client env) end)
    with
    | Raise e => (inr (Raised e), log)
    | Ok _ =>
      let log := log ++ [DescribeSpotPriceHistory; DescribeAvailabilityZones] in
      match fix_spot (ec2client env) bid with
      | Ok z => (inl z, log)
      | Raise e => (inr (Raised e), log)
      end
    end.

Definition prepare (env : Session) (self : engine)
    (keyName instance_type image_id : option string) (num_instances : Z)
    (spot_bid : option Q) (spot_auto_tune : bool) : P (Arguments * prepared) :=
  match instance_id self with
  | Some _ => pfail AssertionError
  | None =>
    let instance_type :=
      match instance_type with None => defaultType | Some t => t end in
    ask! key <-
      match keyName with
      | None | Some EmptyString => ask (GetKeyPair None) (get_key_pair env None)
      | Some k => ask (GetKeyPair (Some k)) (get_key_pair env (Some k))
      end;
    ask! image <-
      match image_id with
      | None => ask BaseImage (base_image env)
      | Some i => pret i
      end;
    let zone := availability_zone env in
    let pl_group_name := "plgroup_" +:+ zone +:+ "_" +:+ random_id env in
    ask! _ <- ask (CreatePlacementGroup pl_group_name)
                  (create_placement_group env pl_group_name);
    ask! sec_groups_ids <- setup_security_groups env;
    ask! subnet_id <- ask (FilterSubnets zone) (filter_subnets env zone);
    ask! tuned <-
      (if spot_auto_tune
       then ask! spot_details <- ask_fix_spot env spot_bid;
            pret (name spot_details, Some (price_deviation spot_details))
       else pret (zone, spot_bid));
    match subnet_id with
    | [] => pfail IndexError
    | subnet :: _ =>
      pret ({| ImageId := image;
               MinCount := 1;
               MaxCount := num_instances;
               InstanceType := instance_type;
               KeyName := fst key;
               SecurityGroupIds := sec_groups_ids;
               SubnetId := subnet;
               Placement_AvailabilityZone := fst tuned;
               Placement_GroupName := pl_group_name;
               BidPrice := snd tuned |},
            {| key_in_use := snd key; image_id := image |})
    end
  end.

(** What [create] reads of the arguments. *)
Definition launch_plan (arguments : Arguments) : LaunchPlan :=
  {| Fleet.ImageId := ImageId arguments;
     Fleet.InstanceType := InstanceType arguments;
     Fleet.KeyName := KeyName arguments;
     Fleet.SubnetId := SubnetId arguments;
     Fleet.MaxCount := MaxCount arguments;
     Fleet.BidPrice := BidPrice arguments;
     Fleet.Placement := Some (Placement_AvailabilityZone arguments,
                              Placement_GroupName arguments) |}.

(** The first call of a frame is [c]. *)
Definition begins (c : call) (f : frame) : Prop :=
  exists rest, calls f = c :: rest.

(** The calls of a frame are [base] followed by calls that all satisfy
    [Q]. *)
Definition added (Q : call -> Prop) (base : list call) (f : frame) : Prop :=
  exists cs, calls f = base ++ cs /\ Forall Q cs.

(** A call that may follow a launch request: neither another launch nor the
    resolution of a key pair. *)
Definition follows (c : call) : Prop :=
  match c with
  | CreateInstances _ | RequestSpotInstances _ _ | Fleet.GetKeyPair _ => False
  | _ => True
  end.

(** A session for the scenario of the specification. *)
Definition scenario_session : Session :=
  {| availability_zone := "zoneB";
     get_key_pair := fun _ => Ok ("wed-key1", "key_in_use/wed-key1.pem");
     base_image := Ok "ami-6d48500b";
     random_id := "0a1b2c3d";
     create_placement_group := fun _ => Ok tt;
     create_security_group := Ok (Some "sg-1");
     authorize_ingress := fun _ => Ok tt;
     filter_subnets := fun _ => Ok ["subnet-b"];
     ec2client := scenario_env |}.

End Prepare.

(** ** The plan as the [Map] that [prepare] returns and [create] reads *)

Module Plan.
Import PyNum Fleet Prepare PyMap.

(** The values that [prepare] stores in the plan. *)
Inductive pyval : Type :=
| PNone
| PInt (n : Z)
| PFloat (x : Q)
| PStr (s : string)
| PList (l : list string)
| PPlacement (AvailabilityZone GroupName : string).

Definition of_bid (bid : option Q) : pyval :=
  match bid with
  | None => PNone
  | Some x => PFloat x
  end.

Definition of_groups (ids : option (list string)) : pyval :=
  match ids with
  | None => PNone
  | Some l => PList l
  end.

(** [arguments = Map( ImageId=..., ..., BidPrice=spot_bid )]. *)
Definition arguments_map (a : Arguments) : Map pyval :=
  init pyval
    [ ("ImageId", PStr (Prepare.ImageId a));
      ("MinCount", PInt (MinCount a));
      ("MaxCount", PInt (Prepare.MaxCount a));
      ("InstanceType", PStr (Prepare.InstanceType a));
      ("KeyName", PStr (Prepare.KeyName a));
      ("SecurityGroupIds", of_groups (SecurityGroupIds a));
      ("SubnetId", PStr (Prepare.SubnetId a));
      ("Placement", PPlacement (Placement_AvailabilityZone a)
                               (Placement_GroupName a));
      ("BidPrice", of_bid (Prepare.BidPrice a)) ].

(** The attributes of the plan that the model of [create] reads. *)
Definition plan_attributes : list string :=
  ["ImageId"; "InstanceType"; "KeyName"; "SubnetId"; "MaxCount"; "BidPrice"].

Section Reading.
Variable class_of : string -> defined.

(** None of the values of a plan can be called. *)
Definition callable (v : pyval) : bool := false.

Definition attr_str (m : Map pyval) (attr : string) : string :=
  match getattr pyval callable class_of m attr with
  | Returns (Stored (PStr s)) => s
  | _ => EmptyString
  end.

Definition attr_int (m : Map pyval) (attr : string) : Z :=
  match getattr pyval callable class_of m attr with
  | Returns (Stored (PInt n)) => n
  | _ => 0
  end.

Definition attr_bid (m : Map pyval) : option Q :=
  match getattr pyval callable class_of m "BidPrice" with
  | Returns (Stored (PFloat x)) => Some x
  | _ => None
  end.

Definition attr_placement (m : Map pyval) : option (string * string) :=
  match getattr pyval callable class_of m "Placement" with
  | Returns (Stored (PPlacement zone group)) => Some (zone, group)
  | _ => None
  end.

Definition read_plan (m : Map pyval) : LaunchPlan :=
  {| Fleet.ImageId := attr_str m "ImageId";
     Fleet.InstanceType := attr_str m "InstanceType";
     Fleet.KeyName := attr_str m "KeyName";
     Fleet.SubnetId := attr_str m "SubnetId";
     Fleet.MaxCount := attr_int m "MaxCount";
     Fleet.BidPrice := attr_bid m;
     Fleet.Placement := attr_placement m |}.

(** [if arguments.BidPrice: price = arguments.BidPrice; del arguments.BidPrice]:
    what [create] leaves of the [Map] of its caller. *)
Definition take_bid (m : Map pyval) : outcome pyval (Map pyval) :=
  if truthy (attr_bid m) then delattr pyval callable m "BidPrice"
  else Returns m.

End Reading.

(** Some of the names that [dict] and [Map] define. *)
Definition some_names (attr : string) : defined :=
  if bool_decide (attr ∈ ["__dict__"; "__class__"]) then DataDescriptor
  else if bool_decide (attr ∈ ["get"; "keys"; "values"; "items"; "copy";
                               "update"; "pop"; "clear"])
  then ClassAttribute
  else Undefined.

(** The plan of the scenario, at a bid of 12 cents. *)
Definition scenario_arguments : Arguments :=
  {| Prepare.ImageId := "ami-6d48500b";
     MinCount := 1;
     Prepare.MaxCount := 2;
     Prepare.InstanceType := "c3.large";
     Prepare.KeyName := "wed-key1";
     SecurityGroupIds := Some ["sg-1"];
     Prepare.SubnetId := "subnet-b";
     Placement_AvailabilityZone := "zoneB";
     Placement_GroupName := "plgroup_zoneB_0a1b2c3d";
     Prepare.BidPrice := Some (12 # 100) |}.

End Plan.

(** ** [aws_engines.findLatestUbuntuImage] *)

Module Images.

(** One line of the list of released images, as [csv.DictReader] gives it:
    a column that the line does not have is [None]. *)
Record image : Type := {
  release : option string;
  purpose : option string;
  release_type : option string;
  storage_type : option string;
  arch : option string;
  region : option string;
  ami_id : option string;
  hypervisor : option string
}.

(** [template.matches( image )]. *)
Definition matches (release_wanted this_region virtualization_type : string)
    (other : image) : bool :=
  bool_decide (release other = Some release_wanted)
  && bool_decide (purpose other = Some "server")
  && bool_decide (release_type other = Some "release")
  && bool_decide (storage_type other = Some "ebs-ssd")
  && bool_decide (arch other = Some "amd64")
  && bool_decide (region other = Some this_region)
  && bool_decide (hypervisor other = Some virtualization_type).

Inductive found : Type :=
| Found (ami : option string)
| RuntimeError_no_image            (* Can't find Ubuntu AMI ... *)
| RuntimeError_many (l : list image). (* More than one matching image *)

Definition findLatestUbuntuImage (release_wanted this_region virtualization_type : string)
    (images : list image) : found :=
  let matching :=
    List.filter (matches release_wanted this_region virtualization_type) images in
  if (Z.of_nat (length matching) <? 1)%Z then RuntimeError_no_image
  else if (1 <? Z.of_nat (length matching))%Z then RuntimeError_many matching
  else match matching with
       | image_info :: _ => Found (ami_id image_info)
       | [] => RuntimeError_no_image
       end.

End Images.

(** * Facts *)

Module PyNumFacts.
Import PyNum.
Local Open Scope Q_scope.

Lemma Qltb_lt x y : Qltb x y = true <-> x < y.
Proof.
  unfold Qltb. rewrite Qlt_alt. destruct (x ?= y); split; congruence.
Qed.

Lemma Qleb_le x y : Qleb x y = true <-> x <= y.
Proof.
  unfold Qleb. rewrite Qle_alt. destruct (x ?= y); split; congruence.
Qed.

Lemma mod1_range x : 0 <= mod1 x /\ mod1 x < 1.
Proof.
  unfold mod1. pose proof (Qfloor_le x) as Hlo. pose proof (Qlt_floor x) as Hhi.
  rewrite inject_Z_plus in Hhi. change (inject_Z 1) with 1 in Hhi. split; lra.
Qed.

(** [round(., 4)] is monotone and leaves a rounded value as it is. *)

Lemma Qfloor_unique (x : Q) (n : Z) :
  inject_Z n <= x -> x < inject_Z (n + 1) -> Qfloor x = n.
Proof.
  intros Hlo Hhi.
  pose proof (Qfloor_le x) as Hle. pose proof (Qlt_floor x) as Hlt.
  assert (H1 : (Qfloor x < n + 1)%Z) by (rewrite Zlt_Qlt; lra).
  assert (H2 : (n < Qfloor x + 1)%Z) by (rewrite Zlt_Qlt; lra).
  lia.
Qed.

Lemma round_half_away_Z (k : Z) : round_half_away (inject_Z k) = k.
Proof.
  unfold round_half_away. destruct (Qleb 0 (inject_Z k)) eqn:Hs.
  - apply Qfloor_unique; rewrite ?inject_Z_plus; change (inject_Z 1) with 1; lra.
  - assert (H : Qfloor (- inject_Z k + (1 # 2)) = (- k)%Z).
    { apply Qfloor_unique; rewrite ?inject_Z_plus, ?inject_Z_opp;
        change (inject_Z 1) with 1; lra. }
    rewrite H. lia.
Qed.

Lemma round_half_away_comp (x y : Q) : x == y -> round_half_away x = round_half_away y.
Proof.
  intros H. unfold round_half_away, Qleb.
  assert (H0 : (0 ?= x) = (0 ?= y)) by (apply Qcompare_comp; [reflexivity | exact H]).
  assert (H1 : Qfloor (x + (1 # 2)) = Qfloor (y + (1 # 2)))
    by (apply Qfloor_comp; rewrite H; reflexivity).
  assert (H2 : Qfloor (- x + (1 # 2)) = Qfloor (- y + (1 # 2)))
    by (apply Qfloor_comp; rewrite H; reflexivity).
  rewrite H0, H1, H2. reflexivity.
Qed.

Lemma round_half_away_mono (x y : Q) :
  x <= y -> (round_half_away x <= round_half_away y)%Z.
Proof.
  intros Hxy. unfold round_half_away.
  destruct (Qleb 0 x) eqn:Hx; destruct (Qleb 0 y) eqn:Hy.
  - apply Qfloor_resp_le. lra.
  - apply Qleb_le in Hx.
    assert (~ 0 <= y) by (rewrite <- Qleb_le, Hy; discriminate). lra.
  - assert (Hx' : ~ 0 <= x) by (rewrite <- Qleb_le, Hx; discriminate).
    apply Qleb_le in Hy.
    assert (H1 : (0 <= Qfloor (- x + (1 # 2)))%Z).
    { change 0%Z with (Qfloor 0). apply Qfloor_resp_le. lra. }
    assert (H2 : (0 <= Qfloor (y + (1 # 2)))%Z).
    { change 0%Z with (Qfloor 0). apply Qfloor_resp_le. lra. }
    lia.
  - assert (H1 : (Qfloor (- y + (1 # 2)) <= Qfloor (- x + (1 # 2)))%Z).
    { apply Qfloor_resp_le. lra. }
    lia.
Qed.

Lemma round4_mono (x y : Q) : x <= y -> round4 x <= round4 y.
Proof.
  intros Hxy. unfold round4.
  assert (H : (round_half_away (x * 10000) <= round_half_away (y * 10000))%Z)
    by (apply round_half_away_mono; lra).
  rewrite Zle_Qle in H. apply Qle_shift_div_l; [reflexivity |].
  field_simplify. lra.
Qed.

Lemma round4_idem (x : Q) : round4 (round4 x) == round4 x.
Proof.
  unfold round4 at 1.
  rewrite (round_half_away_comp (round4 x * 10000)
             (inject_Z (round_half_away (x * 10000)))).
  - rewrite round_half_away_Z. reflexivity.
  - unfold round4. field.
Qed.
End PyNumFacts.



(** ** Facts about [Engine.remaining_billing_interval] *)

Module BillingFacts.
Import PyNum PyNumFacts Billing.
Local Open Scope Q_scope.

Lemma floor_of_fraction (x : Q) : 0 <= x -> x < 1 -> Qfloor x = 0%Z.
Proof.
  intros Hlo Hhi.
  pose proof (Qfloor_le x) as Hle. pose proof (Qlt_floor x) as Hlt.
  assert (H1 : (Qfloor x < 1)%Z).
  { rewrite Zlt_Qlt. change (inject_Z 1) with 1. lra. }
  assert (H2 : (-1 < Qfloor x)%Z).
  { rewrite Zlt_Qlt. rewrite inject_Z_plus in Hlt.
    change (inject_Z 1) with 1 in Hlt. change (inject_Z (-1)) with (-1). lra. }
  lia.
Qed.

(** C9, amended.  With [now] not before the launch, the value is one minus
    the fractional part of the elapsed hours; it lies in (0, 1], the bound 1
    being reached; within the first 540 seconds after the launch it lies in
    (0.85, 1]. *)
Theorem remaining_billing_interval_range (launch_time now : Q) :
  launch_time <= now ->
  let elapsed := now - launch_time in
  let r := remaining_billing_interval launch_time now in
  r == 1 - (elapsed / 3600 - inject_Z (Qfloor (elapsed / 3600)))
  /\ 0 < r /\ r <= 1
  /\ (elapsed < 540 -> (85 # 100) < r).
Proof.
  intros Hle elapsed r. subst r elapsed.
  unfold remaining_billing_interval, total_seconds.
  pose proof (mod1_range ((now - launch_time) / 3600)) as [Hlo Hhi].
  split; [reflexivity |]. split; [lra |]. split; [lra |].
  intros Hfresh. unfold mod1.
  assert (H0 : 0 <= (now - launch_time) / 3600).
  { apply Qle_shift_div_l; lra. }
  assert (H1 : (now - launch_time) / 3600 < 15 # 100).
  { apply Qlt_shift_div_r; lra. }
  rewrite (floor_of_fraction ((now - launch_time) / 3600)) by lra.
  change (inject_Z 0) with 0. lra.
Qed.

Lemma remaining_billing_interval_range_witness :
  0 <= 600 /\
  (remaining_billing_interval 0 600 ==
     1 - ((600 - 0) / 3600 - inject_Z (Qfloor ((600 - 0) / 3600)))
   /\ 0 < remaining_billing_interval 0 600
   /\ remaining_billing_interval 0 600 <= 1
   /\ (600 - 0 < 540 -> (85 # 100) < remaining_billing_interval 0 600)).
Proof.
  split.
  - unfold Qle; simpl; lia.
  - apply (remaining_billing_interval_range 0 600). unfold Qle; simpl; lia.
Defined.

(** C9 as stated fails: two hours after the launch a full interval is left,
    and 1 is not in [0, 1). *)
Lemma remaining_billing_interval_reaches_one :
  ~ (0 <= 7200 ->
     0 <= remaining_billing_interval 0 7200
     /\ remaining_billing_interval 0 7200 < 1).
Proof.
  intros H. destruct H as [_ H].
  - unfold Qle; simpl; lia.
  - vm_compute in H. discriminate H.
Qed.

End BillingFacts.

(** ** Facts about [sorted], [min] and [max] *)

Module PySeqFacts.
Import PySeq.

Section Keyed.
Context {A K : Type} (ltb : K -> K -> bool) (key : A -> K).

Lemma insert_sorted_In (x y : A) (l : list A) :
  In y (insert_sorted ltb key x l) <-> y = x \/ In y l.
Proof.
  induction l as [| z l IH]; simpl.
  - intuition.
  - destruct (ltb (key z) (key x)); simpl; rewrite ?IH; intuition.
Qed.

Lemma sorted_In (y : A) (l : list A) : In y (sorted ltb key l) <-> In y l.
Proof.
  induction l as [| x l IH]; simpl; [reflexivity |].
  rewrite insert_sorted_In, IH. intuition.
Qed.

Lemma insert_sorted_length (x : A) (l : list A) :
  length (insert_sorted ltb key x l) = S (length l).
Proof.
  induction l as [| z l IH]; simpl; [reflexivity |].
  destruct (ltb (key z) (key x)); simpl; [rewrite IH |]; reflexivity.
Qed.

Lemma sorted_length (l : list A) : length (sorted ltb key l) = length l.
Proof.
  induction l as [| x l IH]; simpl; [reflexivity |].
  rewrite insert_sorted_length, IH. reflexivity.
Qed.

Lemma min_from_In (best : A) (l : list A) :
  In (min_from ltb key best l) (best :: l).
Proof.
  revert best. induction l as [| x l IH]; intros best; simpl.
  - left; reflexivity.
  - destruct (IH (if ltb (key x) (key best) then x else best)) as [H | H].
    + destruct (ltb (key x) (key best)); rewrite <- H; auto.
    + right; right; exact H.
Qed.

Lemma py_min_In (l : list A) (x : A) : py_min ltb key l = Ok x -> In x l.
Proof.
  destruct l as [| y l]; simpl; [discriminate |].
  intros [= <-]. apply min_from_In.
Qed.

Lemma max_from_In (best : A) (l : list A) :
  In (max_from ltb key best l) (best :: l).
Proof.
  revert best. induction l as [| x l IH]; intros best; simpl.
  - left; reflexivity.
  - destruct (IH (if ltb (key best) (key x) then x else best)) as [H | H].
    + destruct (ltb (key best) (key x)); rewrite <- H; auto.
    + right; right; exact H.
Qed.

End Keyed.

End PySeqFacts.

(** ** Facts about the spot bidding *)

Module SpotFacts.
Import PyNum PyNumFacts PySeq PySeqFacts Utils Spot.
Local Open Scope Q_scope.

(** Python 2 divides the two [int] literals first. *)
Lemma quarter_is_zero : inject_Z (25 / 100) == 0.
Proof. reflexivity. Qed.

Lemma names_in_snoc zones l z :
  names_in zones l -> In (name z) zones -> names_in zones (l ++ [z]).
Proof.
  intros Hl Hz y Hy. apply in_app_or in Hy as [Hy | [<- | []]]; auto.
Qed.

Lemma zone_loop_names spot_hist bid all_zones zones :
  forall zone_hists under over under' over',
    (forall z, In z zones -> In z all_zones) ->
    names_in all_zones under -> names_in all_zones over ->
    zone_loop spot_hist bid zones zone_hists under over = Ok (under', over') ->
    names_in all_zones under' /\ names_in all_zones over'.
Proof.
  induction zones as [| zone zones IH]; intros zone_hists under over under' over'
    Hsub Hu Ho; simpl.
  - intros [= <- <-]. auto.
  - set (zh := zone_hists ++ _).
    destruct (match zh with
              | [] => Ok (Sqrt 0, bid)
              | zh0 :: _ => _
              end) as [pr | e]; simpl; [| discriminate].
    assert (Hz : In zone all_zones) by (apply Hsub; left; reflexivity).
    assert (Hsub' : forall z, In z zones -> In z all_zones)
      by (intros z Hin; apply Hsub; right; exact Hin).
    destruct (Qltb (snd pr) bid); apply IH; auto using names_in_snoc.
Qed.

(** The part of C3 that holds for every history and every bid: a zone the
    optimizer returns is one of the zones it was given. *)
Lemma optimize_spot_bid_zone_listed env bid zone bid' :
  optimize_spot_bid env bid = Ok (zone, bid') ->
  In zone (describe_availability_zones env).
Proof.
  unfold optimize_spot_bid.
  destruct (zone_loop _ _ _ _ _ _) as [[under over] | e] eqn:Hloop; simpl;
    [| discriminate].
  apply zone_loop_names with (all_zones := describe_availability_zones env)
    in Hloop as [Hu Ho]; try (intros z []); auto.
  destruct (py_min _ _ _) as [stable | e] eqn:Hmin; simpl; [| discriminate].
  apply py_min_In in Hmin.
  destruct (check_spot_prices _) as [[sm avg] |]; [| discriminate].
  intros [= <- _]. destruct under; auto.
Qed.

(** For every history the seed is the highest price, undiminished. *)
Lemma seed_bid_keeps_maximum env bid :
  seed_bid env = Ok bid ->
  exists mx, py_max Qltb id (rounded_prices (get_spot_history env)) = Ok mx
             /\ bid == mx.
Proof.
  unfold seed_bid. cbv zeta.
  destruct (py_max _ _ _) as [mx | e]; simpl; [| discriminate].
  intros [= <-]. exists mx. split; [reflexivity |].
  change (inject_Z (25 / 100)) with 0. lra.
Qed.

(** The code's correction never leaves the bid above twice the average. *)
Lemma correct_bid_bound bid sm avg :
  0 < avg -> sm <= avg -> correct_bid bid sm avg <= 2 * avg.
Proof.
  intros Havg Hsm. unfold correct_bid.
  change (inject_Z (25 / 100)) with 0.
  destruct (Qltb (avg * 2) bid) eqn:H1.
  - destruct (Qleb _ sm); lra.
  - assert (Hb : ~ avg * 2 < bid) by (rewrite <- Qltb_lt, H1; discriminate).
    destruct (Qleb bid sm); lra.
Qed.

(** What the code does with a bid above twice the average: it lands on the
    average itself. *)
Lemma correct_bid_above bid sm avg :
  avg * 2 < bid -> sm < avg -> correct_bid bid sm avg == avg.
Proof.
  intros H1 H2. unfold correct_bid.
  apply Qltb_lt in H1. rewrite H1.
  change (inject_Z (25 / 100)) with 0.
  destruct (Qleb _ sm) eqn:H3; [| lra].
  apply Qleb_le in H3. lra.
Qed.

Lemma min_from_le (best : Q) (l : list Q) :
  min_from Qltb id best l <= best
  /\ forall x, In x l -> min_from Qltb id best l <= x.
Proof.
  revert best. induction l as [| y l IH]; intros best; simpl.
  - split; [lra | tauto].
  - change (id y) with y. change (id best) with best.
    destruct (Qltb y best) eqn:Hlt.
    + apply Qltb_lt in Hlt. destruct (IH y) as [H1 H2].
      split; [lra |]. intros x [<- | Hx]; auto.
    + assert (Hge : ~ y < best) by (rewrite <- Qltb_lt, Hlt; discriminate).
      destruct (IH best) as [H1 H2].
      split; [exact H1 |]. intros x [<- | Hx]; [lra | auto].
Qed.

Lemma foldl_Qplus (a : Q) (l : list Q) : foldl Qplus a l == a + Qsum l.
Proof.
  unfold Qsum. revert a. induction l as [| x l IH]; intros a; cbn [foldl].
  - ring.
  - rewrite (IH (a + x)), (IH (0 + x)). ring.
Qed.

Lemma Qsum_lower (m : Q) (l : list Q) :
  (forall x, In x l -> m <= x) -> m * len_float l <= Qsum l.
Proof.
  unfold len_float. induction l as [| x l IH]; intros Hm.
  - unfold Qsum. cbn [foldl length]. change (inject_Z (Z.of_nat 0)) with 0. lra.
  - unfold Qsum. cbn [foldl length]. rewrite foldl_Qplus.
    rewrite Nat2Z.inj_succ, <- Z.add_1_r, inject_Z_plus.
    change (inject_Z 1) with 1.
    assert (m <= x) by (apply Hm; left; reflexivity).
    assert (m * inject_Z (Z.of_nat (length l)) <= Qsum l)
      by (apply IH; intros y Hy; apply Hm; right; exact Hy).
    lra.
Qed.

Lemma check_spot_prices_min_le_avg spot_hist sm avg :
  check_spot_prices spot_hist = Some (sm, avg) -> sm <= avg.
Proof.
  unfold check_spot_prices. cbv zeta.
  destruct (rounded_prices spot_hist) as [| p sh] eqn:Hsh; [discriminate |].
  cbn [py_min mean]. intros [= <- <-].
  pose proof (min_from_le p sh) as [H1 H2].
  set (m := min_from Qltb id p sh) in *.
  assert (Hin : In m (p :: sh)) by apply min_from_In.
  assert (Hr : round4 m == m).
  { rewrite <- Hsh in Hin. unfold rounded_prices in Hin.
    apply in_map_iff in Hin as [pr [<- _]]. apply round4_idem. }
  rewrite <- Hr. apply round4_mono.
  assert (Hlen : 0 < len_float (p :: sh)).
  { unfold len_float. cbn [length]. rewrite Nat2Z.inj_succ, <- Z.add_1_r, inject_Z_plus.
    change (inject_Z 1) with 1.
    assert (0 <= inject_Z (Z.of_nat (length sh)))
      by (change 0 with (inject_Z 0); rewrite <- Zle_Qle; lia).
    lra. }
  apply Qle_shift_div_l; [exact Hlen |].
  apply Qsum_lower. intros x [<- | Hx]; auto.
Qed.
(** On the code the corrected bid is at most twice the average, for every
    history with a positive average and every bid. *)
Lemma optimize_spot_bid_bound env bid zone bid' :
  optimize_spot_bid env bid = Ok (zone, bid') ->
  exists sm avg,
    check_spot_prices (get_spot_history env) = Some (sm, avg)
    /\ (0 < avg -> bid' <= 2 * avg).
Proof.
  unfold optimize_spot_bid. cbv zeta.
  destruct (zone_loop _ _ _ _ _ _) as [markets | e]; simpl; [| discriminate].
  destruct (py_min _ _ _) as [stable | e]; simpl; [| discriminate].
  destruct (check_spot_prices _) as [[sm avg] |] eqn:Hcheck; [| discriminate].
  intros [= _ <-]. exists sm, avg. split; [reflexivity |].
  intros Havg. apply correct_bid_bound; [exact Havg |].
  eapply check_spot_prices_min_le_avg. exact Hcheck.
Qed.

(** C3.  With zoneA at 0.10 and 0.12 and zoneB at 0.50 only, and a bid of 1,
    both zones are under-bid.  On its own samples zoneB has deviation 0, the
    smallest, and is the zone the claim selects.  The code never empties
    [zone_hists] between two zones: zoneB is judged on the samples of zoneA
    and its own (variance 127/3750 instead of 0) and zoneA is returned.  With
    a bid of 0.3 the code also files zoneB as under-bid, on the recent price
    of zoneA, although its own price 0.50 is above the bid. *)
Theorem optimize_spot_bid_mixes_zone_histories :
  let spot_hist := get_spot_history steady_env in
  (exists dA dB,
     zone_loop spot_hist 1 ["zoneA"; "zoneB"] [] [] [] =
       Ok ([ {| name := "zoneA"; price_deviation := dA |};
             {| name := "zoneB"; price_deviation := dB |} ], [])
     /\ radicand dA == 1 # 10000
     /\ radicand dB == 127 # 3750)
  /\ radicand (spec_price_deviation spot_hist "zoneB") == 0
  /\ (exists bid', optimize_spot_bid steady_env 1 = Ok ("zoneA", bid'))
  /\ spec_choose_zone steady_env 1 = Ok "zoneB"
  /\ (exists under,
        zone_loop spot_hist (3 # 10) ["zoneA"; "zoneB"] [] [] [] = Ok (under, [])
        /\ map name under = ["zoneA"; "zoneB"])
  /\ Qltb (spec_recent_price spot_hist (3 # 10) "zoneB") (3 # 10) = false.
Proof.
  cbv zeta. split; [| split; [| split; [| split; [| split]]]].
  - eexists _, _. split; [vm_compute; reflexivity |]. split; reflexivity.
  - reflexivity.
  - eexists. vm_compute. reflexivity.
  - vm_compute. reflexivity.
  - eexists. split; [vm_compute; reflexivity | reflexivity].
  - reflexivity.
Qed.

(** C4.  On the history of the scenario (zoneA at 0.10, 0.12, 0.11, zoneB at
    0.50) the seed is the highest price itself, 0.50: [25/100] is 0 in
    Python 2.  The claim expects 0.375. *)
Theorem seed_bid_is_the_highest_price :
  (exists bid, seed_bid scenario_env = Ok bid
               /\ bid == 1 # 2 /\ ~ bid == 375 # 1000)
  /\ (exists bid, spec_seed_bid scenario_env = Ok bid /\ bid == 375 # 1000)
  /\ (exists bid, fix_spot scenario_env None =
                    Ok {| name := "zoneA"; price_deviation := bid |}
                  /\ bid == 2075 # 10000).
Proof.
  split; [| split].
  - eexists. split; [vm_compute; reflexivity |]. split; [reflexivity | discriminate].
  - eexists. split; [vm_compute; reflexivity | reflexivity].
  - eexists. split; [vm_compute; reflexivity | reflexivity].
Qed.

(** C5.  With minimum 0.10 and average 0.2075 (the samples of the scenario),
    a bid of 1 is above twice the average and the code lowers it to the
    average, 0.2075, not to 0.259375 = avg + 25% avg; a bid of 0.05 is below
    the minimum and the code raises it to the minimum, 0.10, not to 0.125. *)
Theorem correct_bid_drops_the_quarter :
  (exists sm avg, check_spot_prices (get_spot_history scenario_env) = Some (sm, avg)
                  /\ sm == 1 # 10 /\ avg == 2075 # 10000)
  /\ correct_bid 1 (1 # 10) (2075 # 10000) == 2075 # 10000
  /\ spec_correct_bid 1 (1 # 10) (2075 # 10000) == 259375 # 1000000
  /\ correct_bid (5 # 100) (1 # 10) (2075 # 10000) == 1 # 10
  /\ spec_correct_bid (5 # 100) (1 # 10) (2075 # 10000) == 125 # 1000
  /\ (exists bid', optimize_spot_bid scenario_env 1 = Ok ("zoneA", bid')
                   /\ bid' == 2075 # 10000).
Proof.
  split; [| split; [| split; [| split; [| split]]]]; try reflexivity.
  - eexists _, _. split; [vm_compute; reflexivity |]. split; reflexivity.
  - eexists. split; [vm_compute; reflexivity | reflexivity].
Qed.

End SpotFacts.

(** ** Facts about [Engine.create] and the wait for spot requests *)

Module FleetFacts.
Import Fleet.

Lemma log_calls_nil f : log_calls [] f = f.
Proof. destruct f; unfold log_calls; simpl. rewrite app_nil_r. reflexivity. Qed.

Lemma log_calls_cons c cs f : log_calls cs (log_calls [c] f) = log_calls (c :: cs) f.
Proof.
  unfold log_calls; simpl. rewrite <- app_assoc. reflexivity.
Qed.

Section WithService.
Variable env : Service.

Lemma for_each_terminate (l : list string) (f : frame) :
  (forall i, terminate_instance env i = Ok tt) ->
  for_each l (terminate env) f = Some (Ok tt, log_calls (map Terminate l) f).
Proof.
  intros Hok. revert f. induction l as [| i l IH]; intros f; simpl.
  - unfold ret. rewrite log_calls_nil. reflexivity.
  - unfold bind at 1. unfold terminate, bind, issue, lift. rewrite Hok.
    rewrite IH, log_calls_cons. reflexivity.
Qed.

(** The part of C1 on [terminate_on_error=True]: a terminate call is issued
    for each pending id, for nothing else, and [ClientError] is raised
    again. *)
Lemma on_client_error_terminates (f : frame) :
  (forall i, terminate_instance env i = Ok tt) ->
  on_client_error env true f =
    Some (Raise ClientError, log_calls (map Terminate (elements (pending_ids f))) f).
Proof.
  intros Hok. unfold on_client_error, bind, get_frame, raise.
  rewrite for_each_terminate by exact Hok. reflexivity.
Qed.

(** The part of C1 on [terminate_on_error=False] that holds: when the engine
    is bound to a pending instance, that id leaves the set, no call is
    issued and [ClientError] is raised again. *)
Lemma on_client_error_keeps (f : frame) (i : string) :
  instance_id (self f) = Some i -> i ∈ pending_ids f ->
  exists f', on_client_error env false f = Some (Raise ClientError, f')
             /\ pending_ids f' = pending_ids f ∖ {[i]}
             /\ calls f' = calls f.
Proof.
  intros Hi Hin. unfold on_client_error, bind, get_frame, raise, pending_remove.
  rewrite Hi. destruct (decide (i ∈ pending_ids f)); [| contradiction].
  eexists. split; [reflexivity |]. split; reflexivity.
Qed.

(** When the engine is bound to no pending instance, [remove] raises
    [KeyError] in the handler and the provider's error is lost. *)
Lemma on_client_error_masks (f : frame) :
  (forall i, instance_id (self f) = Some i -> i ∉ pending_ids f) ->
  on_client_error env false f = Some (Raise KeyError, f).
Proof.
  intros Hout. unfold on_client_error, bind, get_frame, raise, pending_remove.
  destruct (instance_id (self f)) as [i |]; [| reflexivity].
  destruct (decide (i ∈ pending_ids f)) as [Hin | _]; [| reflexivity].
  exfalso. exact (Hout i eq_refl Hin).
Qed.

(** A request that the provider rejects reaches the handler with nothing
    pending, whatever the engine was bound to before. *)
Lemma create_refused_on_demand fuel self0 (arguments : LaunchPlan)
    ordinal path text :
  path <> EmptyString ->
  read_file env path = Ok text ->
  BidPrice arguments = None ->
  create_ec2_instances env (MaxCount arguments) = Raise ClientError ->
  exists f, create env fuel self0 arguments false ordinal (Some path)
            = Some (Raise KeyError, f)
            /\ calls f = [CreateInstances (MaxCount arguments)].
Proof.
  intros Hpath Hread Hbid Hrefused.
  unfold create, create_body, bind at 1, user_text_of.
  destruct path as [| a path]; [contradiction |].
  unfold bind at 1, lift at 1. rewrite Hread. unfold ret at 1.
  unfold submit. rewrite Hbid.
  unfold submit_on_demand, read_user_text, bind, ret, issue, lift.
  rewrite Hrefused.
  rewrite on_client_error_masks.
  - eexists. split; reflexivity.
  - simpl. intros i _. set_solver.
Qed.

End WithService.

Lemma wait_loop_open (n : nat) :
  forall k f,
    (n <= 10)%nat ->
    wait_loop second_open (S (n + k)) "sir-2" (10 - Z.of_nat n) f =
      Some (Ok None,
            log_calls (repeat (DescribeSpotInstanceRequests "sir-2") n) f).
Proof.
  induction n as [| n IH]; intros k f Hn.
  - simpl. unfold ret. rewrite log_calls_nil. reflexivity.
  - change (S (S n + k)) with (S (S (n + k))).
    remember (S (n + k)) as fuel' eqn:Hfuel.
    assert (Hlt : (10 - Z.of_nat (S n) <? 10)%Z = true) by (apply Z.ltb_lt; lia).
    cbn [wait_loop]. rewrite Hlt.
    unfold bind, get_frame, issue, lift.
    cbn [second_open service describe_spot_instance_requests].
    change (String.eqb "sir-2" "sir-1") with false. cbv iota.
    change (scan_requests [still_open] (10 - Z.of_nat (S n)))
      with (Continues (10 - Z.of_nat (S n) + 1)).
    cbv iota. subst fuel'.
    replace (10 - Z.of_nat (S n) + 1)%Z with (10 - Z.of_nat n)%Z by lia.
    rewrite IH by lia. rewrite log_calls_cons. reflexivity.
Qed.

Lemma wait_loop_cancelled (fuel : nat) :
  forall count_tries f, wait_loop never_open fuel "sir-1" count_tries f = None
                        \/ (10 <= count_tries)%Z.
Proof.
  induction fuel as [| fuel IH]; intros count_tries f; [left; reflexivity |].
  destruct (Z.ltb_spec count_tries 10) as [Hlt | Hge]; [left | right; exact Hge].
  cbn [wait_loop]. apply Z.ltb_lt in Hlt as Hlt'. rewrite Hlt'.
  unfold bind, get_frame, issue, lift. cbn.
  destruct (IH count_tries (log_calls [DescribeSpotInstanceRequests "sir-1"] f))
    as [H | H]; [exact H | lia].
Qed.

(** The loop is not bounded by its ten tries: a request that is neither
    open, failed nor fulfilled is polled for ever. *)
Lemma wait_spot_requests_may_never_end (fuel : nat) (f : frame) :
  wait_spot_requests_fullfilled never_open fuel "sir-1" f = None.
Proof.
  unfold wait_spot_requests_fullfilled.
  destruct (wait_loop_cancelled fuel 0 f) as [H | H]; [exact H | lia].
Qed.

(** C1.  The provider refuses the batch request and [terminate_on_error] is
    false: nothing is pending yet, [pending_ids.remove(self.instance_id)]
    raises [KeyError] inside the handler, and [create] ends with [KeyError]
    instead of raising the provider's [ClientError] again.  With
    [terminate_on_error] true the same request raises [ClientError]. *)
Theorem create_loses_the_provider_error :
  forall fuel ordinal,
    (exists f,
       create refusing fuel unbound on_demand_plan false ordinal (Some "boot.sh")
         = Some (Raise KeyError, f)
       /\ pending_ids f = ∅ /\ terminated f = [])
    /\ (exists f,
          create refusing fuel unbound on_demand_plan true ordinal (Some "boot.sh")
            = Some (Raise ClientError, f)
          /\ terminated f = []).
Proof.
  intros fuel ordinal. split.
  - eexists. split; [reflexivity |]. split; reflexivity.
  - eexists. split; [vm_compute; reflexivity | reflexivity].
Qed.

(** C6.  A request that stays open is described ten times, after which the
    wait returns [None]: no timeout error is raised.  [create] then fails on
    [ec2.Instance(None)] with the [ValueError] of boto3; the instance bound
    before is not terminated, with [terminate_on_error] true as well. *)
Theorem wait_spot_requests_returns_None :
  (forall k f,
     wait_spot_requests_fullfilled second_open (11 + k) "sir-2" f =
       Some (Ok None,
             log_calls (repeat (DescribeSpotInstanceRequests "sir-2") 10) f))
  /\ (exists f,
        create second_open 11 unbound spot_plan true 0 (Some "boot.sh")
          = Some (Raise ValueError, f)
        /\ elements (pending_ids f) = ["i-1"]
        /\ terminated f = []
        /\ length (describes f) = 11%nat).
Proof.
  split.
  - intros k f. unfold wait_spot_requests_fullfilled.
    change (11 + k)%nat with (S (10 + k)). change 0%Z with (10 - Z.of_nat 10)%Z.
    apply wait_loop_open. lia.
  - eexists. split; [vm_compute; reflexivity |].
    split; [vm_compute; reflexivity |]. split; reflexivity.
Qed.

(** The scenario of the specification: the third of five instances fails to
    bind; the three pending instances are terminated and nothing is
    returned. *)
Example create_third_of_five_refused :
  exists f,
    create third_refused 0 unbound on_demand_plan true 0 (Some "boot.sh")
      = Some (Raise ClientError, f)
    /\ engines f = ["i-1"; "i-2"]
    /\ terminated f ≡ₚ ["i-1"; "i-2"; "i-3"].
Proof.
  eexists. split; [vm_compute; reflexivity |]. split; [reflexivity |].
  vm_compute. apply (Permutation_cons_append ["i-1"; "i-2"] "i-3").
Qed.

End FleetFacts.

(** ** Facts about [ProvisionManager] *)

Module ProvisionFacts.
Import PyNum PyNumFacts PySeq PySeqFacts Provision.
Local Open Scope Q_scope.

Lemma take_In {A} (n : nat) (l : list A) (x : A) : In x (take n l) -> In x l.
Proof.
  revert l. induction n as [| n IH]; intros [| y l]; simpl; try tauto.
  intros [H | H]; auto.
Qed.

Lemma slice_to_In {A} (n : Z) (l : list A) (x : A) :
  In x (slice_to n l) -> In x l.
Proof. unfold slice_to. destruct (0 <=? n)%Z; apply take_In. Qed.

Section Manager.
Context {Instance Cluster : Type}.
Variable private_ip_address : Instance -> string.
Variable _remainingBillingInterval : Instance -> Q.
Variable _getWorkersInCluster : Cluster -> bool -> list Instance.
Variable _addNodes : Cluster -> list Instance -> Z -> bool -> Z * Cluster.
Variable _logAndTerminate : Cluster -> list Instance -> Cluster.

Abbreviation nodes_to_terminate :=
  (nodes_to_terminate private_ip_address _remainingBillingInterval).
Abbreviation removeNodes :=
  (removeNodes private_ip_address _remainingBillingInterval _logAndTerminate).
Abbreviation expendable :=
  (expendable private_ip_address _remainingBillingInterval).
Abbreviation set_node_count :=
  (set_node_count private_ip_address _remainingBillingInterval
     _getWorkersInCluster _addNodes _logAndTerminate).

Lemma nodes_to_terminate_expendable get_nodes instances numNodes preemptible i :
  In i (nodes_to_terminate (Some get_nodes) instances numNodes preemptible false) ->
  expendable (get_nodes preemptible) i.
Proof.
  unfold Provision.nodes_to_terminate. cbn [negb].
  intros Hin. apply in_map_iff in Hin as [[i' o] [Heq Hin]].
  cbn [fst] in Heq. subst i'.
  apply slice_to_In in Hin.
  apply filter_In in Hin as [Hin Hleft]. cbn [fst] in Hleft.
  apply sorted_In in Hin.
  apply filter_In in Hin as [Hin Hidle].
  apply in_map_iff in Hin as [j [Heq _]]. injection Heq as -> <-.
  unfold keep_idle in Hidle. cbn [snd] in Hidle.
  split.
  - destruct (get_nodes preemptible !! private_ip_address i) as [nodeInfo |];
      [| discriminate].
    exists nodeInfo. split; [reflexivity |]. apply Z.ltb_lt. exact Hidle.
  - apply Qleb_le. exact Hleft.
Qed.

(** C7.  With a resource manager and [force=False], what [__removeNodes]
    hands to [_logAndTerminate] are expendable nodes only: none has an
    active worker, none is unknown to the resource manager, none has more
    than 15% of its paid hour left.  It issues no other call and returns
    their number. *)
Theorem removeNodes_spares_busy_and_paid get_nodes
    (m : manager) instances numNodes preemptible :
  let r := removeNodes (Some get_nodes) m instances numNodes preemptible false in
  exists victims,
    issued (snd r) =
      issued m ++ match victims with [] => [] | _ => [LogAndTerminate victims] end
    /\ fst r = Z.of_nat (length victims)
    /\ Forall (expendable (get_nodes preemptible)) victims.
Proof.
  cbv zeta. unfold Provision.removeNodes.
  set (victims := nodes_to_terminate (Some get_nodes) instances numNodes
                    preemptible false).
  exists victims. split; [| split].
  - destruct victims; cbn; [rewrite app_nil_r |]; reflexivity.
  - reflexivity.
  - apply List.Forall_forall. intros i Hi.
    eapply nodes_to_terminate_expendable. exact Hi.
Qed.

(** Without a resource manager every candidate is handed over. *)
Lemma removeNodes_without_load_info (m : manager) instances numNodes
    preemptible force :
  let r := removeNodes None m instances numNodes preemptible force in
  fst r = Z.of_nat (length instances)
  /\ forall i, In i instances ->
       exists victims, In (LogAndTerminate victims) (issued (snd r))
                       /\ In i victims.
Proof.
  cbv zeta. unfold Provision.removeNodes, Provision.nodes_to_terminate.
  split.
  - cbn [fst]. rewrite sorted_length. reflexivity.
  - intros i Hi.
    apply (sorted_In Qltb _remainingBillingInterval) in Hi.
    destruct (sorted Qltb _remainingBillingInterval instances) as [| j l] eqn:Hs;
      [destruct Hi |].
    exists (j :: l). split; [| exact Hi].
    cbn. apply in_or_app. right. left. reflexivity.
Qed.

(** C8, amended.  When the cluster already has [numNodes] workers the call
    returns [numNodes] and leaves the manager as it was, the calls issued
    included; hence a call that follows one which left [numNodes] workers
    returns [numNodes] and issues no call. *)
Theorem set_node_count_settled resManager (m : manager) numNodes
    preemptible force :
  (Z.of_nat (length (_getWorkersInCluster (cluster m) preemptible)) = numNodes ->
   set_node_count resManager m numNodes preemptible force = (numNodes, m))
  /\ (let r := set_node_count resManager m numNodes preemptible force in
      Z.of_nat (length (_getWorkersInCluster (cluster (snd r)) preemptible))
        = numNodes ->
      set_node_count resManager (snd r) numNodes preemptible force
        = (numNodes, snd r)).
Proof.
  assert (Hnoop : forall m',
    Z.of_nat (length (_getWorkersInCluster (cluster m') preemptible)) = numNodes ->
    set_node_count resManager m' numNodes preemptible force = (numNodes, m')).
  { intros m' Hsize. unfold Provision.set_node_count. rewrite Hsize.
    rewrite Z.sub_diag. reflexivity. }
  split; [apply Hnoop |]. cbv zeta. apply Hnoop.
Qed.

End Manager.

Lemma set_node_count_settled_witness :
  Z.of_nat (length (workers_in (cluster (fresh_manager three_nodes)) false)) = 3%Z
  /\ run_set_node_count None (fresh_manager three_nodes) 3 false false
       = (3%Z, fresh_manager three_nodes)
  /\ (let r := run_set_node_count None (fresh_manager three_nodes) 3 false false in
      run_set_node_count None (snd r) 3 false false = (3%Z, snd r)).
Proof.
  pose proof (set_node_count_settled node_ip node_left workers_in launch shut
                None (fresh_manager three_nodes) 3 false false) as [H1 H2].
  split; [reflexivity |]. split.
  - apply H1. reflexivity.
  - apply H2. reflexivity.
Defined.

(** C8 as stated fails: two nodes, both busy, a desired count of one and no
    [force]; nothing may be terminated and the call returns 2, not 1. *)
Lemma set_node_count_misses_the_count :
  ~ (let r1 := run_set_node_count (Some all_busy) (fresh_manager two_busy_nodes)
                 1 false false in
     let r2 := run_set_node_count (Some all_busy) (snd r1) 1 false false in
     fst r1 = 1%Z /\ fst r2 = 1%Z /\ issued (snd r2) = issued (snd r1)).
Proof.
  cbv zeta. intros [H _]. vm_compute in H. discriminate H.
Qed.

(** C2.  Without a resource manager [__removeNodes] sorts the candidates and
    terminates all of them, whatever [numNodes] is.  Three nodes and a
    desired count of two: one node is to go, the three are terminated and
    the count returned is 0. *)
Theorem removeNodes_ignores_the_count :
  (exists victims,
     removeNodes node_ip node_left shut None (fresh_manager three_nodes)
       three_nodes 1 false false
     = (3%Z, {| cluster := []; issued := [LogAndTerminate victims] |})
     /\ map node_id victims = ["i-2"; "i-3"; "i-1"])
  /\ (exists m, run_set_node_count None (fresh_manager three_nodes) 2 false false
                = (0%Z, m) /\ cluster m = []).
Proof.
  split.
  - eexists. split; [vm_compute; reflexivity | reflexivity].
  - eexists. split; [vm_compute; reflexivity | reflexivity].
Qed.

End ProvisionFacts.

(** ** Facts about the class [Worker] *)

Module WorkerFacts.
Import WorkerClass.

Section Values.
Variable value : Type.

Lemma property_lookup (attr : string) :
  In attr property_names ->
  Worker_properties value !! attr = Some (readonly value attr).
Proof.
  unfold property_names. simpl.
  intros [<- | [<- | [<- | [<- | [<- | [<- | []]]]]]]; vm_compute; reflexivity.
Qed.

Lemma getattr_property (depth : nat) (self : object value) (attr : string) :
  In attr property_names ->
  getattr value depth self attr = (Raise RuntimeError, depth).
Proof.
  intros Hin. induction depth as [| depth IH]; cbn [getattr];
    rewrite (property_lookup attr Hin); cbn [fget readonly]; [reflexivity |].
  rewrite IH. reflexivity.
Qed.

(** C10.  Whatever the arguments, [Worker(...)] raises [AttributeError]: the
    first assignment of [__init__] meets a property without setter.  Reading
    one of the six properties of an instance never gives a value either, but
    it does end: the getter reads the same attribute again, so the calls
    nest until the interpreter allows no more and raises [RuntimeError],
    whatever room is left, every allowed call having been made. *)
Theorem Worker_cannot_be_built :
  (forall publicIP privateIP name launchTime nodeType preemptible : value,
     Worker value publicIP privateIP name launchTime nodeType preemptible
       = Raise AttributeError)
  /\ Forall (fun attr => forall depth (self : object value),
               getattr value depth self attr = (Raise RuntimeError, depth))
            property_names.
Proof.
  split.
  - intros. unfold Worker, init, setattr.
    rewrite (property_lookup "publicIP") by (left; reflexivity).
    reflexivity.
  - apply List.Forall_forall. intros attr Hin depth self.
    apply getattr_property. exact Hin.
Qed.

End Values.

(** The read of a property ends: with room for 500 nested calls it raises
    [RuntimeError] after exactly these 500 calls. *)
Lemma Worker_read_ends_at_the_limit :
  getattr Z 500 {| dict := {[ "publicIP" := 1%Z ]} |} "publicIP"
  = (Raise RuntimeError, 500%nat).
Proof. vm_compute. reflexivity. Qed.

End WorkerFacts.

(** ** Facts about [utils.mean] and [utils.std_dev] *)

Module UtilsFacts.
Import PyNum PyNumFacts Utils SpotFacts.
Local Open Scope Q_scope.

Lemma Qsum_cons (x : Q) (l : list Q) : Qsum (x :: l) == x + Qsum l.
Proof. unfold Qsum. cbn [foldl]. rewrite foldl_Qplus. unfold Qsum. ring. Qed.

Lemma Qsum_nil : Qsum [] == 0.
Proof. reflexivity. Qed.

Lemma len_float_cons (x : Q) (l : list Q) : len_float (x :: l) == len_float l + 1.
Proof.
  unfold len_float. cbn [length].
  rewrite Nat2Z.inj_succ, <- Z.add_1_r, inject_Z_plus. reflexivity.
Qed.

Lemma len_float_nonneg (l : list Q) : 0 <= len_float l.
Proof.
  unfold len_float. change 0 with (inject_Z 0). rewrite <- Zle_Qle. lia.
Qed.

Lemma Qsum_upper (hi : Q) (l : list Q) :
  (forall x, In x l -> x <= hi) -> Qsum l <= hi * len_float l.
Proof.
  induction l as [| x l IH]; intros Hhi.
  - rewrite Qsum_nil. unfold len_float. cbn [length].
    change (inject_Z (Z.of_nat 0)) with 0. lra.
  - rewrite Qsum_cons, len_float_cons.
    assert (x <= hi) by (apply Hhi; left; reflexivity).
    assert (Qsum l <= hi * len_float l)
      by (apply IH; intros y Hy; apply Hhi; right; exact Hy).
    lra.
Qed.

(** The mean of a non-empty sequence lies between any two bounds of it. *)
Lemma mean_bounds (xs : list Q) (lo hi : Q) :
  xs <> [] ->
  (forall x, In x xs -> lo <= x /\ x <= hi) ->
  exists m, mean xs = Ok m /\ lo <= m /\ m <= hi.
Proof.
  intros Hne Hb.
  destruct xs as [| x xs]; [contradiction |].
  eexists. split; [reflexivity |].
  assert (Hlen : 0 < len_float (x :: xs)).
  { rewrite len_float_cons. pose proof (len_float_nonneg xs). lra. }
  split.
  - apply Qle_shift_div_l; [exact Hlen |].
    apply Qsum_lower. intros y Hy. apply Hb. exact Hy.
  - apply Qle_shift_div_r; [exact Hlen |].
    apply Qsum_upper. intros y Hy. apply Hb. exact Hy.
Qed.

End UtilsFacts.

(** ** Facts about [provisioning/aws/ec2_instance.py] *)

Module InstancesFacts.
Import PyNum PyNumFacts Utils Billing Instances SpotFacts UtilsFacts.
Local Open Scope Q_scope.

Lemma round3_mono (x y : Q) : x <= y -> round3 x <= round3 y.
Proof.
  intros Hxy. unfold round3.
  assert (H : (round_half_away (x * 1000) <= round_half_away (y * 1000))%Z)
    by (apply round_half_away_mono; lra).
  rewrite Zle_Qle in H. apply Qle_shift_div_l; [reflexivity |].
  field_simplify. lra.
Qed.

Lemma round3_Z (k : Z) : round3 (inject_Z k) == inject_Z k.
Proof.
  unfold round3.
  rewrite (round_half_away_comp (inject_Z k * 1000) (inject_Z (k * 1000)))
    by (rewrite inject_Z_mult; reflexivity).
  rewrite round_half_away_Z, inject_Z_mult. field.
Qed.

Lemma round3_near (x : Q) :
  0 <= x -> x - (1 # 2000) <= round3 x /\ round3 x <= x + (1 # 2000).
Proof.
  intros Hx. unfold round3, round_half_away.
  assert (Hs : Qleb 0 (x * 1000) = true) by (apply Qleb_le; lra).
  rewrite Hs.
  pose proof (Qfloor_le (x * 1000 + (1 # 2))) as Hle.
  pose proof (Qlt_floor (x * 1000 + (1 # 2))) as Hlt.
  rewrite inject_Z_plus in Hlt. change (inject_Z 1) with 1 in Hlt.
  set (k := inject_Z (Qfloor (x * 1000 + (1 # 2)))) in *.
  split.
  - apply Qle_shift_div_l; [reflexivity |]. lra.
  - apply Qle_shift_div_r; [reflexivity |]. lra.
Qed.

Lemma launch_timings_range (instances : list (Q * Q)) (t : Q) :
  In t (map (fun inst => mod1 (total_seconds (fst inst) (snd inst) / 3600))
            instances) ->
  0 <= t /\ t <= 1.
Proof.
  intros Ht. apply in_map_iff in Ht as [inst [<- _]].
  pose proof (mod1_range (total_seconds (fst inst) (snd inst) / 3600)). lra.
Qed.

(** X5.  [__awsBillingInterval] raises [ValueError] on an empty list; on a
    non-empty one its value lies in [0, 1], and for a single instance it is
    within 0.0005 of that instance's [remaining_billing_interval]. *)
Theorem awsBillingInterval_range (instances : list (Q * Q)) :
  instances <> [] ->
  awsBillingInterval [] = Raise ValueError
  /\ (exists r, awsBillingInterval instances = Ok r /\ 0 <= r /\ r <= 1)
  /\ (forall launch_time now,
        exists r, awsBillingInterval [(launch_time, now)] = Ok r
                  /\ remaining_billing_interval launch_time now - (1 # 2000) <= r
                  /\ r <= remaining_billing_interval launch_time now + (1 # 2000)).
Proof.
  intros Hne. split; [reflexivity |]. split.
  - unfold awsBillingInterval.
    set (ts := map _ instances).
    assert (Hts : ts <> []) by (destruct instances; [contradiction | discriminate]).
    destruct (mean_bounds ts 0 1 Hts (launch_timings_range instances))
      as [m [Hm [H0 H1]]].
    rewrite Hm. cbn [rbind]. eexists. split; [reflexivity |].
    pose proof (round3_mono 0 m H0) as Hlo.
    pose proof (round3_mono m 1 H1) as Hhi.
    rewrite (round3_Z 0) in Hlo. rewrite (round3_Z 1) in Hhi.
    change (inject_Z 0) with 0 in Hlo. change (inject_Z 1) with 1 in Hhi.
    split; lra.
  - intros launch_time now. unfold awsBillingInterval. cbn [map mean rbind fst snd].
    eexists. split; [reflexivity |].
    unfold remaining_billing_interval.
    set (t := mod1 (total_seconds launch_time now / 3600)).
    assert (Ht : 0 <= t) by apply mod1_range.
    assert (Hmean : Qsum [t] / len_float [t] == t).
    { rewrite Qsum_cons, Qsum_nil. unfold len_float. cbn [length].
      change (inject_Z (Z.of_nat 1)) with 1. field. }
    assert (Hr : round3 (Qsum [t] / len_float [t]) == round3 t).
    { unfold round3.
      rewrite (round_half_away_comp (Qsum [t] / len_float [t] * 1000) (t * 1000))
        by (rewrite Hmean; reflexivity).
      reflexivity. }
    rewrite Hr. pose proof (round3_near t Ht). lra.
Qed.

Lemma awsBillingInterval_range_witness :
  [(0, 600); (0, 1800)] <> []
  /\ exists r, awsBillingInterval [(0, 600); (0, 1800)] = Ok r /\ 0 <= r /\ r <= 1.
Proof.
  assert (Hne : [(0, 600); (0, 1800)] <> ([] : list (Q * Q))) by discriminate.
  split; [exact Hne |].
  exact (proj1 (proj2 (awsBillingInterval_range [(0, 600); (0, 1800)] Hne))).
Defined.

Lemma wait_while_in (state_getter : nat -> string) from_states to_state
    (n : nat) :
  forall fuel reads state,
    state_in state from_states = true ->
    (forall k, (k < n)%nat -> state_in (state_getter (reads + k)%nat) from_states = true) ->
    wait_while (S (n + fuel)) state_getter from_states to_state reads state
    = wait_while fuel state_getter from_states to_state (S (reads + n))
        (state_getter (reads + n)%nat).
Proof.
  induction n as [| n IH]; intros fuel reads state Hstate Hin.
  - cbn [wait_while Nat.add]. rewrite Hstate, Nat.add_0_r. reflexivity.
  - change (S (S n + fuel)) with (S (S (n + fuel))).
    remember (S (n + fuel)) as fuel' eqn:Hf.
    cbn [wait_while]. rewrite Hstate. subst fuel'.
    rewrite (IH fuel (S reads) (state_getter reads)).
    + replace (S reads + n)%nat with (reads + S n)%nat by lia. reflexivity.
    + specialize (Hin 0%nat). rewrite Nat.add_0_r in Hin. apply Hin. lia.
    + intros k Hk. replace (S reads + k)%nat with (reads + S k)%nat by lia.
      apply Hin. lia.
Qed.

(** X6.  [wait_transition] reads the state until it is no longer one of
    [from_states].  If the [n]-th reading is the first such one, the wait
    ends there: it returns when that state is [to_state] and raises
    [UnexpectedResourceState] with that state otherwise, having looked at
    nothing later. *)
Theorem wait_transition_first_settled (state_getter : nat -> string)
    from_states to_state (n fuel : nat) :
  (forall k, (k < n)%nat -> state_in (state_getter k) from_states = true) ->
  state_in (state_getter n) from_states = false ->
  wait_transition (S (n + fuel)) state_getter from_states to_state
  = Some (if String.eqb (state_getter n) to_state then Reached
          else UnexpectedResourceState to_state (state_getter n)).
Proof.
  intros Hin Hout. unfold wait_transition.
  destruct n as [| n].
  - cbn [wait_while Nat.add]. rewrite Hout. destruct (String.eqb _ _); reflexivity.
  - replace (S (S n + fuel)) with (S (n + S fuel)) by lia.
    rewrite (wait_while_in state_getter from_states to_state n (S fuel) 1).
    + cbn [wait_while]. change (1 + n)%nat with (S n). rewrite Hout.
      destruct (String.eqb _ _); reflexivity.
    + apply Hin. lia.
    + intros k Hk. apply Hin. lia.
Qed.

Lemma wait_transition_first_settled_witness :
  let getter := fun k => if (k <? 2)%nat then "pending" else "running" in
  (forall k, (k < 2)%nat -> state_in (getter k) ["pending"] = true)
  /\ state_in (getter 2%nat) ["pending"] = false
  /\ wait_transition 3 getter ["pending"] "running" = Some Reached.
Proof.
  cbv zeta.
  assert (Hin : forall k, (k < 2)%nat ->
            state_in (if (k <? 2)%nat then "pending" else "running") ["pending"] = true).
  { intros k Hk. destruct k as [| [| k]]; [reflexivity | reflexivity | lia]. }
  split; [exact Hin |]. split; [reflexivity |].
  exact (wait_transition_first_settled
           (fun k => if (k <? 2)%nat then "pending" else "running")
           ["pending"] "running" 2 0 Hin eq_refl).
Defined.

End InstancesFacts.

(** ** Facts about the names and lists of [utils.py] *)

Module NamesFacts.
Import Stdlib.Strings.Ascii Stdlib.Strings.String Names.

Lemma contains_app (c : ascii) (s t : string) :
  contains c (s +:+ t) = contains c s || contains c t.
Proof.
  induction s as [| d s IH]; simpl; [reflexivity |].
  rewrite IH. apply orb_assoc.
Qed.

Lemma lower_char_not_upper (c : ascii) : is_upper (lower_char c) = false.
Proof.
  unfold lower_char. destruct (is_upper c) eqn:Hc; [| exact Hc].
  unfold is_upper in *. apply andb_true_iff in Hc as [H1 H2].
  apply Nat.leb_le in H1, H2.
  rewrite nat_ascii_embedding by lia.
  apply andb_false_iff. right. apply Nat.leb_gt. lia.
Qed.

Lemma upper_is_letter (c : ascii) :
  is_upper c = true -> Ascii.eqb c "/" = false /\ Ascii.eqb c "_" = false.
Proof.
  intros Hc. split; apply Ascii.eqb_neq; intros ->; discriminate Hc.
Qed.

Lemma replace_keeps_case (old : ascii) (new s : string) :
  forallb (fun c => negb (is_upper c)) (list_ascii_of_string new) = true ->
  forallb (fun c => negb (is_upper c)) (list_ascii_of_string s) = true ->
  forallb (fun c => negb (is_upper c)) (list_ascii_of_string (replace old new s))
  = true.
Proof.
  intros Hnew. induction s as [| c s IH]; simpl; [reflexivity |].
  intros Hs. apply andb_true_iff in Hs as [Hc Hs].
  destruct (Ascii.eqb c old).
  - clear Hc. specialize (IH Hs). revert IH.
    generalize (replace old new s) as t. intros t Ht.
    induction new as [| d new IHn]; simpl in *; [exact Ht |].
    apply andb_true_iff in Hnew as [Hd Hnew].
    rewrite Hd. simpl. apply IHn. exact Hnew.
  - simpl. rewrite Hc. simpl. apply IH. exact Hs.
Qed.

Lemma lower_no_upper (s : string) :
  forallb (fun c => negb (is_upper c)) (list_ascii_of_string (lower s)) = true.
Proof.
  induction s as [| c s IH]; simpl; [reflexivity |].
  rewrite lower_char_not_upper, IH. reflexivity.
Qed.

Lemma replace_removes (old : ascii) (new s : string) :
  contains old new = false -> contains old (replace old new s) = false.
Proof.
  intros Hnew. induction s as [| c s IH]; simpl; [reflexivity |].
  destruct (Ascii.eqb c old) eqn:Hc.
  - rewrite contains_app, Hnew, IH. reflexivity.
  - simpl. rewrite Hc, IH. reflexivity.
Qed.

(** X7.  [to_aws_name] returns a name without [/] and without upper-case
    letters, whatever name it is given. *)
Theorem to_aws_name_safe (name : string) :
  contains "/" (to_aws_name name) = false
  /\ forallb (fun c => negb (is_upper c))
             (list_ascii_of_string (to_aws_name name)) = true.
Proof.
  unfold to_aws_name. split.
  - apply replace_removes. reflexivity.
  - apply replace_keeps_case; [reflexivity |].
    apply replace_keeps_case; [reflexivity |]. apply lower_no_upper.
Qed.

Lemma split_nonempty (sep : ascii) (s : string) : split sep s <> [].
Proof.
  destruct s as [| c s]; simpl; [discriminate |].
  destruct (Ascii.eqb c sep); [discriminate |].
  destruct (split sep s); discriminate.
Qed.

Lemma split_plain (sep : ascii) (s : string) :
  contains sep s = false -> split sep s = [s].
Proof.
  induction s as [| c s IH]; simpl; [reflexivity |].
  intros H. apply orb_false_iff in H as [Hc Hs].
  rewrite Hc, (IH Hs). reflexivity.
Qed.

Lemma last_split_app (sep : ascii) (dir base : string) :
  contains sep base = false ->
  List.last (split sep (dir +:+ String sep base)) EmptyString = base.
Proof.
  intros Hbase. induction dir as [| c dir IH]; simpl.
  - rewrite Ascii.eqb_refl, (split_plain sep base Hbase). reflexivity.
  - destruct (Ascii.eqb c sep).
    + pose proof (split_nonempty sep (dir +:+ String sep base)) as Hne.
      destruct (split sep (dir +:+ String sep base)) as [| w ws] eqn:Hs;
        [contradiction |].
      exact IH.
    + pose proof (split_nonempty sep (dir +:+ String sep base)) as Hne.
      destruct (split sep (dir +:+ String sep base)) as [| w ws] eqn:Hs;
        [contradiction |].
      destruct ws as [| w' ws]; [| exact IH].
      (* one piece only: impossible, the separator is there *)
      exfalso. clear IH Hne.
      assert (Hlen : forall t, (2 <= List.length (split sep (t +:+ String sep base)))%nat).
      { clear. intros t. induction t as [| d t IHt]; simpl.
        - rewrite Ascii.eqb_refl. pose proof (split_nonempty sep base).
          destruct (split sep base); [contradiction | simpl; lia].
        - destruct (Ascii.eqb d sep); [simpl; lia |].
          destruct (split sep (t +:+ String sep base)); simpl in *; lia. }
      specialize (Hlen dir). rewrite Hs in Hlen. simpl in Hlen. lia.
Qed.

(** X8.  [base_name] returns what follows the last [/]: for a name made of
    any directory part, a [/] and a part without [/], it is that last part;
    a name without [/] is its own base name. *)
Theorem base_name_last_part (dir base : string) :
  contains "/" base = false ->
  base_name (dir +:+ "/" +:+ base) = base /\ base_name base = base.
Proof.
  intros Hbase. unfold base_name. split.
  - apply (last_split_app "/" dir base Hbase).
  - rewrite (split_plain "/" base Hbase). reflexivity.
Qed.

Lemma base_name_last_part_witness :
  contains "/" "resource" = false
  /\ base_name ("/path/to/some" +:+ "/" +:+ "resource") = "resource"
  /\ base_name "resource" = "resource".
Proof.
  split; [reflexivity |].
  exact (base_name_last_part "/path/to/some" "resource" eq_refl).
Defined.

Lemma index_plain (c : ascii) (s : string) :
  contains c s = false -> index c s = None.
Proof.
  induction s as [| d s IH]; simpl; [reflexivity |].
  intros H. apply orb_false_iff in H as [Hd Hs].
  rewrite Hd, (IH Hs). reflexivity.
Qed.

Lemma index_app (c : ascii) (s t : string) :
  contains c s = false -> index c (s +:+ String c t) = Some (String.length s).
Proof.
  induction s as [| d s IH]; simpl.
  - intros _. rewrite Ascii.eqb_refl. reflexivity.
  - intros H. apply orb_false_iff in H as [Hd Hs].
    rewrite Hd, (IH Hs). reflexivity.
Qed.

Lemma substring_prefix (s t : string) : substring 0 (String.length s) (s +:+ t) = s.
Proof.
  induction s as [| d s IH]; simpl.
  - destruct t; reflexivity.
  - rewrite IH. reflexivity.
Qed.

(** X9.  [drop_hostname] returns the user of [user@domain], the first [@]
    being the separator, and returns a string without [@] as it is. *)
Theorem drop_hostname_user (user domain : string) :
  contains "@" user = false ->
  drop_hostname (user +:+ "@" +:+ domain) = user /\ drop_hostname user = user.
Proof.
  intros Huser. unfold drop_hostname. split.
  - change (user +:+ "@" +:+ domain) with (user +:+ String "@" domain).
    rewrite (index_app "@" user domain Huser). apply substring_prefix.
  - rewrite (index_plain "@" user Huser). reflexivity.
Qed.

Lemma drop_hostname_user_witness :
  contains "@" "fabio" = false
  /\ drop_hostname ("fabio" +:+ "@" +:+ "host@example.org") = "fabio"
  /\ drop_hostname "fabio" = "fabio".
Proof.
  split; [reflexivity |].
  exact (drop_hostname_user "fabio" "host@example.org" eq_refl).
Defined.

Section UniqueList.
Context {A : Type} `{EqDecision A}.

Lemma fromkeys_fold (l : list A) :
  forall keys,
    NoDup keys ->
    NoDup (foldl fromkeys_step keys l)
    /\ (forall x, x ∈ foldl fromkeys_step keys l <-> x ∈ keys \/ x ∈ l)
    /\ keys `prefix_of` foldl fromkeys_step keys l.
Proof.
  induction l as [| k l IH]; intros keys Hnd; cbn [foldl].
  - split; [exact Hnd |]. split; [| reflexivity].
    intros x. rewrite elem_of_nil. tauto.
  - unfold fromkeys_step at 2 4 6. destruct (decide (k ∈ keys)) as [Hin | Hout].
    + destruct (IH keys Hnd) as [H1 [H2 H3]].
      split; [exact H1 |]. split; [| exact H3].
      intros x. rewrite H2, elem_of_cons. split; [tauto |].
      intros [Hx | [-> | Hx]]; tauto.
    + assert (Hnd' : NoDup (keys ++ [k])).
      { apply NoDup_app. split; [exact Hnd |]. split; [| apply NoDup_singleton].
        intros x Hx Hk. apply list_elem_of_singleton in Hk as ->. contradiction. }
      destruct (IH (keys ++ [k]) Hnd') as [H1 [H2 H3]].
      split; [exact H1 |]. split.
      * intros x. rewrite H2, elem_of_app, list_elem_of_singleton, elem_of_cons. tauto.
      * etransitivity; [| exact H3]. apply prefix_app_r. reflexivity.
Qed.

Lemma fromkeys_fold_fresh (l : list A) :
  forall keys,
    NoDup l -> (forall x, x ∈ l -> x ∉ keys) ->
    foldl fromkeys_step keys l = keys ++ l.
Proof.
  induction l as [| k l IH]; intros keys Hnd Hfresh; cbn [foldl].
  - rewrite app_nil_r. reflexivity.
  - apply NoDup_cons in Hnd as [Hk Hnd].
    unfold fromkeys_step at 2. destruct (decide (k ∈ keys)) as [Hin | Hout].
    + exfalso. apply (Hfresh k); [left | exact Hin].
    + rewrite IH; [rewrite <- app_assoc; reflexivity | exact Hnd |].
      intros x Hx Hin. apply elem_of_app in Hin as [Hin | Hin].
      * apply (Hfresh x); [right; exact Hx | exact Hin].
      * apply list_elem_of_singleton in Hin as ->. contradiction.
Qed.

(** X10.  [uniqueList] keeps one copy of each element of the list and
    nothing else, and leaves a list without duplicates as it is; applying it
    twice changes nothing more. *)
Theorem uniqueList_unique (seq_list : list A) :
  NoDup (uniqueList seq_list)
  /\ (forall x, x ∈ uniqueList seq_list <-> x ∈ seq_list)
  /\ (NoDup seq_list -> uniqueList seq_list = seq_list)
  /\ uniqueList (uniqueList seq_list) = uniqueList seq_list.
Proof.
  unfold uniqueList.
  destruct (fromkeys_fold seq_list [] (NoDup_nil_2)) as [H1 [H2 _]].
  assert (Hid : forall l : list A, NoDup l -> foldl fromkeys_step [] l = l).
  { intros l Hl. rewrite fromkeys_fold_fresh; [reflexivity | exact Hl |].
    intros x _. apply not_elem_of_nil. }
  split; [exact H1 |]. split.
  - intros x. rewrite H2, elem_of_nil. tauto.
  - split; [apply Hid | apply Hid; exact H1].
Qed.

End UniqueList.

Lemma uniqueList_unique_witness :
  NoDup ["a"; "b"] /\ uniqueList ["a"; "b"] = ["a"; "b"].
Proof.
  assert (Hnd : NoDup ["a"; "b"]).
  { apply (bool_decide_unpack (NoDup ["a"; "b"])). vm_compute. exact I. }
  split; [exact Hnd |].
  exact (proj1 (proj2 (proj2 (uniqueList_unique ["a"; "b"]))) Hnd).
Defined.


End NamesFacts.

(** ** Facts about [ResourceManager.check_resource_request] *)

Module ResourcesFacts.
Import PyNum PyNumFacts Resources.
Local Open Scope Q_scope.

Lemma Qltb_ge (x y : Q) : Qltb x y = false <-> y <= x.
Proof.
  split.
  - intros H. apply Qnot_lt_le. rewrite <- Qltb_lt, H. discriminate.
  - intros H. destruct (Qltb x y) eqn:E; [| reflexivity].
    apply Qltb_lt in E. lra.
Qed.

(** X11.  A request is granted exactly when each of the three amounts is
    within its limit; a refusal names a resource that does exceed its limit,
    with the amount requested and the limit, the cores being looked at
    first, then the memory, then the disk. *)
Theorem check_resource_request_sound (self : limits) (memory cores disk : Q) :
  let r := check_resource_request self (Some memory) (Some cores) (Some disk) in
  (r = Granted <->
   cores <= maxCores self /\ memory <= maxMemory self /\ disk <= maxDisk self)
  /\ (forall resource requested available,
        r = InsufficientSystemResources resource requested available ->
        available < requested
        /\ ((resource = "cores" /\ requested = cores /\ available = maxCores self)
            \/ (resource = "memory" /\ requested = memory
                /\ available = maxMemory self /\ cores <= maxCores self)
            \/ (resource = "disk" /\ requested = disk /\ available = maxDisk self
                /\ cores <= maxCores self /\ memory <= maxMemory self)))
  /\ r <> AssertionFailed.
Proof.
  cbv zeta. unfold check_resource_request.
  destruct (Qltb (maxCores self) cores) eqn:Hc;
    [| destruct (Qltb (maxMemory self) memory) eqn:Hm;
       [| destruct (Qltb (maxDisk self) disk) eqn:Hd]].
  all: repeat match goal with
         | H : Qltb _ _ = true |- _ => apply Qltb_lt in H
         | H : Qltb _ _ = false |- _ => apply Qltb_ge in H
         end.
  all: split; [split; [discriminate || tauto | intros (H1 & H2 & H3); lra || reflexivity] |].
  all: split; [| discriminate].
  all: intros resource requested available Heq; try discriminate Heq.
  all: injection Heq as <- <- <-; split; [assumption |]; tauto.
Qed.

End ResourcesFacts.

(** ** More facts about [ProvisionManager] *)

Module ProvisionMore.
Import Stdlib.Strings.Ascii.
Import PyNum PyNumFacts PySeq PySeqFacts Provision ProvisionFacts Shutdown.

Section Sorted.
Context {A K : Type} (ltb : K -> K -> bool) (key : A -> K).

Lemma insert_sorted_perm (x : A) (l : list A) :
  insert_sorted ltb key x l ≡ₚ x :: l.
Proof.
  induction l as [| y l IH]; simpl; [reflexivity |].
  destruct (ltb (key y) (key x)); [| reflexivity].
  rewrite IH. apply Permutation_swap.
Qed.

Lemma sorted_perm (l : list A) : sorted ltb key l ≡ₚ l.
Proof.
  induction l as [| x l IH]; simpl; [reflexivity |].
  rewrite insert_sorted_perm, IH. reflexivity.
Qed.

End Sorted.

Lemma filter_all {A} (f : A -> bool) (l : list A) :
  (forall x, f x = true) -> List.filter f l = l.
Proof.
  intros Hf. induction l as [| x l IH]; simpl; [reflexivity |].
  rewrite Hf, IH. reflexivity.
Qed.

Lemma slice_to_all {A} (l : list A) : slice_to (Z.of_nat (length l)) l = l.
Proof.
  unfold slice_to.
  destruct (Z.leb_spec 0 (Z.of_nat (length l))) as [_ | H]; [| lia].
  rewrite Nat2Z.id. apply firstn_all.
Qed.

Lemma slice_to_length {A} (n : Z) (l : list A) :
  (0 <= n)%Z -> (Z.of_nat (length (slice_to n l)) <= n)%Z.
Proof.
  intros Hn. unfold slice_to.
  destruct (Z.leb_spec 0 n) as [_ | H]; [| lia].
  rewrite length_take. lia.
Qed.

Section Manager.
Context {Instance Cluster : Type}.
Variable private_ip_address : Instance -> string.
Variable _remainingBillingInterval : Instance -> Q.
Variable _getWorkersInCluster : Cluster -> bool -> list Instance.
Variable _addNodes : Cluster -> list Instance -> Z -> bool -> Z * Cluster.
Variable _logAndTerminate : Cluster -> list Instance -> Cluster.

Abbreviation nodes_to_terminate :=
  (nodes_to_terminate private_ip_address _remainingBillingInterval).
Abbreviation removeNodes :=
  (removeNodes private_ip_address _remainingBillingInterval _logAndTerminate).
Abbreviation set_node_count :=
  (set_node_count private_ip_address _remainingBillingInterval
     _getWorkersInCluster _addNodes _logAndTerminate).
Abbreviation shut_down :=
  (shut_down private_ip_address _remainingBillingInterval
     _getWorkersInCluster _addNodes _logAndTerminate).

Lemma nodes_to_terminate_forced resManager (instances : list Instance)
    preemptible :
  nodes_to_terminate resManager instances (Z.of_nat (length instances))
    preemptible true ≡ₚ instances.
Proof.
  unfold Provision.nodes_to_terminate. destruct resManager as [get_nodes |].
  - cbn [negb].
    rewrite (filter_all (keep_idle true)) by reflexivity.
    set (nodes := map _ instances).
    assert (Hlen : length (sorted pair_ltb
                     (sort_key _remainingBillingInterval) nodes)
                   = length instances).
    { rewrite sorted_length. unfold nodes. apply length_map. }
    rewrite <- Hlen, slice_to_all, sorted_perm. unfold nodes.
    rewrite map_map. cbn [fst]. rewrite map_id. reflexivity.
  - apply sorted_perm.
Qed.

(** A forced reduction to zero reports a count of 0: this is what
    [shut_down] checks. *)
Lemma set_node_count_zero resManager (m : manager) preemptible :
  fst (set_node_count resManager m 0 preemptible true) = 0%Z.
Proof.
  unfold Provision.set_node_count.
  set (workers := _getWorkersInCluster (cluster m) preemptible).
  destruct workers as [| w ws] eqn:Hw; [reflexivity |].
  set (n := Z.of_nat (length (w :: ws))).
  assert (Hn : (0 < n)%Z) by (unfold n; cbn [length]; lia).
  destruct (Z.ltb_spec 0 (0 - n)) as [H | _]; [lia |].
  destruct (Z.ltb_spec (0 - n) 0) as [_ | H]; [| lia].
  replace (- (0 - n))%Z with n by lia.
  unfold Provision.removeNodes. cbn [fst snd].
  pose proof (nodes_to_terminate_forced resManager (w :: ws) preemptible)
    as Hperm. fold n in Hperm.
  rewrite (Permutation_length Hperm). fold n. lia.
Qed.

(** X12.  A forced reduction to zero hands every worker of the class to
    [_logAndTerminate], in one call, and reports a count of 0, with or
    without a resource manager; with no worker it issues no call. *)
Theorem set_node_count_zero_forced resManager (m : manager) preemptible :
  let workers := _getWorkersInCluster (cluster m) preemptible in
  let r := set_node_count resManager m 0 preemptible true in
  fst r = 0%Z
  /\ exists victims,
       victims ≡ₚ workers
       /\ issued (snd r) =
            issued m ++ match victims with
                        | [] => []
                        | _ => [LogAndTerminate victims]
                        end.
Proof.
  cbv zeta. unfold Provision.set_node_count.
  set (workers := _getWorkersInCluster (cluster m) preemptible).
  destruct workers as [| w ws] eqn:Hw.
  - cbn. split; [reflexivity |]. exists []. split; [reflexivity |].
    rewrite app_nil_r. reflexivity.
  - set (n := Z.of_nat (length (w :: ws))).
    assert (Hn : (0 < n)%Z) by (unfold n; cbn [length]; lia).
    destruct (Z.ltb_spec 0 (0 - n)) as [H | _]; [lia |].
    destruct (Z.ltb_spec (0 - n) 0) as [_ | H]; [| lia].
    replace (- (0 - n))%Z with n by lia.
    unfold Provision.removeNodes. cbn [fst snd].
    pose proof (nodes_to_terminate_forced resManager (w :: ws) preemptible)
      as Hperm. fold n in Hperm.
    set (victims := nodes_to_terminate resManager (w :: ws) n preemptible true)
      in *.
    split.
    + rewrite (Permutation_length Hperm). fold n. lia.
    + exists victims. split; [exact Hperm |].
      destruct victims; [| reflexivity].
      apply Permutation_nil_l in Hperm. discriminate Hperm.
Qed.


(** X14.  When more workers are wanted than the cluster has, the only call
    issued is one request for the difference, nothing is terminated, and the
    count returned is the current one plus the number the provisioner
    reports as added. *)
Theorem set_node_count_grows resManager (m : manager) numNodes preemptible force :
  let workers := _getWorkersInCluster (cluster m) preemptible in
  let current := Z.of_nat (length workers) in
  (current < numNodes)%Z ->
  let r := set_node_count resManager m numNodes preemptible force in
  issued (snd r) = issued m ++ [AddNodes (numNodes - current) preemptible]
  /\ fst r = (current
              + fst (_addNodes (cluster m) workers (numNodes - current) preemptible))%Z.
Proof.
  cbv zeta. intros Hlt. unfold Provision.set_node_count.
  destruct (Z.ltb_spec 0 (numNodes
              - Z.of_nat (length (_getWorkersInCluster (cluster m) preemptible))))
    as [_ | H]; [| lia].
  unfold addNodes. cbn [fst snd issued]. split; reflexivity.
Qed.

(** X15.  With a resource manager, a reduction never terminates more nodes
    than asked for, and only workers of the cluster: the count returned is
    never below the desired one. *)
Theorem set_node_count_never_undershoots get_nodes (m : manager) numNodes
    preemptible force :
  let workers := _getWorkersInCluster (cluster m) preemptible in
  (0 <= numNodes < Z.of_nat (length workers))%Z ->
  let r := set_node_count (Some get_nodes) m numNodes preemptible force in
  (numNodes <= fst r)%Z
  /\ forall victims, In (LogAndTerminate victims) (issued (snd r)) ->
       In (LogAndTerminate victims) (issued m)
       \/ (Z.of_nat (length victims) <= Z.of_nat (length workers) - numNodes)%Z
          /\ forall i, In i victims -> In i workers.
Proof.
  cbv zeta. intros [H0 Hlt]. unfold Provision.set_node_count.
  set (workers := _getWorkersInCluster (cluster m) preemptible) in *.
  set (current := Z.of_nat (length workers)) in *.
  destruct (Z.ltb_spec 0 (numNodes - current)) as [H | _]; [lia |].
  destruct (Z.ltb_spec (numNodes - current) 0) as [_ | H]; [| lia].
  replace (- (numNodes - current))%Z with (current - numNodes)%Z by lia.
  unfold Provision.removeNodes. cbn [fst snd].
  set (victims := nodes_to_terminate (Some get_nodes) workers
                    (current - numNodes) preemptible force).
  assert (Hlen : (Z.of_nat (length victims) <= current - numNodes)%Z).
  { unfold victims, Provision.nodes_to_terminate.
    rewrite length_map. apply slice_to_length. lia. }
  assert (Hsub : forall i, In i victims -> In i workers).
  { unfold victims, Provision.nodes_to_terminate. intros i Hi.
    apply in_map_iff in Hi as [[i' o] [Heq Hi]]. cbn [fst] in Heq. subst i'.
    apply slice_to_In in Hi.
    assert (Hs : In (i, o) (sorted pair_ltb (sort_key _remainingBillingInterval)
                              (List.filter (keep_idle force)
                                 (map (fun instance =>
                                         (instance,
                                          get_nodes preemptible
                                            !! private_ip_address instance))
                                      workers)))).
    { destruct (negb force); [apply filter_In in Hi as [Hi _] |]; exact Hi. }
    apply sorted_In in Hs. apply filter_In in Hs as [Hs _].
    apply in_map_iff in Hs as [j [Heq Hj]]. injection Heq as -> _. exact Hj. }
  split; [lia |].
  intros vs Hvs. destruct victims as [| v victims'] eqn:Hv.
  - left. exact Hvs.
  - cbn [issued] in Hvs. apply in_app_or in Hvs as [Hvs | [Hvs | []]].
    + left. exact Hvs.
    + right. injection Hvs as <-. split; [exact Hlen | exact Hsub].
Qed.

End Manager.

Lemma set_node_count_grows_witness :
  (Z.of_nat (length (workers_in (cluster (fresh_manager two_busy_nodes)) false)) < 5)%Z
  /\ issued (snd (run_set_node_count None (fresh_manager two_busy_nodes) 5 false false))
     = [AddNodes 3 false]
  /\ fst (run_set_node_count None (fresh_manager two_busy_nodes) 5 false false) = 5%Z.
Proof.
  assert (H : (Z.of_nat (length (workers_in (cluster (fresh_manager two_busy_nodes))
                                   false)) < 5)%Z) by (vm_compute; reflexivity).
  split; [exact H |].
  exact (set_node_count_grows node_ip node_left workers_in launch shut None
           (fresh_manager two_busy_nodes) 5 false false H).
Defined.

Lemma set_node_count_never_undershoots_witness :
  (0 <= 1 < Z.of_nat (length (workers_in (cluster (fresh_manager two_busy_nodes))
                                false)))%Z
  /\ (1 <= fst (run_set_node_count (Some mixed_load)
                  (fresh_manager two_busy_nodes) 1 false false))%Z.
Proof.
  assert (H : (0 <= 1 < Z.of_nat (length (workers_in
                 (cluster (fresh_manager two_busy_nodes)) false)))%Z)
    by (vm_compute; split; [discriminate | reflexivity]).
  split; [exact H |].
  exact (proj1 (set_node_count_never_undershoots node_ip node_left workers_in
                  launch shut mixed_load (fresh_manager two_busy_nodes)
                  1 false false H)).
Defined.

End ProvisionMore.

(** ** Facts about the statistics file of [ProvisionManager] *)

Module ShutdownFacts.
Import Shutdown.

Lemma getFileName_from_unused fuel path_exists statsPath jobStore :
  forall counter fileName,
    getFileName_from fuel path_exists statsPath jobStore counter = Some fileName ->
    path_exists fileName = false.
Proof.
  induction fuel as [| fuel IH]; intros counter fileName; cbn [getFileName_from];
    [discriminate |].
  destruct (path_exists (stats_name statsPath jobStore counter)) eqn:He.
  - apply IH.
  - intros [= <-]. exact He.
Qed.

Lemma getFileName_from_first path_exists statsPath jobStore (n : nat) :
  forall fuel counter,
    (forall k, (k < n)%nat ->
       path_exists (stats_name statsPath jobStore (counter + k)) = true) ->
    path_exists (stats_name statsPath jobStore (counter + n)) = false ->
    getFileName_from (S (n + fuel)) path_exists statsPath jobStore counter
    = Some (stats_name statsPath jobStore (counter + n)).
Proof.
  induction n as [| n IH]; intros fuel counter Hused Hfree.
  - cbn [getFileName_from Nat.add]. rewrite Nat.add_0_r in Hfree.
    rewrite Hfree, Nat.add_0_r. reflexivity.
  - change (S (S n + fuel)) with (S (S (n + fuel))).
    remember (S (n + fuel)) as fuel' eqn:Hf. cbn [getFileName_from].
    pose proof (Hused 0%nat ltac:(lia)) as H0. rewrite Nat.add_0_r in H0.
    rewrite H0. subst fuel'.
    replace (counter + S n)%nat with (S counter + n)%nat in * by lia.
    apply IH; [| exact Hfree].
    intros k Hk. replace (S counter + k)%nat with (counter + S k)%nat by lia.
    apply Hused. lia.
Qed.

(** X16.  The name chosen for the statistics file is never the name of an
    existing file, and it carries the smallest counter whose name is free:
    when the names of the counters below [n] are taken and that of [n] is
    not, the name of [n] is returned. *)
Theorem getFileName_smallest_unused path_exists statsPath jobStore (n fuel : nat) :
  (forall k, (k < n)%nat -> path_exists (stats_name statsPath jobStore k) = true) ->
  path_exists (stats_name statsPath jobStore n) = false ->
  getFileName (S (n + fuel)) path_exists statsPath jobStore
  = Some (stats_name statsPath jobStore n)
  /\ forall fuel' fileName,
       getFileName fuel' path_exists statsPath jobStore = Some fileName ->
       path_exists fileName = false.
Proof.
  intros Hused Hfree. split.
  - apply (getFileName_from_first path_exists statsPath jobStore n fuel 0);
      assumption.
  - intros fuel' fileName. apply getFileName_from_unused.
Qed.

Lemma getFileName_smallest_unused_witness :
  let path_exists := fun f => String.eqb f "stats/job-stats000.json"
                              || String.eqb f "stats/job-stats001.json" in
  (forall k, (k < 2)%nat -> path_exists (stats_name "stats" "job" k) = true)
  /\ path_exists (stats_name "stats" "job" 2) = false
  /\ getFileName 3 path_exists "stats" "job" = Some "stats/job-stats002.json".
Proof.
  cbv zeta.
  set (path_exists := fun f => String.eqb f "stats/job-stats000.json"
                               || String.eqb f "stats/job-stats001.json").
  assert (Hused : forall k, (k < 2)%nat ->
            path_exists (stats_name "stats" "job" k) = true).
  { intros k Hk. destruct k as [| [| k]]; [reflexivity | reflexivity | lia]. }
  split; [exact Hused |]. split; [reflexivity |].
  exact (proj1 (getFileName_smallest_unused path_exists "stats" "job" 2 0
                  Hused eq_refl)).
Defined.

End ShutdownFacts.

(** ** More facts about [Engine.create] *)

Module FleetMore.
Import Fleet FleetFacts FleetInvariant.

Lemma keeps_ret P {A} (a : A) : keeps P (ret a).
Proof. intros f r f' HP [= _ <-]. exact HP. Qed.

Lemma keeps_raise P {A} (e : exn) : keeps P (raise (A := A) e).
Proof. intros f r f' HP [= _ <-]. exact HP. Qed.

Lemma keeps_lift P {A} (x : result A) : keeps P (lift x).
Proof. intros f r f' HP [= _ <-]. exact HP. Qed.

Lemma keeps_get_frame P : keeps P get_frame.
Proof. intros f r f' HP [= _ <-]. exact HP. Qed.

Lemma keeps_diverge P {A} : keeps P (diverge (A := A)).
Proof. intros f r f' HP H. discriminate H. Qed.

Lemma keeps_bind P {A B} (m : M A) (k : A -> M B) :
  keeps P m -> (forall a, keeps P (k a)) -> keeps P (bind m k).
Proof.
  intros Hm Hk f r f' HP. unfold bind.
  destruct (m f) as [[[a | e] f1] |] eqn:Hmf; [| | discriminate].
  - apply (Hk a). apply (Hm f (Ok a) f1 HP Hmf).
  - intros [= _ <-]. apply (Hm f (Raise e) f1 HP Hmf).
Qed.

Lemma keeps_for_each P {A} (l : list A) (body : A -> M unit) :
  (forall x, keeps P (body x)) -> keeps P (for_each l body).
Proof.
  intros Hb. induction l as [| x l IH]; cbn [for_each].
  - apply keeps_ret.
  - apply keeps_bind; [apply Hb | intros _; exact IH].
Qed.

Lemma terminated_log (cs : list call) (f : frame) :
  terminated (log_calls cs f)
  = terminated f ++ omap (fun c => match c with Terminate i => Some i | _ => None end) cs.
Proof. unfold terminated, log_calls. cbn [calls]. apply omap_app. Qed.

(** A call other than a tagging or a termination leaves the binding as it
    is. *)
Lemma keeps_issue_other (c : call) :
  (forall i, c <> Terminate i) -> (forall i, c <> CreateTags i) ->
  keeps binding (issue c).
Proof.
  intros Hterm Htag f r f' [Ht Hp] [= _ <-]. split.
  - rewrite terminated_log, Ht. destruct c; try reflexivity.
    exfalso. apply (Hterm inst_id). reflexivity.
  - intros i. cbn [log_calls pending_ids calls]. rewrite Hp, in_app_iff.
    split; [tauto |]. intros [H | [H | []]]; [exact H |].
    exfalso. apply (Htag i). exact H.
Qed.

Section WithService.
Variable env : Service.

Lemma keeps_wait_loop fuel spot_req_id :
  forall count_tries, keeps binding (wait_loop env fuel spot_req_id count_tries).
Proof.
  induction fuel as [| fuel IH]; intros count_tries; cbn [wait_loop].
  - apply keeps_diverge.
  - destruct (count_tries <? 10)%Z; [| apply keeps_ret].
    apply keeps_bind; [apply keeps_get_frame |]. intros f0.
    apply keeps_bind; [apply keeps_issue_other; discriminate |]. intros _.
    apply keeps_bind; [apply keeps_lift |]. intros resp.
    destruct (scan_requests resp count_tries);
      [apply keeps_ret | apply keeps_raise | apply IH].
Qed.

Lemma keeps_store_instance (instance : string) :
  keeps binding (store_instance env instance).
Proof.
  intros f r f' [Ht Hp].
  unfold store_instance, embed, bind, issue, lift.
  destruct (create_tags env instance) as [[] | e]; intros [= _ <-].
  all: split;
    [ unfold terminated in *; cbn [log_calls calls]; rewrite omap_app, Ht;
      reflexivity
    | intros i; cbn [log_calls pending_ids calls];
      rewrite elem_of_union, elem_of_singleton, Hp, in_app_iff;
      split; [intros [-> | H]; [right; left; reflexivity | left; exact H]
             | intros [H | [[= ->] | []]]; [right; exact H | left; reflexivity]] ].
Qed.

Lemma keeps_launch_specification arguments :
  keeps binding (launch_specification env arguments).
Proof.
  unfold launch_specification.
  apply keeps_bind; [apply keeps_issue_other; discriminate |]. intros _.
  apply keeps_bind; [apply keeps_lift |]. intros keyName.
  apply keeps_bind; [apply keeps_lift |]. intros ebsopt.
  apply keeps_bind; [apply keeps_lift |]. intros placement.
  apply keeps_ret.
Qed.

Lemma keeps_submit fuel arguments user_text :
  keeps binding (submit env fuel arguments user_text).
Proof.
  assert (Hod : keeps binding (submit_on_demand env arguments user_text)).
  { unfold submit_on_demand.
    apply keeps_bind; [destruct user_text; [apply keeps_ret | apply keeps_raise] |].
    intros _. apply keeps_bind; [apply keeps_issue_other; discriminate |].
    intros _. apply keeps_bind; [apply keeps_lift |]. intros instances.
    apply keeps_for_each. apply keeps_store_instance. }
  unfold submit. destruct (BidPrice arguments) as [price |]; [| exact Hod].
  destruct (truthy (Some price)); [| exact Hod].
  unfold submit_spot.
  apply keeps_bind; [destruct user_text; [apply keeps_ret | apply keeps_raise] |].
  intros _. apply keeps_bind; [apply keeps_launch_specification |].
  intros _. apply keeps_bind; [apply keeps_issue_other; discriminate |].
  intros _. apply keeps_bind; [apply keeps_lift |]. intros instances.
  apply keeps_for_each. intros spot.
  apply keeps_bind; [apply keeps_wait_loop |]. intros inst_id.
  apply keeps_bind;
    [destruct inst_id; [apply keeps_ret | apply keeps_raise] |].
  intros inst. apply keeps_store_instance.
Qed.

Lemma keeps_quiet_issue (c : call) :
  (forall i, c <> Terminate i) -> keeps (fun f => terminated f = []) (issue c).
Proof.
  intros Hterm f r f' Ht [= _ <-]. rewrite terminated_log, Ht.
  destruct c; try reflexivity. exfalso. apply (Hterm inst_id). reflexivity.
Qed.

Lemma keeps_waitForOpenPort fuel inst :
  keeps (fun f => terminated f = []) (waitForOpenPort env fuel inst).
Proof.
  induction fuel as [| fuel IH]; cbn [waitForOpenPort]; [apply keeps_diverge |].
  apply keeps_bind; [apply keeps_get_frame |]. intros f0.
  apply keeps_bind; [apply keeps_quiet_issue; discriminate |]. intros _.
  destruct (connect_ex env inst _); [apply keeps_ret | exact IH].
Qed.

Lemma keeps_await_ready fuel inst :
  keeps (fun f => terminated f = []) (await_ready env fuel inst).
Proof.
  unfold await_ready.
  apply keeps_bind; [apply keeps_quiet_issue; discriminate |]. intros _.
  apply keeps_bind; [apply keeps_lift |]. intros _.
  apply keeps_waitForOpenPort.
Qed.

Lemma user_text_of_frame user_data (f : frame) :
  exists r, user_text_of env user_data f = Some (r, f).
Proof.
  unfold user_text_of. destruct user_data as [[| a path] |];
    [eexists; reflexivity | | eexists; reflexivity].
  unfold bind, lift. destruct (read_file env (String a path));
    eexists; reflexivity.
Qed.

(** The rollback loop ends in the frame it started from, with a terminate
    call for the first ids of the list, all of them when it ends normally. *)
Lemma for_each_terminate_calls (l : list string) :
  forall f r f',
    for_each l (terminate env) f = Some (r, f') ->
    exists l', f' = log_calls (map Terminate l') f
               /\ (forall i, In i l' -> In i l)
               /\ (r = Ok tt -> l' = l).
Proof.
  induction l as [| i l IH]; intros f r f'; cbn [for_each].
  - intros [= <- <-]. exists []. rewrite log_calls_nil. auto.
  - unfold bind at 1. unfold terminate at 1, bind, issue, lift.
    destruct (terminate_instance env i) as [[] | e].
    + intros H. apply IH in H as [l' [-> [Hsub Hall]]].
      exists (i :: l'). rewrite log_calls_cons. split; [reflexivity |].
      split; [intros j [<- | Hj]; [left | right; apply Hsub]; auto |].
      intros Hr. rewrite (Hall Hr). reflexivity.
    + intros [= <- <-]. exists [i]. split; [reflexivity |].
      split; [intros j [<- | []]; left; reflexivity | discriminate].
Qed.

Lemma terminated_map_Terminate (l : list string) (f : frame) :
  terminated (log_calls (map Terminate l) f) = terminated f ++ l.
Proof.
  rewrite terminated_log. f_equal.
  induction l as [| i l IH]; [reflexivity |]. cbn. rewrite IH. reflexivity.
Qed.

(** How [create] ends, from the frame in which the body of [try] ended. *)
Lemma create_outcome fuel self0 arguments terminate_on_error ordinal user_data
    r f :
  create env fuel self0 arguments terminate_on_error ordinal user_data
    = Some (r, f) ->
  terminated f = []
  \/ exists f' l',
       binding f'
       /\ terminate_on_error = true
       /\ (exists e, r = Raise e)
       /\ f = log_calls (map Terminate l') f'
       /\ (forall i, In i l' -> In i (elements (pending_ids f')))
       /\ ((forall i, terminate_instance env i = Ok tt) ->
           l' = elements (pending_ids f') /\ r = Raise ClientError).
Proof.
  unfold create, create_body.
  set (f0 := {| self := self0; pending_ids := ∅; engines := [];
                next_ordinal := ordinal; calls := [] |}).
  assert (H0 : binding f0).
  { split; [reflexivity |]. intros i. cbn. rewrite elem_of_empty. tauto. }
  unfold bind at 1.
  destruct (user_text_of_frame user_data f0) as [ru Hu]. rewrite Hu.
  destruct ru as [user_text | e]; [| intros [= _ <-]; left; apply H0].
  destruct (submit env fuel arguments user_text f0) as [[[[] | e] f1] |] eqn:Hs;
    [| | discriminate].
  - (* the instances are bound: the wait for readiness *)
    pose proof (keeps_submit fuel arguments user_text f0 _ f1 H0 Hs) as [Ht _].
    intros H. left.
    assert (Hk : keeps (fun f => terminated f = [])
                   (do! _ <- for_each (engines f1) (await_ready env fuel);
                    do! f'' <- get_frame; ret (engines f''))).
    { apply keeps_bind; [apply keeps_for_each; intros x; apply keeps_await_ready |].
      intros _. apply keeps_bind; [apply keeps_get_frame | intros; apply keeps_ret]. }
    exact (Hk f1 r f Ht H).
  - pose proof (keeps_submit fuel arguments user_text f0 _ f1 H0 Hs) as Hb.
    destruct e; try (intros [= _ <-]; left; apply Hb).
    (* ClientError: the handler *)
    unfold on_client_error. destruct terminate_on_error.
    + unfold bind, get_frame.
      destruct (for_each (elements (pending_ids f1)) (terminate env) f1)
        as [[[[] | e] f2] |] eqn:Hloop; [| | discriminate].
      * unfold raise. intros [= <- <-].
        apply for_each_terminate_calls in Hloop as [l' [-> [Hsub Hall]]].
        right. exists f1, l'. split; [exact Hb |]. split; [reflexivity |].
        split; [eexists; reflexivity |]. split; [reflexivity |].
        split; [exact Hsub |]. intros _. split; [apply Hall |]; reflexivity.
      * intros [= <- <-].
        pose proof Hloop as Hloop'.
        apply for_each_terminate_calls in Hloop as [l' [-> [Hsub Hall]]].
        right. exists f1, l'. split; [exact Hb |]. split; [reflexivity |].
        split; [eexists; reflexivity |]. split; [reflexivity |].
        split; [exact Hsub |]. intros Hok.
        rewrite (for_each_terminate env _ f1 Hok) in Hloop'. discriminate Hloop'.
    + unfold bind, get_frame, pending_remove, raise.
      destruct (instance_id (self f1)) as [i |];
        [destruct (decide (i ∈ pending_ids f1)) |];
        intros [= _ <-]; left; apply Hb.
Qed.


(** X18.  When the provider accepts every terminate call, [create] rolls
    back all or nothing: either no instance is terminated, or
    [terminate_on_error] is true, [ClientError] is raised again and each
    pending instance is terminated exactly once. *)
Theorem create_rolls_back_all_or_nothing fuel self0 arguments
    terminate_on_error ordinal user_data r f :
  (forall i, terminate_instance env i = Ok tt) ->
  create env fuel self0 arguments terminate_on_error ordinal user_data
    = Some (r, f) ->
  terminated f = []
  \/ (terminate_on_error = true /\ r = Raise ClientError
      /\ terminated f = elements (pending_ids f)
      /\ NoDup (terminated f)).
Proof.
  intros Hok Hc. apply create_outcome in Hc as [Hnone | Hroll];
    [left; exact Hnone | right].
  destruct Hroll as (f' & l' & [Ht Hp] & Htoe & _ & -> & _ & Hall).
  destruct (Hall Hok) as [-> ->].
  split; [exact Htoe |]. split; [reflexivity |].
  rewrite terminated_map_Terminate, Ht. cbn [app log_calls pending_ids].
  split; [reflexivity | apply NoDup_elements].
Qed.

(** X19.  Without [user_data] (none, or an empty path) [create] raises
    [UnboundLocalError] before any call reaches the provider: [user_text] is
    read in the request but bound only under [if user_data]. *)
Theorem create_needs_user_data fuel self0 arguments terminate_on_error ordinal :
  let f0 := {| self := self0; pending_ids := ∅; engines := [];
               next_ordinal := ordinal; calls := [] |} in
  create env fuel self0 arguments terminate_on_error ordinal None
    = Some (Raise UnboundLocalError, f0)
  /\ create env fuel self0 arguments terminate_on_error ordinal (Some EmptyString)
     = Some (Raise UnboundLocalError, f0).
Proof.
  cbv zeta. unfold create, create_body, user_text_of, submit.
  split; destruct (BidPrice arguments) as [price |];
    try destruct (truthy (Some price)); reflexivity.
Qed.

Lemma last_default {A} (x y : A) (l : list A) (d d' : A) :
  List.last (y :: x :: l) d = List.last (x :: l) d'.
Proof.
  cbn [List.last]. revert x. induction l as [| z l IH]; intros x; [reflexivity |].
  cbn [List.last] in *. apply IH.
Qed.

Lemma for_each_store (ids : list string) :
  (forall i, create_tags env i = Ok tt) ->
  forall f,
    exists f',
      for_each ids (store_instance env) f = Some (Ok tt, f')
      /\ engines f' = engines f ++ ids
      /\ pending_ids f' = list_to_set ids ∪ pending_ids f
      /\ calls f' = calls f ++ map CreateTags ids
      /\ next_ordinal f' = (next_ordinal f + Z.of_nat (length ids))%Z
      /\ instance (self f') = List.last (map Some ids) (instance (self f)).
Proof.
  intros Htags. induction ids as [| i ids IH]; intros f; cbn [for_each].
  - exists f. unfold ret. rewrite !app_nil_r. cbn.
    split; [reflexivity |]. split; [reflexivity |]. split; [set_solver |].
    split; [reflexivity |]. split; [lia | reflexivity].
  - unfold bind at 1. unfold store_instance at 1, embed, bind, issue, lift.
    rewrite Htags.
    match goal with
    | |- context [for_each ids (store_instance env) ?g] =>
        destruct (IH g) as (f' & Hrun & He & Hp & Hc & Hn & Hi)
    end.
    exists f'. rewrite Hrun. split; [reflexivity |].
    cbn [engines pending_ids calls next_ordinal self instance log_calls] in *.
    split; [rewrite He, <- app_assoc; reflexivity |].
    split; [rewrite Hp; cbn [list_to_set]; set_solver |].
    split; [rewrite Hc, <- app_assoc; reflexivity |].
    split; [rewrite Hn; cbn [length]; lia |].
    rewrite Hi. cbn [map]. destruct ids as [| j ids']; [reflexivity |].
    cbn [map]. symmetry. apply last_default.
Qed.

Lemma for_each_ready (ids : list string) (fuel : nat) :
  (forall i, wait_until_running env i = Ok tt) ->
  (forall i n, connect_ex env i n = true) ->
  forall f,
    exists f',
      for_each ids (await_ready env (S fuel)) f = Some (Ok tt, f')
      /\ engines f' = engines f /\ pending_ids f' = pending_ids f
      /\ self f' = self f /\ terminated f' = terminated f
      /\ tagged f' = tagged f /\ next_ordinal f' = next_ordinal f.
Proof.
  intros Hrun Hport. induction ids as [| i ids IH]; intros f; cbn [for_each].
  - exists f. unfold ret. repeat split; reflexivity.
  - unfold bind at 1. unfold await_ready at 1. cbn [waitForOpenPort].
    unfold bind, issue, lift, get_frame. rewrite Hrun, Hport. unfold ret.
    match goal with
    | |- context [for_each ids (await_ready env (S fuel)) ?g] =>
        destruct (IH g) as (f' & Hgo & He & Hp & Hs & Ht & Hg & Hn)
    end.
    exists f'. rewrite Hgo. split; [reflexivity |].
    rewrite He, Hp, Hs, Ht, Hg, Hn. unfold terminated, tagged.
    cbn [engines pending_ids self calls log_calls next_ordinal].
    rewrite !omap_app. cbn. rewrite !app_nil_r. repeat split; reflexivity.
Qed.


End WithService.



Lemma create_rolls_back_all_or_nothing_witness :
  (forall i, terminate_instance third_refused i = Ok tt)
  /\ exists f,
       create third_refused 0 unbound on_demand_plan true 0 (Some "boot.sh")
         = Some (Raise ClientError, f)
       /\ (terminated f = []
           \/ (true = true /\ Raise ClientError = Raise (A := list string) ClientError
               /\ terminated f = elements (pending_ids f)
               /\ NoDup (terminated f))).
Proof.
  assert (Hok : forall i, terminate_instance third_refused i = Ok tt)
    by (intros i; reflexivity).
  split; [exact Hok |].
  eexists. split; [vm_compute; reflexivity |].
  refine (create_rolls_back_all_or_nothing third_refused 0 unbound on_demand_plan
            true 0 (Some "boot.sh") _ _ Hok _).
  vm_compute. reflexivity.
Defined.

End FleetMore.

(** ** Sorted output of [sorted] *)

Module SortedFacts.
Import PySeq PySeqFacts.

Section Keyed.
Context {A K : Type} (ltb : K -> K -> bool) (key : A -> K).
Hypothesis ltb_asym : forall a b, ltb a b = true -> ltb b a = false.
Hypothesis geb_trans :
  forall a b c, ltb b a = false -> ltb c b = false -> ltb c a = false.

Abbreviation before := (Ranking.before ltb key).

Lemma insert_sorted_sorted (x : A) (l : list A) :
  StronglySorted before l -> StronglySorted before (insert_sorted ltb key x l).
Proof.
  induction l as [| y l IH]; intros Hs; cbn [insert_sorted].
  - repeat constructor.
  - apply StronglySorted_inv in Hs as [Hl Hy].
    destruct (ltb (key y) (key x)) eqn:Hyx.
    + constructor; [apply IH; exact Hl |].
      apply List.Forall_forall. intros z Hz.
      apply insert_sorted_In in Hz as [-> | Hz].
      * apply ltb_asym. exact Hyx.
      * rewrite List.Forall_forall in Hy. apply Hy. exact Hz.
    + constructor; [constructor; assumption |].
      constructor; [exact Hyx |].
      rewrite List.Forall_forall in Hy |- *. intros z Hz.
      unfold Ranking.before in *. eapply geb_trans; [exact Hyx | apply Hy; exact Hz].
Qed.

Lemma sorted_sorted (l : list A) : StronglySorted before (sorted ltb key l).
Proof.
  induction l as [| x l IH]; cbn; [constructor |].
  apply insert_sorted_sorted. exact IH.
Qed.

End Keyed.

Lemma StronglySorted_weaken {A} (R S : A -> A -> Prop) (l : list A) :
  (forall a b, R a b -> S a b) -> StronglySorted R l -> StronglySorted S l.
Proof.
  intros HRS Hs. induction Hs as [| a l Hs IH Ha]; constructor; [exact IH |].
  rewrite List.Forall_forall in Ha |- *. intros b Hb. apply HRS, Ha, Hb.
Qed.

End SortedFacts.

(** ** More facts about the spot bidding *)

Module SpotMore.
Import PyNum PyNumFacts PySeq PySeqFacts Utils Spot SpotFacts.
Import ProvisionMore SortedFacts.
Local Open Scope Q_scope.

(** X21.  [__get_spot_history] returns the records of the provider, all of
    them and nothing else, the most recent first. *)
Theorem get_spot_history_most_recent_first (env : Ec2Client) :
  get_spot_history env ≡ₚ describe_spot_price_history env
  /\ StronglySorted (fun a b => (Timestamp b <= Timestamp a)%Z)
                    (get_spot_history env).
Proof.
  unfold get_spot_history, sorted_reverse. split; [apply sorted_perm |].
  eapply StronglySorted_weaken;
    [| apply (sorted_sorted (fun a b => Z.ltb b a) Timestamp)].
  - intros a b H. unfold Ranking.before in H. apply Z.ltb_ge in H. exact H.
  - intros a b H. apply Z.ltb_lt in H. apply Z.ltb_ge. lia.
  - intros a b c H1 H2. apply Z.ltb_ge in H1, H2. apply Z.ltb_ge. lia.
Qed.

Lemma rounded_prices_nil hist : rounded_prices hist = [] <-> hist = [].
Proof. unfold rounded_prices. destruct hist; split; discriminate || reflexivity. Qed.

Lemma zone_loop_total spot_hist bid zones :
  forall zone_hists under over,
    exists under' over',
      zone_loop spot_hist bid zones zone_hists under over = Ok (under', over')
      /\ (length under' + length over'
          = length under + length over + length zones)%nat.
Proof.
  induction zones as [| zone zones IH]; intros zone_hists under over;
    cbn [zone_loop].
  - exists under, over. split; [reflexivity | cbn; lia].
  - set (zh := zone_hists ++ _).
    assert (Hpr : exists pr,
              match zh with
              | [] => Ok (Sqrt 0, bid)
              | zh0 :: _ =>
                  try! price_dev <- std_dev (rounded_prices zh);
                  Ok (price_dev, round4 (SpotPrice zh0))
              end = Ok pr).
    { destruct zh as [| zh0 zh']; [eexists; reflexivity |].
      unfold std_dev. cbn [rounded_prices map mean rbind]. eexists; reflexivity. }
    destruct Hpr as [pr ->]. cbn [rbind].
    destruct (Qltb (snd pr) bid).
    + destruct (IH zh (under ++ [{| name := zone; price_deviation := fst pr |}])
                  over) as (u & o & -> & Hlen).
      exists u, o. split; [reflexivity |].
      rewrite length_app in Hlen. cbn in *. lia.
    + destruct (IH zh under
                  (over ++ [{| name := zone; price_deviation := fst pr |}]))
        as (u & o & -> & Hlen).
      exists u, o. split; [reflexivity |].
      rewrite length_app in Hlen. cbn in *. lia.
Qed.

Lemma correct_bid_lower bid sm avg : sm <= avg -> sm <= correct_bid bid sm avg.
Proof.
  intros Hsm. unfold correct_bid. change (inject_Z (25 / 100)) with 0.
  destruct (Qltb (avg * 2) bid).
  - destruct (Qleb (avg + 0 * avg) sm) eqn:H; [lra |].
    assert (~ avg + 0 * avg <= sm) by (rewrite <- Qleb_le, H; discriminate). lra.
  - destruct (Qleb bid sm) eqn:H; [lra |].
    assert (~ bid <= sm) by (rewrite <- Qleb_le, H; discriminate). lra.
Qed.

(** X22.  How [__optimize_spot_bid] ends, for every answer of the provider and
    every bid: with no availability zone it raises [ValueError]; with zones
    but an empty price history it raises [TypeError]; otherwise it returns
    one of the zones it was given and a bid that is never below the lowest
    price of the history and, when the average price is positive, never
    above twice that average. *)
Theorem optimize_spot_bid_outcome (env : Ec2Client) (bid : Q) :
  let zones := describe_availability_zones env in
  let history := describe_spot_price_history env in
  match optimize_spot_bid env bid with
  | Ok (zone, bid') =>
      In zone zones /\ history <> []
      /\ exists sm avg,
           check_spot_prices (get_spot_history env) = Some (sm, avg)
           /\ sm <= bid'
           /\ (0 < avg -> bid' <= 2 * avg)
  | Raise ValueError => zones = []
  | Raise TypeError => zones <> [] /\ history = []
  | Raise _ => False
  end.
Proof.
  cbv zeta.
  destruct (optimize_spot_bid env bid) as [[zone bid'] | e] eqn:Hopt.
  - split; [eapply optimize_spot_bid_zone_listed; exact Hopt |].
    destruct (optimize_spot_bid_bound env bid zone bid' Hopt)
      as (sm & avg & Hcheck & Hb).
    split.
    { intros Hnil. unfold get_spot_history, sorted_reverse in Hcheck.
      rewrite Hnil in Hcheck. discriminate Hcheck. }
    exists sm, avg. split; [exact Hcheck |]. split; [| exact Hb].
    pose proof (check_spot_prices_min_le_avg _ _ _ Hcheck) as Hle.
    unfold optimize_spot_bid in Hopt. cbv zeta in Hopt.
    destruct (zone_loop _ _ _ _ _ _) as [markets | e]; [| discriminate Hopt].
    cbn [rbind] in Hopt.
    destruct (py_min _ _ _) as [stable | e]; [| discriminate Hopt].
    cbn [rbind] in Hopt. rewrite Hcheck in Hopt. injection Hopt as _ <-.
    apply correct_bid_lower. exact Hle.
  - unfold optimize_spot_bid in Hopt. cbv zeta in Hopt.
    destruct (zone_loop_total (get_spot_history env) bid
                (describe_availability_zones env) [] [] [])
      as (under & over & Hloop & Hlen).
    rewrite Hloop in Hopt. cbn [rbind fst snd] in Hopt.
    destruct (describe_availability_zones env) as [| z zs] eqn:Hz.
    + cbn in Hlen.
      destruct under; [| cbn in Hlen; lia]. destruct over; [| cbn in Hlen; lia].
      cbn in Hopt. injection Hopt as <-. reflexivity.
    + assert (Hsome : exists stable,
                py_min dev_ltb price_deviation
                  match under with [] => over | _ :: _ => under end = Ok stable).
      { destruct under as [| u under]; [| eexists; reflexivity].
        destruct over as [| o over]; [cbn in Hlen; lia | eexists; reflexivity]. }
      destruct Hsome as [stable Hmin]. rewrite Hmin in Hopt. cbn [rbind] in Hopt.
      destruct (check_spot_prices (get_spot_history env)) as [[sm avg] |] eqn:Hc;
        [discriminate |].
      injection Hopt as <-. split; [discriminate |].
      unfold check_spot_prices in Hc. cbv zeta in Hc.
      destruct (rounded_prices (get_spot_history env)) as [| p ps] eqn:Hp;
        [| discriminate Hc].
      apply rounded_prices_nil in Hp.
      pose proof (sorted_length (fun a b => Z.ltb b a) Timestamp
                    (describe_spot_price_history env)) as Hl.
      unfold get_spot_history, sorted_reverse in Hp. rewrite Hp in Hl.
      destruct (describe_spot_price_history env); [reflexivity | discriminate Hl].
Qed.

End SpotMore.

(** ** The order in which a reduction picks its victims *)

Module RankingFacts.
Import PyNum PyNumFacts PySeq PySeqFacts Provision ProvisionFacts.
Import ResourcesFacts SortedFacts Ranking.
Local Open Scope Q_scope.

Lemma pair_ltb_asym (a b : Z * Q) : pair_ltb a b = true -> pair_ltb b a = false.
Proof.
  unfold pair_ltb.
  destruct (Z.ltb_spec (fst a) (fst b)), (Z.ltb_spec (fst b) (fst a));
    try lia; try discriminate; try reflexivity.
  intros Hq. apply Qltb_lt in Hq. apply Qltb_ge. lra.
Qed.

Lemma pair_geb_trans (a b c : Z * Q) :
  pair_ltb b a = false -> pair_ltb c b = false -> pair_ltb c a = false.
Proof.
  unfold pair_ltb.
  destruct (Z.ltb_spec (fst b) (fst a)), (Z.ltb_spec (fst a) (fst b)),
           (Z.ltb_spec (fst c) (fst b)), (Z.ltb_spec (fst b) (fst c)),
           (Z.ltb_spec (fst c) (fst a)), (Z.ltb_spec (fst a) (fst c));
    try lia; try discriminate; try reflexivity.
  intros Hq1 Hq2. apply Qltb_ge in Hq1, Hq2. apply Qltb_ge. lra.
Qed.

Lemma StronglySorted_filter {A} (R : A -> A -> Prop) (f : A -> bool) (l : list A) :
  StronglySorted R l -> StronglySorted R (List.filter f l).
Proof.
  intros Hs. induction Hs as [| a l Hs IH Ha]; cbn; [constructor |].
  destruct (f a); [| exact IH]. constructor; [exact IH |].
  rewrite List.Forall_forall in Ha |- *. intros b Hb.
  apply filter_In in Hb as [Hb _]. apply Ha, Hb.
Qed.

Lemma StronglySorted_app_order {A} (R : A -> A -> Prop) (l1 l2 : list A) x y :
  StronglySorted R (l1 ++ l2) -> In x l1 -> In y l2 -> R x y.
Proof.
  induction l1 as [| a l1 IH]; intros Hs Hx Hy; [destruct Hx |].
  cbn in Hs. apply StronglySorted_inv in Hs as [Hs Ha].
  destruct Hx as [<- | Hx]; [| apply IH; assumption].
  rewrite List.Forall_forall in Ha. apply Ha. apply in_or_app. right. exact Hy.
Qed.

Section Manager.
Context {Instance : Type}.
Variable private_ip_address : Instance -> string.
Variable _remainingBillingInterval : Instance -> Q.

Abbreviation nodes_to_terminate :=
  (nodes_to_terminate private_ip_address _remainingBillingInterval).
Abbreviation rank := (rank private_ip_address _remainingBillingInterval).
Abbreviation eligible := (eligible private_ip_address _remainingBillingInterval).

(** X23.  With a resource manager, the victims of a reduction are the best
    ranked of the eligible workers, the rank being the number of active
    workers and then the part of the paid hour that is left: a worker that
    passes the filters and is spared never ranks strictly before a worker
    that is terminated. *)
Theorem removeNodes_takes_the_best_ranked get_nodes (instances : list Instance)
    numNodes preemptible force (v j : Instance) :
  (0 <= numNodes)%Z ->
  let nodes := get_nodes preemptible in
  let victims :=
    nodes_to_terminate (Some get_nodes) instances numNodes preemptible force in
  In v victims ->
  In j instances -> eligible force nodes j -> ~ In j victims ->
  pair_ltb (rank nodes j) (rank nodes v) = false.
Proof.
  intros Hn nodes victims Hv Hj [Hidle Hleft] Hspared.
  unfold victims, Provision.nodes_to_terminate in Hv, Hspared.
  fold nodes in Hv, Hspared.
  set (joined := map (fun instance =>
                        (instance, nodes !! private_ip_address instance))
                     instances) in *.
  set (L := sorted pair_ltb (sort_key _remainingBillingInterval)
              (List.filter (keep_idle force) joined)) in *.
  set (L' := if negb force
             then List.filter
                    (fun nodeTuple =>
                       Qleb (_remainingBillingInterval (fst nodeTuple)) (15 # 100))
                    L
             else L) in *.
  assert (HsL : StronglySorted
                  (before pair_ltb (sort_key _remainingBillingInterval)) L).
  { apply sorted_sorted; [apply pair_ltb_asym | apply pair_geb_trans]. }
  assert (HsL' : StronglySorted
                   (before pair_ltb (sort_key _remainingBillingInterval)) L').
  { unfold L'. destruct (negb force); [apply StronglySorted_filter |]; exact HsL. }
  assert (Hjoin : forall i o, In (i, o) L' -> o = nodes !! private_ip_address i).
  { intros i o Hin.
    assert (HinL : In (i, o) L).
    { unfold L' in Hin. destruct (negb force);
        [apply filter_In in Hin as [Hin _] |]; exact Hin. }
    apply sorted_In in HinL. apply filter_In in HinL as [HinL _].
    apply in_map_iff in HinL as [i' [Heq _]]. injection Heq as -> <-. reflexivity. }
  assert (HjL' : In (j, nodes !! private_ip_address j) L').
  { assert (HjL : In (j, nodes !! private_ip_address j) L).
    { apply sorted_In. apply filter_In. split; [| exact Hidle].
      apply in_map_iff. exists j. split; [reflexivity | exact Hj]. }
    unfold L'. destruct force; cbn [negb]; [exact HjL |].
    apply filter_In. split; [exact HjL |]. cbn [fst]. apply Hleft. reflexivity. }
  unfold slice_to in Hv, Hspared.
  destruct (Z.leb_spec 0 numNodes) as [_ | Hneg]; [| lia].
  set (k := Z.to_nat numNodes) in *.
  apply in_map_iff in Hv as [[v' o] [Heq Hv]]. cbn [fst] in Heq. subst v'.
  rewrite <- (take_drop k L') in HsL', HjL'.
  apply in_app_or in HjL' as [Htake | Hdrop].
  - exfalso. apply Hspared. apply in_map_iff.
    exists (j, nodes !! private_ip_address j). split; [reflexivity | exact Htake].
  - pose proof (StronglySorted_app_order _ _ _ _ _ HsL' Hv Hdrop) as Hord.
    unfold before, sort_key in Hord. cbn [fst snd] in Hord.
    assert (Ho : o = nodes !! private_ip_address v).
    { apply Hjoin. rewrite <- (take_drop k L'). apply in_or_app. left. exact Hv. }
    subst o. exact Hord.
Qed.

End Manager.

Lemma removeNodes_takes_the_best_ranked_witness :
  let n1 := {| node_id := "i-1"; node_ip := "10.0.0.1"; node_left := 1 # 10;
               node_preemptible := false |} in
  let n2 := {| node_id := "i-2"; node_ip := "10.0.0.2"; node_left := 1 # 20;
               node_preemptible := false |} in
  (0 <= 1)%Z
  /\ In n2 (Provision.nodes_to_terminate node_ip node_left (Some mixed_load)
              two_busy_nodes 1 false false)
  /\ In n1 two_busy_nodes
  /\ Ranking.eligible node_ip node_left false (mixed_load false) n1
  /\ ~ In n1 (Provision.nodes_to_terminate node_ip node_left (Some mixed_load)
                two_busy_nodes 1 false false)
  /\ pair_ltb (Ranking.rank node_ip node_left (mixed_load false) n1)
              (Ranking.rank node_ip node_left (mixed_load false) n2) = false.
Proof.
  cbv zeta.
  set (n1 := {| node_id := "i-1"; node_ip := "10.0.0.1"; node_left := 1 # 10;
                node_preemptible := false |}).
  set (n2 := {| node_id := "i-2"; node_ip := "10.0.0.2"; node_left := 1 # 20;
                node_preemptible := false |}).
  assert (H0 : (0 <= 1)%Z) by lia.
  assert (Hv : In n2 (Provision.nodes_to_terminate node_ip node_left
                        (Some mixed_load) two_busy_nodes 1 false false))
    by (vm_compute; auto).
  assert (Hj : In n1 two_busy_nodes) by (left; reflexivity).
  assert (He : Ranking.eligible node_ip node_left false (mixed_load false) n1)
    by (split; [reflexivity | intros _; reflexivity]).
  assert (Hs : ~ In n1 (Provision.nodes_to_terminate node_ip node_left
                          (Some mixed_load) two_busy_nodes 1 false false)).
  { vm_compute. intros [H | []]. discriminate H. }
  split; [exact H0 |]. split; [exact Hv |]. split; [exact Hj |].
  split; [exact He |]. split; [exact Hs |].
  exact (removeNodes_takes_the_best_ranked node_ip node_left mixed_load
           two_busy_nodes 1 false false n2 n1 H0 Hv Hj He Hs).
Defined.

End RankingFacts.

(** ** Facts about [utils.Map] *)

Module PyMapFacts.
Import PyMap.

Section Map.
Variable value : Type.
Variable callable : value -> bool.
Variable new_map : value.
Variable class_of : string -> defined.

Abbreviation Map := (Map value).
Abbreviation items := (items value).
Abbreviation attrs := (attrs value).
Abbreviation getattr := (getattr value callable class_of).
Abbreviation apply := (apply value callable new_map).
Abbreviation run := (run value callable new_map).

Lemma fill_synced (l : list (string * value)) :
  forall m : Map,
    (forall k, attrs m !! k = items m !! k
               \/ (attrs m !! k = None /\ k ∈ map fst l)) ->
    attrs (foldl (fun m kv => setitem value m (fst kv) (snd kv)) m l)
    = items (foldl (fun m kv => setitem value m (fst kv) (snd kv)) m l).
Proof.
  induction l as [| [k v] l IH]; intros m Hm; cbn [foldl].
  - apply map_eq. intros k. destruct (Hm k) as [H | [_ H]]; [exact H |].
    cbn in H. apply elem_of_nil in H. destruct H.
  - apply IH. intros k'. cbn [setitem PyMap.items PyMap.attrs fst snd].
    destruct (decide (k = k')) as [-> | Hne].
    + left. rewrite !lookup_insert_eq. reflexivity.
    + rewrite !lookup_insert_ne by exact Hne.
      destruct (Hm k') as [H | [H Hin]]; [left; exact H | right].
      split; [exact H |]. cbn [map fst] in Hin.
      apply elem_of_cons in Hin as [-> | Hin]; [contradiction | exact Hin].
Qed.

Lemma init_synced (kwargs : list (string * value)) :
  attrs (init value kwargs) = items (init value kwargs).
Proof.
  unfold init. apply fill_synced. intros k. cbn [PyMap.items PyMap.attrs].
  rewrite lookup_empty.
  destruct (list_to_map kwargs !! k) as [v |] eqn:Hk; [right | left; reflexivity].
  split; [reflexivity |].
  apply elem_of_list_to_map_2 in Hk. apply list_elem_of_fmap.
  exists (k, v). split; [reflexivity | exact Hk].
Qed.

(** The keys of [m] are among [seen]. *)
Local Abbreviation within seen m :=
  (forall k, is_Some (items m !! k) -> In k seen).

Lemma fill_within (seen : list string) (l : list (string * value)) :
  forall m : Map,
    within seen m -> (forall k, In k (map fst l) -> In k seen) ->
    within seen (foldl (fun m kv => setitem value m (fst kv) (snd kv)) m l).
Proof.
  induction l as [| [k v] l IH]; intros m Hm Hl; cbn [foldl]; [exact Hm |].
  apply IH.
  - intros k'. cbn [setitem PyMap.items fst snd].
    destruct (decide (k = k')) as [<- | Hne].
    + intros _. apply Hl. left. reflexivity.
    + rewrite lookup_insert_ne by exact Hne. apply Hm.
  - intros k' Hk'. apply Hl. right. exact Hk'.
Qed.

Lemma init_within (kwargs : list (string * value)) :
  within (map fst kwargs) (init value kwargs).
Proof.
  unfold init. apply fill_within; [| auto].
  intros k [v Hk]. cbn [PyMap.items] in Hk.
  apply elem_of_list_to_map_2 in Hk. apply in_map_iff.
  exists (k, v). split; [reflexivity |]. apply list_elem_of_In. exact Hk.
Qed.

(** A method is replaced only by a value stored under its name. *)
Lemma method_cases {A} (m : Map) (name : string) (body : outcome value A) :
  In name method_names ->
  attrs m = items m ->
  method value callable m name body = body
  \/ exists w, items m !! name = Some w
               /\ method value callable m name body
                  = (if callable w then Calls w else Raises TypeError).
Proof.
  intros _ Hsync. unfold method. rewrite Hsync.
  destruct (items m !! name) as [w |]; [right | left; reflexivity].
  exists w. split; reflexivity.
Qed.

(** How one operation ends. *)
Lemma apply_cases (seen : list string) (m : Map) (op : operation value) :
  attrs m = items m -> within seen m ->
  match apply m op with
  | Returns m' =>
      attrs m' = items m' /\ within (seen ++ stores value op) m'
  | Raises e =>
      e = KeyError
      \/ (e = TypeError /\ exists name, In name method_names /\ In name seen)
  | Calls w =>
      callable w = true /\ exists name, In name method_names /\ In name seen
  end.
Proof.
  intros Hsync Hin.
  assert (Hset : forall k v,
            attrs (setitem value m k v) = items (setitem value m k v)
            /\ within (seen ++ [k]) (setitem value m k v)).
  { intros k v. cbn [setitem PyMap.items PyMap.attrs]. rewrite Hsync.
    split; [reflexivity |]. intros k'. rewrite in_app_iff.
    destruct (decide (k = k')) as [<- | Hne]; [intros _; right; left; reflexivity |].
    rewrite lookup_insert_ne by exact Hne. intros H. left. apply Hin. exact H. }
  assert (Hdel : forall k,
            match of_result value (delitem value m k) with
            | Returns m' => attrs m' = items m' /\ within (seen ++ []) m'
            | Raises e => e = KeyError
            | Calls _ => False
            end).
  { intros k. unfold delitem. destruct (items m !! k); [| reflexivity].
    destruct (attrs m !! k); [| reflexivity].
    cbn [of_result PyMap.items PyMap.attrs]. rewrite Hsync.
    split; [reflexivity |]. intros k'. rewrite app_nil_r.
    destruct (decide (k = k')) as [<- | Hne].
    - rewrite lookup_delete_eq. intros [x Hx]. discriminate Hx.
    - rewrite lookup_delete_ne by exact Hne. apply Hin. }
  assert (Hshadow : forall name w,
            In name method_names -> items m !! name = Some w ->
            exists name, In name method_names /\ In name seen).
  { intros name w Hname Hw. exists name. split; [exact Hname |].
    apply Hin. exists w. exact Hw. }
  destruct op as [k v | k v | k | k | k]; cbn [apply stores].
  - unfold setattr.
    destruct (method_cases m "__setitem__" (Returns (setitem value m k v)))
      as [-> | (w & Hw & ->)]; [left; reflexivity | exact Hsync | apply Hset |].
    destruct (callable w) eqn:Hc.
    + split; [exact Hc |]. eapply Hshadow; [| exact Hw]. left. reflexivity.
    + right. split; [reflexivity |]. eapply Hshadow; [| exact Hw].
      left. reflexivity.
  - apply Hset.
  - unfold delattr.
    destruct (method_cases m "__delitem__" (of_result value (delitem value m k)))
      as [-> | (w & Hw & ->)]; [right; left; reflexivity | exact Hsync | |].
    + specialize (Hdel k).
      destruct (of_result value (delitem value m k)); [exact Hdel | | destruct Hdel].
      left. exact Hdel.
    + destruct (callable w) eqn:Hc.
      * split; [exact Hc |]. eapply Hshadow; [| exact Hw]. right. left. reflexivity.
      * right. split; [reflexivity |]. eapply Hshadow; [| exact Hw].
        right. left. reflexivity.
  - specialize (Hdel k).
    destruct (of_result value (delitem value m k)); [exact Hdel | | destruct Hdel].
    left. exact Hdel.
  - unfold getitem. destruct (items m !! k) as [v |] eqn:Hk; cbn [snd].
    + split; [exact Hsync |]. intros k' H. apply in_app_iff. left. apply Hin.
      exact H.
    + apply Hset.
Qed.

(** How a sequence of operations ends. *)
Lemma run_cases (ops : list (operation value)) :
  forall (seen : list string) (m : Map),
    attrs m = items m -> within seen m ->
    match run ops m with
    | Returns m' =>
        attrs m' = items m'
        /\ within (seen ++ concat (map (stores value) ops)) m'
    | Raises e =>
        e = KeyError
        \/ (e = TypeError
            /\ exists name, In name method_names
                            /\ In name (seen ++ concat (map (stores value) ops)))
    | Calls w =>
        callable w = true
        /\ exists name, In name method_names
                        /\ In name (seen ++ concat (map (stores value) ops))
    end.
Proof.
  induction ops as [| op ops IH]; intros seen m Hsync Hin; cbn [PyMap.run map concat].
  - rewrite app_nil_r. split; [exact Hsync | exact Hin].
  - pose proof (apply_cases seen m op Hsync Hin) as Hop.
    assert (Hwiden : forall name,
              In name seen -> In name (seen ++ stores value op ++ concat (map (stores value) ops)))
      by (intros name H; apply in_app_iff; left; exact H).
    destruct (apply m op) as [m' | e | w].
    + destruct Hop as [Hsync' Hin'].
      specialize (IH (seen ++ stores value op) m' Hsync' Hin').
      rewrite <- app_assoc in IH. exact IH.
    + destruct Hop as [-> | (-> & name & Hname & Hseen)]; [left; reflexivity |].
      right. split; [reflexivity |]. exists name. auto.
    + destruct Hop as (Hc & name & Hname & Hseen).
      split; [exact Hc |]. exists name. auto.
Qed.

(** What an attribute read gives on a [Map] whose stores agree. *)
Lemma getattr_cases (m : Map) (attr : string) :
  attrs m = items m ->
  match getattr m attr with
  | Returns (Stored v) =>
      items m !! attr = Some v /\ class_of attr <> DataDescriptor
  | Returns PyNone =>
      items m !! attr = None /\ class_of attr = Undefined
      /\ items m !! "get" = None
  | Returns OfClass => class_of attr <> Undefined
  | Raises e =>
      e = TypeError /\ items m !! attr = None /\ class_of attr = Undefined
      /\ exists w, items m !! "get" = Some w /\ callable w = false
  | Calls w =>
      items m !! attr = None /\ class_of attr = Undefined
      /\ items m !! "get" = Some w /\ callable w = true
  end.
Proof.
  intros Hsync. unfold PyMap.getattr, method. rewrite Hsync.
  destruct (class_of attr) eqn:Hclass.
  - discriminate.
  - destruct (items m !! attr); [split; [reflexivity | discriminate] | discriminate].
  - destruct (items m !! attr) as [v |] eqn:Hattr;
      [split; [reflexivity | discriminate] |].
    destruct (items m !! "get") as [w |] eqn:Hget.
    + destruct (callable w) eqn:Hc.
      * repeat split; reflexivity || exact Hc.
      * split; [reflexivity |]. split; [reflexivity |]. split; [reflexivity |].
        exists w. split; [reflexivity | exact Hc].
    + repeat split; reflexivity.
Qed.


End Map.

End PyMapFacts.
(** ** Facts about [Engine.prepare] *)

Module PrepareFacts.
Import PyNum PySeq Utils Spot Fleet Prepare FleetInvariant.
Import PyNumFacts PySeqFacts SpotFacts SpotMore FleetMore.
Local Open Scope Q_scope.

Lemma ask_inl {A} (q : request) (answer : result A) log a log' :
  ask q answer log = (inl a, log') -> answer = Ok a /\ log' = log ++ [q].
Proof.
  unfold ask. destruct answer as [a0 | e]; intros [= <- <-]; split; reflexivity.
Qed.

Lemma ask_not_assertion {A} (q : request) (answer : result A) log :
  fst (ask q answer log) <> inr AssertionError.
Proof. unfold ask. destruct answer; discriminate. Qed.

Lemma pbind_inl {A B} (m : P A) (k : A -> P B) log b log' :
  pbind m k log = (inl b, log') ->
  exists a log1, m log = (inl a, log1) /\ k a log1 = (inl b, log').
Proof.
  unfold pbind. destruct (m log) as [[a | x] log1]; [| discriminate].
  intros H. exists a, log1. split; [reflexivity | exact H].
Qed.

Lemma pbind_not_assertion {A B} (m : P A) (k : A -> P B) log :
  (forall log, fst (m log) <> inr AssertionError) ->
  (forall a log, fst (k a log) <> inr AssertionError) ->
  fst (pbind m k log) <> inr AssertionError.
Proof.
  intros Hm Hk. unfold pbind. specialize (Hm log).
  destruct (m log) as [[a | x] log1]; [apply Hk |].
  cbn in *. intros [= ->]. apply Hm. reflexivity.
Qed.

Lemma fix_spot_inv (env : Ec2Client) bid z :
  fix_spot env bid = Ok z ->
  exists b0, optimize_spot_bid env b0 = Ok (name z, price_deviation z).
Proof.
  unfold fix_spot.
  destruct (if falsy bid then seed_bid env
            else match bid with Some b => Ok b | None => seed_bid env end)
    as [b0 | e]; [| discriminate].
  cbn [rbind]. destruct (optimize_spot_bid env b0) as [[zone b] | e] eqn:Hopt;
    [| discriminate].
  cbn [rbind]. intros [= <-]. exists b0. exact Hopt.
Qed.

Lemma ask_fix_spot_inl env bid log z log' :
  ask_fix_spot env bid log = (inl z, log') -> fix_spot (ec2client env) bid = Ok z.
Proof.
  unfold ask_fix_spot.
  destruct (if falsy bid then seed_bid (ec2client env)
            else match bid with Some b => Ok b | None => seed_bid (ec2client env) end);
    [| discriminate].
  destruct (fix_spot (ec2client env) bid); [| discriminate].
  intros [= <- _]. reflexivity.
Qed.

Lemma ask_fix_spot_not_assertion env bid log :
  fst (ask_fix_spot env bid log) <> inr AssertionError.
Proof.
  unfold ask_fix_spot.
  destruct (if falsy bid then seed_bid (ec2client env)
            else match bid with Some b => Ok b | None => seed_bid (ec2client env) end);
    [| discriminate].
  destruct (fix_spot (ec2client env) bid); discriminate.
Qed.

(** The bid of a tuned plan is never below the lowest price on record. *)
Lemma fix_spot_bid (env : Ec2Client) bid z :
  fix_spot env bid = Ok z ->
  In (name z) (describe_availability_zones env)
  /\ exists sm avg,
       check_spot_prices (get_spot_history env) = Some (sm, avg)
       /\ sm <= price_deviation z.
Proof.
  intros H. apply fix_spot_inv in H as [b0 Hopt].
  split; [eapply optimize_spot_bid_zone_listed; exact Hopt |].
  destruct (optimize_spot_bid_bound env b0 _ _ Hopt) as (sm & avg & Hcheck & _).
  exists sm, avg. split; [exact Hcheck |].
  pose proof (check_spot_prices_min_le_avg _ _ _ Hcheck) as Hle.
  unfold optimize_spot_bid in Hopt. cbv zeta in Hopt.
  destruct (zone_loop _ _ _ _ _ _) as [markets | e]; [| discriminate Hopt].
  cbn [rbind] in Hopt.
  destruct (py_min _ _ _) as [stable | e]; [| discriminate Hopt].
  cbn [rbind] in Hopt. rewrite Hcheck in Hopt. injection Hopt as _ <-.
  apply correct_bid_lower. exact Hle.
Qed.

(** X25.  [prepare] raises [AssertionError] exactly when the engine is bound
    to an instance, and then before it has asked anything of the session or
    of the provider. *)
Theorem prepare_refuses_a_bound_engine (env : Session) (self : engine)
    keyName instance_type image_id num_instances spot_bid spot_auto_tune log :
  let outcome := prepare env self keyName instance_type image_id num_instances
                   spot_bid spot_auto_tune log in
  match instance_id self with
  | Some _ => outcome = (inr AssertionError, log)
  | None => fst outcome <> inr AssertionError
  end.
Proof.
  cbv zeta. unfold prepare. destruct (instance_id self) as [i |]; [reflexivity |].
  apply pbind_not_assertion.
  { intros l. destruct keyName as [[| a k] |]; apply ask_not_assertion. }
  intros key l. apply pbind_not_assertion.
  { intros l'. destruct image_id; [discriminate | apply ask_not_assertion]. }
  intros image l'. apply pbind_not_assertion; [intros; apply ask_not_assertion |].
  intros _ l1. apply pbind_not_assertion.
  { intros l2. unfold setup_security_groups. apply pbind_not_assertion;
      [intros; apply ask_not_assertion |].
    intros [sg |] l3; [| discriminate].
    apply pbind_not_assertion; [intros; apply ask_not_assertion | discriminate]. }
  intros groups l2. apply pbind_not_assertion; [intros; apply ask_not_assertion |].
  intros subnets l3. apply pbind_not_assertion.
  { intros l4. destruct spot_auto_tune; [| discriminate].
    apply pbind_not_assertion; [apply ask_fix_spot_not_assertion | discriminate]. }
  intros tuned l4. destruct subnets; discriminate.
Qed.

(** How a successful [prepare] is made up. *)
Lemma prepare_inv (env : Session) (self : engine)
    keyName instance_type image_id num_instances spot_bid spot_auto_tune
    log arguments state log' :
  prepare env self keyName instance_type image_id num_instances spot_bid
    spot_auto_tune log = (inl (arguments, state), log') ->
  instance_id self = None
  /\ MinCount arguments = 1%Z
  /\ MaxCount arguments = num_instances
  /\ Prepare.ImageId arguments = Prepare.image_id state
  /\ Placement_GroupName arguments
     = "plgroup_" +:+ availability_zone env +:+ "_" +:+ random_id env
  /\ (exists rest,
        filter_subnets env (availability_zone env)
        = Ok (Prepare.SubnetId arguments :: rest))
  /\ (if spot_auto_tune
      then exists z, fix_spot (ec2client env) spot_bid = Ok z
                     /\ Placement_AvailabilityZone arguments = name z
                     /\ Prepare.BidPrice arguments = Some (price_deviation z)
      else Placement_AvailabilityZone arguments = availability_zone env
           /\ Prepare.BidPrice arguments = spot_bid).
Proof.
  unfold prepare. destruct (instance_id self) as [i |]; [discriminate |].
  intros H.
  apply pbind_inl in H as (key & l1 & _ & H).
  apply pbind_inl in H as (image & l2 & _ & H).
  apply pbind_inl in H as (u & l3 & _ & H).
  apply pbind_inl in H as (groups & l4 & _ & H).
  apply pbind_inl in H as (subnets & l5 & Hsub & H).
  apply pbind_inl in H as (tuned & l6 & Htuned & H).
  apply ask_inl in Hsub as [Hsub _].
  destruct subnets as [| subnet rest]; [discriminate |].
  injection H as <- <- <-. cbn.
  split; [reflexivity |]. split; [reflexivity |]. split; [reflexivity |].
  split; [reflexivity |]. split; [reflexivity |].
  split; [exists rest; exact Hsub |].
  destruct spot_auto_tune.
  - apply pbind_inl in Htuned as (z & l7 & Hfix & Hret).
    apply ask_fix_spot_inl in Hfix. injection Hret as <- _.
    exists z. split; [exact Hfix |]. split; reflexivity.
  - injection Htuned as <- _. split; reflexivity.
Qed.

(** X26.  The plan of a successful [prepare].  It is for one instance at
    least and [num_instances] at most; its subnet is the first one of the
    zone of the session and its placement group is named after that zone.
    With [spot_auto_tune] the zone of the placement is one the provider
    lists, chosen by the optimizer, and the bid is never below the lowest
    price on record; without it the zone is the one of the session and the
    bid is the caller's. *)
Theorem prepare_plan (env : Session) (self : engine)
    keyName instance_type image_id num_instances spot_bid spot_auto_tune
    log arguments state log' :
  prepare env self keyName instance_type image_id num_instances spot_bid
    spot_auto_tune log = (inl (arguments, state), log') ->
  MinCount arguments = 1%Z
  /\ MaxCount arguments = num_instances
  /\ Placement_GroupName arguments
     = "plgroup_" +:+ availability_zone env +:+ "_" +:+ random_id env
  /\ (exists rest,
        filter_subnets env (availability_zone env)
        = Ok (Prepare.SubnetId arguments :: rest))
  /\ (if spot_auto_tune
      then In (Placement_AvailabilityZone arguments)
              (describe_availability_zones (ec2client env))
           /\ exists bid sm avg,
                Prepare.BidPrice arguments = Some bid
                /\ check_spot_prices (get_spot_history (ec2client env))
                   = Some (sm, avg)
                /\ sm <= bid
      else Placement_AvailabilityZone arguments = availability_zone env
           /\ Prepare.BidPrice arguments = spot_bid).
Proof.
  intros H. apply prepare_inv in H as (_ & Hmin & Hmax & _ & Hgroup & Hsub & Htune).
  split; [exact Hmin |]. split; [exact Hmax |]. split; [exact Hgroup |].
  split; [exact Hsub |].
  destruct spot_auto_tune; [| exact Htune].
  destruct Htune as (z & Hfix & -> & ->).
  apply fix_spot_bid in Hfix as (Hin & sm & avg & Hcheck & Hle).
  split; [exact Hin |]. exists (price_deviation z), sm, avg.
  split; [reflexivity |]. split; [exact Hcheck | exact Hle].
Qed.

Lemma prepare_plan_witness :
  exists arguments state log',
    prepare scenario_session unbound (Some "wed-key1") None (Some "ami-6d48500b")
      1 None true [] = (inl (arguments, state), log')
    /\ MaxCount arguments = 1%Z
    /\ In (Placement_AvailabilityZone arguments) ["zoneA"; "zoneB"]
    /\ exists rest, Ok ["subnet-b"] = Ok (Prepare.SubnetId arguments :: rest).
Proof.
  do 3 eexists. split; [vm_compute; reflexivity |].
  destruct (prepare_plan scenario_session unbound (Some "wed-key1") None
              (Some "ami-6d48500b") 1 None true [] _ _ _ eq_refl)
    as (_ & Hmax & _ & Hsub & Hzone & _).
  split; [exact Hmax |]. split; [exact Hzone | exact Hsub].
Defined.

End PrepareFacts.

Module MainFacts.
Import PyNum PySeq Utils Spot Fleet Prepare FleetInvariant.
Import PyNumFacts PySeqFacts SpotFacts SpotMore FleetMore PrepareFacts.
Local Open Scope Q_scope.

Lemma keeps_added_issue (Q : call -> Prop) base (c : call) :
  Q c -> keeps (added Q base) (issue c).
Proof.
  intros Hc f r f' (cs & Hcalls & Hall) [= _ <-]. exists (cs ++ [c]).
  cbn [log_calls calls]. rewrite Hcalls, app_assoc. split; [reflexivity |].
  apply Forall_app. split; [exact Hall | repeat constructor; exact Hc].
Qed.

Lemma added_begins (Q : call -> Prop) (c : call) (f : frame) :
  added Q [c] f -> begins c f.
Proof. intros (cs & Hcalls & _). exists cs. exact Hcalls. Qed.

Section WithService.
Variable svc : Service.
Variable Q : call -> Prop.
Variable base : list call.
Hypothesis may_follow : forall c, follows c -> Q c.

Lemma keeps_added_wait_loop fuel spot_req_id :
  forall count_tries,
    keeps (added Q base) (wait_loop svc fuel spot_req_id count_tries).
Proof.
  induction fuel as [| fuel IH]; intros count_tries; cbn [wait_loop].
  - apply keeps_diverge.
  - destruct (count_tries <? 10)%Z; [| apply keeps_ret].
    apply keeps_bind; [apply keeps_get_frame |]. intros f0.
    apply keeps_bind; [apply keeps_added_issue, may_follow; exact I |]. intros _.
    apply keeps_bind; [apply keeps_lift |]. intros resp.
    destruct (scan_requests resp count_tries);
      [apply keeps_ret | apply keeps_raise | apply IH].
Qed.

Lemma keeps_added_store_instance (instance : string) :
  keeps (added Q base) (store_instance svc instance).
Proof.
  intros f r f' (cs & Hcalls & Hall).
  unfold store_instance, embed, bind, issue, lift.
  destruct (create_tags svc instance) as [[] | e]; intros [= _ <-].
  all: exists (cs ++ [CreateTags instance]); cbn [log_calls calls];
    rewrite Hcalls, app_assoc; split; [reflexivity |];
    apply Forall_app; split; [exact Hall |];
    repeat constructor; apply may_follow; exact I.
Qed.

Lemma keeps_added_on_client_error terminate_on_error :
  keeps (added Q base) (on_client_error svc terminate_on_error).
Proof.
  unfold on_client_error. destruct terminate_on_error.
  - apply keeps_bind; [apply keeps_get_frame |]. intros f0.
    apply keeps_bind; [| intros _; apply keeps_raise].
    apply keeps_for_each. intros p_id. unfold terminate.
    apply keeps_bind; [apply keeps_added_issue, may_follow; exact I |].
    intros _. apply keeps_lift.
  - apply keeps_bind; [apply keeps_get_frame |]. intros f0.
    apply keeps_bind; [| intros _; apply keeps_raise].
    intros f r f' Hb. unfold pending_remove.
    destruct (instance_id (self f0)) as [i |]; [| intros [= _ <-]; exact Hb].
    destruct (decide (i ∈ pending_ids f)); intros [= _ <-]; exact Hb.
Qed.

Lemma keeps_added_await_ready fuel inst :
  keeps (added Q base) (await_ready svc fuel inst).
Proof.
  unfold await_ready.
  apply keeps_bind; [apply keeps_added_issue, may_follow; exact I |]. intros _.
  apply keeps_bind; [apply keeps_lift |]. intros _.
  induction fuel as [| fuel IH]; cbn [waitForOpenPort]; [apply keeps_diverge |].
  apply keeps_bind; [apply keeps_get_frame |]. intros f0.
  apply keeps_bind; [apply keeps_added_issue, may_follow; exact I |]. intros _.
  destruct (connect_ex svc inst _); [apply keeps_ret | exact IH].
Qed.

(** What holds of the calls when [submit] ends holds when [create] ends. *)
Lemma create_added fuel self0 (plan : LaunchPlan) terminate_on_error ordinal
    path text r f :
  path <> EmptyString ->
  read_file svc path = Ok text ->
  (forall f0 r1 f1, calls f0 = [] ->
     submit svc fuel plan (Some text) f0 = Some (r1, f1) -> added Q base f1) ->
  create svc fuel self0 plan terminate_on_error ordinal (Some path) = Some (r, f) ->
  added Q base f.
Proof.
  intros Hpath Hread Hstart.
  unfold create, create_body, bind at 1, user_text_of.
  destruct path as [| a path]; [contradiction |].
  unfold bind at 1, lift at 1. rewrite Hread. unfold ret at 1.
  set (f0 := {| self := self0; pending_ids := ∅; engines := [];
                next_ordinal := ordinal; calls := [] |}).
  specialize (Hstart f0).
  destruct (submit svc fuel plan (Some text) f0) as [[[u | e] f1] |] eqn:Hs;
    [| | discriminate].
  - specialize (Hstart _ _ eq_refl eq_refl).
    apply keeps_bind; [| | exact Hstart].
    + apply keeps_for_each. intros inst. apply keeps_added_await_ready.
    + intros _. apply keeps_bind; [apply keeps_get_frame |]. intros f2.
      apply keeps_ret.
  - specialize (Hstart _ _ eq_refl eq_refl).
    assert (Hraise : forall r2 f2, Some (Raise (A := list string) e, f1)
                                   = Some (r2, f2) -> added Q base f2)
      by (intros r2 f2 [= _ <-]; exact Hstart).
    destruct e; try (apply Hraise).
    destruct (on_client_error svc terminate_on_error f1) as [[[u | e] f2] |] eqn:Hc;
      [| | discriminate].
    + intros [= _ <-]. eapply keeps_added_on_client_error; eassumption.
    + intros [= _ <-]. eapply keeps_added_on_client_error; eassumption.
Qed.

End WithService.

Section Launch.
Variable svc : Service.

(** A plan without a bid is launched on demand. *)
Lemma create_begins_on_demand fuel self0 (plan : LaunchPlan)
    terminate_on_error ordinal path text r f :
  path <> EmptyString ->
  read_file svc path = Ok text ->
  truthy (Fleet.BidPrice plan) = false ->
  create svc fuel self0 plan terminate_on_error ordinal (Some path) = Some (r, f) ->
  begins (CreateInstances (Fleet.MaxCount plan)) f.
Proof.
  intros Hpath Hread Hbid Hcreate.
  apply (added_begins (fun _ => True)).
  apply (create_added svc (fun _ => True) [CreateInstances (Fleet.MaxCount plan)]
           (fun _ _ => I) fuel self0 plan terminate_on_error ordinal path text r f
           Hpath Hread); [| exact Hcreate].
  intros f0 r1 f1 Hnone.
  assert (Hsubmit : submit svc fuel plan (Some text)
                    = submit_on_demand svc plan (Some text)).
  { unfold submit. destruct (Fleet.BidPrice plan); [rewrite Hbid |]; reflexivity. }
  rewrite Hsubmit. unfold submit_on_demand, read_user_text.
  unfold bind at 1, ret at 1. unfold bind at 1, issue at 1.
  apply keeps_bind; [apply keeps_lift | |].
  - intros instances. apply keeps_for_each.
    apply keeps_added_store_instance. intros c _. exact I.
  - exists []. cbn [log_calls calls]. rewrite Hnone. split; [reflexivity | constructor].
Qed.

(** What [create_ec2_spot_instances] does before the request: the key pair
    is asked for, and the outcome is that of the three steps. *)
Lemma launch_specification_run (plan : LaunchPlan) (f : frame) :
  launch_specification svc plan f
  = Some (match Fleet.get_key_pair svc (key_wanted (Fleet.KeyName plan)) with
          | Raise e => Raise e
          | Ok _ =>
            match ec2_instance_types !! Fleet.InstanceType plan with
            | None => Raise KeyError
            | Some _ =>
              match Placement plan with
              | None => Raise AttributeError
              | Some _ => Ok tt
              end
            end
          end,
          log_calls [Fleet.GetKeyPair (key_wanted (Fleet.KeyName plan))] f).
Proof.
  unfold launch_specification, bind, issue, lift, ret.
  destruct (Fleet.get_key_pair svc _); [| reflexivity].
  destruct (ec2_instance_types !! _); [| reflexivity].
  destruct (Placement plan); reflexivity.
Qed.

(** A spot launch that gets as far as the request: the key pair, the
    request, and then neither a launch nor a key pair any more. *)
Lemma create_sends_the_request fuel self0 (plan : LaunchPlan) bid
    terminate_on_error ordinal path text r f :
  path <> EmptyString ->
  read_file svc path = Ok text ->
  Fleet.BidPrice plan = Some bid ->
  truthy (Some bid) = true ->
  (forall f0,
     launch_specification svc plan f0
     = Some (Ok tt,
             log_calls [Fleet.GetKeyPair (key_wanted (Fleet.KeyName plan))] f0)) ->
  create svc fuel self0 plan terminate_on_error ordinal (Some path) = Some (r, f) ->
  added follows [Fleet.GetKeyPair (key_wanted (Fleet.KeyName plan));
                 RequestSpotInstances bid (Fleet.MaxCount plan)] f.
Proof.
  intros Hpath Hread Hbid Htruthy Hspec.
  apply (create_added svc follows _ (fun c H => H) fuel self0 plan
           terminate_on_error ordinal path text r f Hpath Hread).
  intros f0 r1 f1 Hnone. unfold submit. rewrite Hbid, Htruthy.
  unfold submit_spot, read_user_text. unfold bind at 1, ret at 1.
  unfold bind at 1. rewrite Hspec. unfold bind at 1, issue at 1.
  apply keeps_bind; [apply keeps_lift | |].
  - intros instances. apply keeps_for_each. intros spot.
    apply keeps_bind; [apply keeps_added_wait_loop; auto |]. intros inst_id.
    apply keeps_bind;
      [destruct inst_id; [apply keeps_ret | apply keeps_raise] |].
    intros inst. apply keeps_added_store_instance. auto.
  - exists []. cbn [log_calls calls]. rewrite Hnone.
    split; [reflexivity | constructor].
Qed.

(** A spot launch that fails before the request: nothing but the key pair
    was asked for, and [create] raises. *)
Lemma create_stops_before_the_request fuel self0 (plan : LaunchPlan) bid
    terminate_on_error ordinal path text r f e :
  path <> EmptyString ->
  read_file svc path = Ok text ->
  Fleet.BidPrice plan = Some bid ->
  truthy (Some bid) = true ->
  (forall f0,
     launch_specification svc plan f0
     = Some (Raise e,
             log_calls [Fleet.GetKeyPair (key_wanted (Fleet.KeyName plan))] f0)) ->
  create svc fuel self0 plan terminate_on_error ordinal (Some path) = Some (r, f) ->
  calls f = [Fleet.GetKeyPair (key_wanted (Fleet.KeyName plan))]
  /\ (exists e', r = Raise e')
  /\ (e <> ClientError -> r = Raise e).
Proof.
  intros Hpath Hread Hbid Htruthy Hspec.
  unfold create, create_body, bind at 1, user_text_of.
  destruct path as [| a path]; [contradiction |].
  unfold bind at 1, lift at 1. rewrite Hread. unfold ret at 1.
  unfold submit. rewrite Hbid, Htruthy.
  unfold submit_spot, read_user_text. unfold bind at 1, ret at 1.
  unfold bind at 1. rewrite Hspec.
  destruct e; try (intros [= <- <-]; split; [reflexivity |];
                   split; [eexists; reflexivity | reflexivity]).
  unfold on_client_error. destruct terminate_on_error.
  - cbn. rewrite elements_empty. cbn. intros [= <- <-]. split; [reflexivity |].
    split; [eexists; reflexivity | intros H; contradiction].
  - unfold bind, get_frame, pending_remove, raise.
    cbn [self log_calls pending_ids].
    destruct (instance_id self0) as [i |];
      [destruct (decide (i ∈ (∅ : gset string))) as [Hin | _];
       [apply elem_of_empty in Hin; destruct Hin |] |];
      intros [= <- <-]; (split; [reflexivity |];
        split; [eexists; reflexivity | intros H; contradiction]).
Qed.

Lemma round4_cent : round4 (1 # 10000) == 1 # 10000.
Proof. vm_compute. reflexivity. Qed.

(** With every price on record at a hundredth of a cent or more, the lowest
    rounded price is positive. *)
Lemma check_spot_prices_positive (env : Ec2Client) sm avg :
  (forall pr, In pr (describe_spot_price_history env) -> 1 # 10000 <= SpotPrice pr) ->
  check_spot_prices (get_spot_history env) = Some (sm, avg) ->
  0 < sm.
Proof.
  intros Hpos. unfold check_spot_prices. cbv zeta.
  destruct (py_min Qltb id (rounded_prices (get_spot_history env)))
    as [smaller | e] eqn:Hmin; [| discriminate].
  destruct (mean _); [| discriminate]. intros [= <- _].
  apply py_min_In in Hmin. unfold rounded_prices in Hmin.
  apply in_map_iff in Hmin as (pr & <- & Hin).
  unfold get_spot_history, sorted_reverse in Hin. apply sorted_In in Hin.
  pose proof (round4_mono _ _ (Hpos pr Hin)) as Hle.
  rewrite round4_cent in Hle. lra.
Qed.


End Launch.

Lemma scenario_prices pr :
  In pr (describe_spot_price_history (ec2client scenario_session)) ->
  1 # 10000 <= SpotPrice pr.
Proof.
  cbn. intros [<- | [<- | [<- | [<- | []]]]]; cbn; unfold Qle; cbn; lia.
Qed.


End MainFacts.

(** ** The plan between [prepare] and [create] *)

Module PlanFacts.
Import PyNum Fleet Prepare PyMap Plan FleetInvariant MainFacts.
Local Open Scope Q_scope.

Section WithService.
Variable svc : Service.
Variable class_of : string -> defined.
Hypothesis plan_names :
  forall attr, In attr plan_attributes -> class_of attr = Undefined.

Abbreviation getattr := (getattr pyval callable class_of).

(** A [Map] that stores nothing under [get] answers the reads of the names
    of the plan from what it holds. *)
Lemma plan_name (attr : string) :
  In attr plan_attributes ->
  forall m : Map pyval,
    attrs pyval m !! "get" = None ->
    getattr m attr
    = Returns match attrs pyval m !! attr with
              | Some v => Stored v
              | None => match items pyval m !! attr with
                        | Some v => Stored v
                        | None => PyNone
                        end
              end.
Proof.
  intros Hin m Hget. unfold PyMap.getattr, method.
  rewrite (plan_names attr Hin), Hget.
  destruct (attrs pyval m !! attr); reflexivity.
Qed.

(** What [create] reads of the [Map] of [prepare] is what [prepare] put
    there. *)
Lemma read_plan_arguments_map (a : Arguments) :
  class_of "Placement" = Undefined ->
  read_plan class_of (arguments_map a) = launch_plan a.
Proof.
  intros Hplacement.
  unfold read_plan, launch_plan, attr_str, attr_int, attr_bid, attr_placement.
  rewrite !plan_name by (reflexivity || (cbn; tauto)).
  unfold PyMap.getattr. rewrite Hplacement.
  destruct a as [? ? ? ? ? ? ? ? ? [b |]]; reflexivity.
Qed.

(** X28.  [create] takes the bid out of the [Map] it is given: after a
    request on the spot market the plan of the caller has no [BidPrice] any
    more, its other entries are as they were, and a [create] on the same
    plan launches on demand.  The names of the plan are names that the class
    of the [Map] does not define. *)
Theorem create_takes_the_bid_out (a : Arguments) :
  truthy (Prepare.BidPrice a) = true ->
  exists m,
    take_bid class_of (arguments_map a) = Returns m
    /\ getattr m "BidPrice" = Returns PyNone
    /\ (forall attr, attr <> "BidPrice" ->
          getattr m attr = getattr (arguments_map a) attr)
    /\ forall fuel self0 terminate_on_error ordinal path text r f,
         path <> EmptyString ->
         read_file svc path = Ok text ->
         create svc fuel self0 (read_plan class_of m) terminate_on_error ordinal
           (Some path) = Some (r, f) ->
         begins (CreateInstances (Prepare.MaxCount a)) f.
Proof.
  intros Hbid.
  destruct a as [image mn mx type key groups subnet zone group [bid |]];
    [| discriminate Hbid].
  cbn [Prepare.BidPrice Prepare.MaxCount] in *.
  set (a := {| Prepare.ImageId := image; MinCount := mn; Prepare.MaxCount := mx;
               Prepare.InstanceType := type; Prepare.KeyName := key;
               SecurityGroupIds := groups; Prepare.SubnetId := subnet;
               Placement_AvailabilityZone := zone; Placement_GroupName := group;
               Prepare.BidPrice := Some bid |}).
  set (m := {| items := delete "BidPrice" (items pyval (arguments_map a));
               attrs := delete "BidPrice" (attrs pyval (arguments_map a)) |}).
  assert (Hget : attrs pyval (arguments_map a) !! "get" = None) by reflexivity.
  assert (Hget' : attrs pyval m !! "get" = None) by reflexivity.
  exists m.
  split; [| split; [| split]].
  - unfold take_bid, attr_bid. rewrite plan_name by (exact Hget || (cbn; tauto)).
    replace (attrs pyval (arguments_map a) !! "BidPrice")
      with (Some (PFloat bid)) by reflexivity.
    rewrite Hbid. unfold delattr, method, delitem.
    replace (attrs pyval (arguments_map a) !! "__delitem__")
      with (@None pyval) by reflexivity.
    replace (items pyval (arguments_map a) !! "BidPrice")
      with (Some (PFloat bid)) by reflexivity.
    replace (attrs pyval (arguments_map a) !! "BidPrice")
      with (Some (PFloat bid)) by reflexivity.
    reflexivity.
  - rewrite plan_name by (exact Hget' || (cbn; tauto)).
    unfold m. cbn [items attrs]. rewrite !lookup_delete_eq. reflexivity.
  - intros attr Hattr. unfold PyMap.getattr, method. rewrite Hget, Hget'.
    unfold m. cbn [items attrs].
    rewrite !lookup_delete_ne by (intros H; apply Hattr; symmetry; exact H).
    reflexivity.
  - intros fuel self0 toe ordinal path text r f Hpath Hread Hcreate.
    assert (Hmax : Fleet.MaxCount (read_plan class_of m) = mx).
    { unfold read_plan, attr_int. cbn [Fleet.MaxCount].
      rewrite plan_name by (exact Hget' || (cbn; tauto)). reflexivity. }
    assert (Hnone : truthy (Fleet.BidPrice (read_plan class_of m)) = false).
    { unfold read_plan, attr_bid. cbn [Fleet.BidPrice].
      rewrite plan_name by (exact Hget' || (cbn; tauto)). reflexivity. }
    rewrite <- Hmax.
    apply (create_begins_on_demand svc fuel self0 _ toe ordinal path text r f
             Hpath Hread Hnone Hcreate).
Qed.

End WithService.

Lemma create_takes_the_bid_out_witness :
  (forall attr, In attr plan_attributes -> some_names attr = Undefined)
  /\ truthy (Prepare.BidPrice scenario_arguments) = true
  /\ exists m,
       take_bid some_names (arguments_map scenario_arguments) = Returns m
       /\ PyMap.getattr pyval callable some_names m "BidPrice" = Returns PyNone
       /\ PyMap.getattr pyval callable some_names m "MaxCount"
          = Returns (Stored (PInt 2)).
Proof.
  assert (Hnames : forall attr, In attr plan_attributes -> some_names attr = Undefined).
  { intros attr Hin. cbn in Hin.
    destruct Hin as [<- | [<- | [<- | [<- | [<- | [<- | []]]]]]]; reflexivity. }
  split; [exact Hnames |]. split; [reflexivity |].
  destruct (create_takes_the_bid_out launching some_names Hnames
              scenario_arguments eq_refl)
    as (m & Htake & Hnone & Hrest & _).
  exists m. split; [exact Htake |]. split; [exact Hnone |].
  rewrite Hrest by discriminate. reflexivity.
Defined.

End PlanFacts.

(** ** Facts about [findLatestUbuntuImage] *)

Module ImagesFacts.
Import Images.

Lemma filter_single {A} (f : A -> bool) (l : list A) (x : A) :
  List.filter f l = [x] <->
  exists l1 l2, l = l1 ++ x :: l2 /\ f x = true
                /\ forall y, In y (l1 ++ l2) -> f y = false.
Proof.
  split.
  - revert x. induction l as [| a l IH]; intros x; cbn; [discriminate |].
    destruct (f a) eqn:Ha.
    + intros [= -> Hnil]. exists [], l. split; [reflexivity |].
      split; [exact Ha |]. intros y Hy. cbn in Hy.
      destruct (f y) eqn:Hfy; [| reflexivity].
      assert (Hin : In y (List.filter f l)) by (apply filter_In; auto).
      rewrite Hnil in Hin. destruct Hin.
    + intros H. destruct (IH x H) as (l1 & l2 & -> & Hx & Hrest).
      exists (a :: l1), l2. split; [reflexivity |]. split; [exact Hx |].
      intros y [<- | Hy]; [exact Ha | apply Hrest; exact Hy].
  - intros (l1 & l2 & -> & Hx & Hrest).
    assert (Hnone : forall l', (forall y, In y l' -> f y = false) ->
                               List.filter f l' = []).
    { induction l' as [| a l' IH]; intros H; cbn; [reflexivity |].
      rewrite (H a) by (left; reflexivity). apply IH. intros y Hy. apply H.
      right. exact Hy. }
    rewrite List.filter_app. cbn. rewrite Hx.
    rewrite !Hnone; [reflexivity | |]; intros y Hy; apply Hrest;
      apply in_or_app; auto.
Qed.

(** X29.  [findLatestUbuntuImage] returns an image exactly when one line of
    the list, and no other, matches the template: the image of that line.
    With no matching line, and with two or more, it raises. *)
Theorem findLatestUbuntuImage_exactly_one (release_wanted this_region
    virtualization_type : string) (images : list image) (ami : option string) :
  findLatestUbuntuImage release_wanted this_region virtualization_type images
    = Found ami
  <-> exists before line after,
        images = before ++ line :: after
        /\ matches release_wanted this_region virtualization_type line = true
        /\ ami_id line = ami
        /\ forall other, In other (before ++ after) ->
             matches release_wanted this_region virtualization_type other = false.
Proof.
  unfold findLatestUbuntuImage. cbv zeta.
  set (f := matches release_wanted this_region virtualization_type).
  split.
  - destruct (List.filter f images) as [| x [| y rest]] eqn:Hf.
    + intros H. discriminate H.
    + intros H. injection H as <-. apply filter_single in Hf as (l1 & l2 & Hl & Hx & Hrest).
      exists l1, x, l2. auto.
    + cbn [length].
      destruct (Z.of_nat (S (S (length rest))) <? 1)%Z; [discriminate |].
      destruct (1 <? Z.of_nat (S (S (length rest))))%Z eqn:Hlt; [discriminate |].
      apply Z.ltb_ge in Hlt. lia.
  - intros (l1 & x & l2 & Hl & Hx & <- & Hrest).
    assert (Hf : List.filter f images = [x]).
    { apply filter_single. exists l1, l2. auto. }
    rewrite Hf. reflexivity.
Qed.

End ImagesFacts.
